(** * eloquent-ffmpeg: the string helpers ([src/string.ts]) and the probe
    mapper ([src/types.ts]), embedded over an executable model of the
    JavaScript values they manipulate.

    Numbers are IEEE-754 binary64 values ([spec_float] with precision 53 and
    [emax] 1024, the operations of [SpecFloat]); strings are sequences of code
    units, here restricted to the code units 0..255 of [ascii]. *)

From Stdlib Require Import ZArith List String Ascii Bool Lia.
From Stdlib Require Import SpecFloat DecimalString.
Import ListNotations.

Set Warnings "-register-all".

Local Open Scope string_scope.
Local Open Scope Z_scope.

(** ** Numbers *)

Module Num.

Definition number := spec_float.

Definition prec : Z := 53.
Definition emax : Z := 1024.

Definition NaN : number := S754_nan.

(** The Number value of a mathematical integer (round to nearest, ties to
    even). *)
Definition of_Z (z : Z) : number := binary_normalize prec emax z 0 false.

(** The Number value of the positive rational [n / d]. [SFdiv]'s core keeps
    enough quotient bits and the position of the remainder, whatever the size
    of the two mantissas, so the quotient is rounded once. *)
Definition of_ratio (neg : bool) (n d : positive) : number :=
  SFdiv prec emax (S754_finite neg n 0) (S754_finite false d 0).

Definition add : number -> number -> number := SFadd prec emax.
Definition mul : number -> number -> number := SFmul prec emax.
Definition div : number -> number -> number := SFdiv prec emax.

Definition is_nan (x : number) : bool :=
  match x with S754_nan => true | _ => false end.

Definition is_finite (x : number) : bool :=
  match x with S754_nan | S754_infinity _ => false | _ => true end.

Definition is_infinite (x : number) : bool :=
  match x with S754_infinity _ => true | _ => false end.

Definition is_zero (x : number) : bool :=
  match x with S754_zero _ => true | _ => false end.

(** The integer part of a finite non-zero number, rounded toward zero and
    toward minus infinity. *)
Definition magnitude (m : positive) (e : Z) : Z :=
  if 0 <=? e then Zpos m * 2 ^ e else Zpos m / 2 ^ (- e).

Definition truncate (x : number) : Z :=
  match x with
  | S754_finite s m e => cond_Zopp s (magnitude m e)
  | _ => 0
  end.

Definition floorZ (s : bool) (m : positive) (e : Z) : Z :=
  if 0 <=? e then cond_Zopp s (Zpos m * 2 ^ e)
  else cond_Zopp s (Zpos m) / 2 ^ (- e).

(** [Math.floor] *)
Definition floor (x : number) : number :=
  match x with
  | S754_finite s m e => if 0 <=? e then x else of_Z (floorZ s m e)
  | _ => x
  end.

(** [ToUint32] and [ToInt32] of ECMA-262: NaN, the zeros and the infinities
    give 0, any other number its integer part modulo 2^32. *)
Definition ToUint32 (x : number) : Z :=
  match x with
  | S754_finite _ _ _ => truncate x mod 2 ^ 32
  | _ => 0
  end.

Definition wrap_int32 (u : Z) : Z :=
  let u := u mod 2 ^ 32 in
  if 2 ^ 31 <=? u then u - 2 ^ 32 else u.

Definition ToInt32 (x : number) : Z := wrap_int32 (ToUint32 x).

(** [x >>> y] and [x | y] on numbers. *)
Definition ushr (x y : number) : number :=
  of_Z (Z.shiftr (ToUint32 x) (ToUint32 y mod 32)).

Definition bor (x y : number) : number :=
  of_Z (wrap_int32 (Z.lor (ToInt32 x) (ToInt32 y))).

End Num.

Abbreviation number := Num.number.


(** ** Strings *)

Module Str.

Definition chr (n : nat) : ascii := ascii_of_nat n.

Definition mem (c : ascii) (l : list ascii) : bool := existsb (Ascii.eqb c) l.

Fixpoint span (p : ascii -> bool) (s : string) : string * string :=
  match s with
  | String c r =>
      if p c then let (a, b) := span p r in (String c a, b) else ("", s)
  | EmptyString => ("", "")
  end.

Fixpoint rev_acc (s acc : string) : string :=
  match s with
  | String c r => rev_acc r (String c acc)
  | EmptyString => acc
  end.

Definition rev (s : string) : string := rev_acc s "".

Definition len (s : string) : Z := Z.of_nat (String.length s).

Fixpoint take (n : nat) (s : string) : string :=
  match n, s with
  | S n, String c r => String c (take n r)
  | _, _ => ""
  end.

Fixpoint drop (n : nat) (s : string) : string :=
  match n, s with
  | S n, String _ r => drop n r
  | _, _ => s
  end.

Fixpoint repeat (c : ascii) (n : nat) : string :=
  match n with
  | O => ""
  | S n => String c (repeat c n)
  end.

(** [Array.prototype.join] *)
Fixpoint join (sep : string) (l : list string) : string :=
  match l with
  | [] => ""
  | [x] => x
  | x :: r => x ++ sep ++ join sep r
  end.

(** [String.prototype.split] with a one-character separator: the pieces
    between the occurrences, so always at least one piece. *)
Fixpoint split (sep : ascii) (s : string) : list string :=
  match s with
  | EmptyString => [""]
  | String c r =>
      if Ascii.eqb c sep then "" :: split sep r
      else match split sep r with
           | x :: l => String c x :: l
           | [] => [String c ""]
           end
  end.

(** [s.slice(0, -1)] *)
Definition slice_0_m1 (s : string) : string :=
  take (String.length s - 1) s.

(** [String.prototype.toLowerCase] on the code units 0..255: the letters A-Z
    and the capital letters of the Latin-1 supplement, U+00C0..U+00DE but for
    the multiplication sign U+00D7. *)
Definition lower_char (c : ascii) : ascii :=
  let n := nat_of_ascii c in
  if ((65 <=? n) && (n <=? 90))%nat then chr (n + 32)
  else if ((192 <=? n) && (n <=? 222) && negb (n =? 215))%nat then chr (n + 32)
  else c.

Fixpoint toLowerCase (s : string) : string :=
  match s with
  | String c r => String (lower_char c) (toLowerCase r)
  | EmptyString => ""
  end.

(** Decimal digits of a natural number. *)
Definition of_N (z : Z) : string :=
  NilZero.string_of_uint (N.to_uint (Z.to_N z)).

End Str.

(** ** Conversions between numbers and strings *)

Module Conv.

Import Num.

Definition is_digit (c : ascii) : bool :=
  let n := nat_of_ascii c in ((48 <=? n) && (n <=? 57))%nat.

(** StrWhiteSpaceChar among the code units 0..255: TAB, LF, VT, FF, CR, SP
    and NBSP. *)
Definition is_space (c : ascii) : bool :=
  let n := nat_of_ascii c in
  (((9 <=? n) && (n <=? 13)) || (n =? 32) || (n =? 160))%nat.

Definition digit_value (c : ascii) : option Z :=
  let n := nat_of_ascii c in
  if ((48 <=? n) && (n <=? 57))%nat then Some (Z.of_nat n - 48)
  else if ((97 <=? n) && (n <=? 102))%nat then Some (Z.of_nat n - 87)
  else if ((65 <=? n) && (n <=? 70))%nat then Some (Z.of_nat n - 55)
  else None.

(** The value of a string of digits in a base, [None] when a character is
    not a digit of the base. *)
Fixpoint digits_value (base : Z) (s : string) (acc : Z) : option Z :=
  match s with
  | EmptyString => Some acc
  | String c r =>
      match digit_value c with
      | Some d =>
          if d <? base then digits_value base r (acc * base + d) else None
      | None => None
      end
  end.

Definition trim (s : string) : string :=
  let s := snd (Str.span is_space s) in
  Str.rev (snd (Str.span is_space (Str.rev s))).

Definition scaled (neg : bool) (n e10 : Z) : number :=
  match n with
  | Zpos p =>
      if 0 <=? e10 then of_ratio neg (p * Z.to_pos (10 ^ e10)) 1
      else of_ratio neg p (Z.to_pos (10 ^ (- e10)))
  | _ => S754_zero neg
  end.

Definition integer_literal (base : Z) (ds : string) : number :=
  match ds with
  | EmptyString => NaN
  | _ => match digits_value base ds 0 with
         | Some n => of_Z n
         | None => NaN
         end
  end.

(** ExponentPart, optional: the exponent when the text is empty or a well
    formed exponent part. *)
Definition exponent_part (s : string) : option Z :=
  match s with
  | EmptyString => Some 0
  | String c r =>
      if Str.mem c ["e"; "E"]%char then
        let (sg, ds) :=
          match r with
          | String "+" r' => (false, r')
          | String "-" r' => (true, r')
          | _ => (false, r)
          end in
        match ds with
        | EmptyString => None
        | _ => match digits_value 10 ds 0 with
               | Some e => Some (cond_Zopp sg e)
               | None => None
               end
        end
      else None
  end.

(** StrUnsignedDecimalLiteral but for [Infinity]. *)
Definition unsigned_decimal (neg : bool) (s : string) : number :=
  let (ip, r1) := Str.span is_digit s in
  let '(fp, r2) :=
    match r1 with
    | String "." r => Str.span is_digit r
    | _ => ("", r1)
    end in
  match (ip ++ fp)%string with
  | EmptyString => NaN
  | ds =>
      match exponent_part r2, digits_value 10 ds 0 with
      | Some e, Some n => scaled neg n (e - Str.len fp)
      | _, _ => NaN
      end
  end.

Definition decimal_literal (s : string) : number :=
  let (sg, r) :=
    match s with
    | String "+" r => (false, r)
    | String "-" r => (true, r)
    | _ => (false, s)
    end in
  if String.eqb r "Infinity" then S754_infinity sg else unsigned_decimal sg r.

(** StringToNumber of ECMA-262 (the unary [+] on a string). *)
Definition StringToNumber (s : string) : number :=
  match trim s with
  | EmptyString => S754_zero false
  | String "0" (String c r) as t =>
      if Str.mem c ["x"; "X"]%char then integer_literal 16 r
      else if Str.mem c ["o"; "O"]%char then integer_literal 8 r
      else if Str.mem c ["b"; "B"]%char then integer_literal 2 r
      else decimal_literal t
  | t => decimal_literal t
  end.

(** Number::toString of ECMA-262 in radix 10. For a positive finite [x] it
    needs the integers [n], [k] and [s] with [k >= 1],
    [10^(k-1) <= s < 10^k], [s * 10^(n-k)] a decimal whose Number value is
    [x], and [k] as small as possible; among several [s] the one closest to
    [x]. *)

(** The exact value of a positive finite number as a fraction. *)
Definition exact (m : positive) (e : Z) : Z * Z :=
  if 0 <=? e then (Zpos m * 2 ^ e, 1) else (Zpos m, 2 ^ (- e)).

(** The [n] with [10^(n-1) <= num/den < 10^n]. *)
Definition decimal_exponent (num den : Z) : Z :=
  if den <=? num then Str.len (Str.of_N (num / den))
  else
    let dq := Str.len (Str.of_N (den / num)) in
    if den <=? num * 10 ^ (dq - 1) then 2 - dq else 1 - dq.

Definition same (x y : number) : bool :=
  match x, y with
  | S754_finite s1 m1 e1, S754_finite s2 m2 e2 =>
      Bool.eqb s1 s2 && Pos.eqb m1 m2 && Z.eqb e1 e2
  | _, _ => false
  end.

(** The candidates with [k] digits: the two neighbours of [x] among the
    multiples of [10^(n0-k)], the closer one first. *)
Definition candidates (num den n0 k : Z) : list (Z * Z) :=
  let '(p, q) :=
    if n0 <=? k then (num * 10 ^ (k - n0), den)
    else (num, den * 10 ^ (n0 - k)) in
  let lo := p / q in
  let r := p mod q in
  let norm s := if s =? 10 ^ k then (10 ^ (k - 1), n0 + 1) else (s, n0) in
  let below := (lo, n0) in
  let above := norm (lo + 1) in
  match 2 * r ?= q with
  | Lt => [below; above]
  | Gt => [above; below]
  | Eq => if Z.even lo then [below; above] else [above; below]
  end.

Definition rounds_to (x : number) (k : Z) (c : Z * Z) : bool :=
  let (s, n) := c in (10 ^ (k - 1) <=? s) && same (scaled false s (n - k)) x.

Fixpoint shortest (fuel : nat) (x : number) (num den n0 k : Z) : Z * Z * Z :=
  match find (rounds_to x k) (candidates num den n0 k) with
  | Some (s, n) => (s, n, k)
  | None =>
      match fuel with
      | O => (num * 10 ^ (k - n0) / den, n0, k)
      | S fuel => shortest fuel x num den n0 (k + 1)
      end
  end.

Definition exponent_text (e : Z) : string :=
  let sg := if e <? 0 then "-" else "+" in
  ("e" ++ sg ++ Str.of_N (Z.abs e))%string.

Definition format_digits (s n k : Z) : string :=
  let ds := Str.of_N s in
  if (k <=? n) && (n <=? 21) then
    (ds ++ Str.repeat "0" (Z.to_nat (n - k)))%string
  else if (0 <? n) && (n <=? 21) then
    (Str.take (Z.to_nat n) ds ++ "." ++ Str.drop (Z.to_nat n) ds)%string
  else if (-6 <? n) && (n <=? 0) then
    ("0." ++ Str.repeat "0" (Z.to_nat (- n)) ++ ds)%string
  else if k =? 1 then (ds ++ exponent_text (n - 1))%string
  else (Str.take 1 ds ++ "." ++ Str.drop 1 ds ++ exponent_text (n - 1))%string.

Definition positive_to_string (m : positive) (e : Z) : string :=
  let (num, den) := exact m e in
  let x := of_ratio false (Z.to_pos num) (Z.to_pos den) in
  let '(s, n, k) := shortest 16 x num den (decimal_exponent num den) 1 in
  format_digits s n k.

Definition NumberToString (x : number) : string :=
  match x with
  | S754_nan => "NaN"
  | S754_zero _ => "0"
  | S754_infinity s => if s then "-Infinity" else "Infinity"
  | S754_finite s m e =>
      ((if s then "-" else "") ++ positive_to_string m e)%string
  end.

End Conv.



(** ** Values *)

Module Js.

(** The values of a parsed JSON document, and [undefined] for what a
    property read finds absent. Objects are plain data objects: their
    properties are kept in enumeration order, none of them is a function,
    and what they do not have themselves they inherit from
    [Object.prototype], arrays from [Array.prototype]. *)
Inductive value :=
| VUndefined
| VNull
| VBool (b : bool)
| VNum (n : number)
| VStr (s : string)
| VArr (items : list value)
| VObj (props : list (string * value)).

(** What a [throw] raises: the two built-in errors the code can meet and,
    for a value that brings a conversion of its own, whatever that
    conversion throws. *)
Inductive exn := TypeError | RangeError | Thrown (what : string).

Inductive result (A : Type) :=
| Ok (a : A)
| Throw (e : exn).
Arguments Ok {A} a.
Arguments Throw {A} e.

Definition bind {A B} (r : result A) (f : A -> result B) : result B :=
  match r with
  | Ok a => f a
  | Throw e => Throw e
  end.

Section MapM.

Context {A B : Type} (f : A -> result B).

(** The elements in order, up to the first one that throws. *)
Fixpoint mapM (l : list A) : result (list B) :=
  match l with
  | [] => Ok []
  | x :: r =>
      bind (f x) (fun y => bind (mapM r) (fun ys => Ok (y :: ys)))
  end.

End MapM.

Fixpoint lookup {A} (k : string) (l : list (string * A)) : option A :=
  match l with
  | [] => None
  | (k', v) :: r => if String.eqb k k' then Some v else lookup k r
  end.

Definition has_own {A} (k : string) (l : list (string * A)) : bool :=
  match lookup k l with
  | Some _ => true
  | None => false
  end.

(** ToString: ['' + v] and the template literal. An object or array is
    first made a primitive, by its [toString] method (its [valueOf], own or
    inherited, never gives a primitive). A property [toString] of the object
    itself hides the inherited method and, not being a function, leaves no
    conversion: a [TypeError]. Otherwise an object gives the text of
    [Object.prototype.toString], and an array joins the strings of its
    elements with a comma, [undefined] and [null] elements giving the empty
    string. *)
Fixpoint ToString (v : value) : result string :=
  match v with
  | VUndefined => Ok "undefined"
  | VNull => Ok "null"
  | VBool b => Ok (if b then "true" else "false")
  | VNum n => Ok (Conv.NumberToString n)
  | VStr s => Ok s
  | VArr items =>
      bind (mapM (fun x => match x with
                           | VUndefined | VNull => Ok ""
                           | _ => ToString x
                           end) items)
           (fun parts => Ok (Str.join "," parts))
  | VObj props =>
      if has_own "toString" props then Throw TypeError
      else Ok "[object Object]"
  end.

(** ToNumber: the unary [+] and the operands of [*], [|] and [>>>]. An
    object or array is made a primitive as above, and the number is that of
    its string. *)
Definition ToNumber (v : value) : result number :=
  match v with
  | VUndefined => Ok Num.NaN
  | VNull => Ok (S754_zero false)
  | VBool b => Ok (if b then Num.of_Z 1 else S754_zero false)
  | VNum n => Ok n
  | VStr s => Ok (Conv.StringToNumber s)
  | VArr _ | VObj _ =>
      bind (ToString v) (fun text => Ok (Conv.StringToNumber text))
  end.

(** ToBoolean: the conditions [!o], [if (x)], [x ? a : b]. *)
Definition truthy (v : value) : bool :=
  match v with
  | VUndefined | VNull => false
  | VBool b => b
  | VNum n => negb (Num.is_nan n || Num.is_zero n)
  | VStr s => negb (String.eqb s "")
  | VArr _ | VObj _ => true
  end.

(** The same two conversions of a string that may be [undefined]: an
    element of a match array or of a destructured array. *)
Definition optional_truthy (x : option string) : bool :=
  match x with
  | Some t => negb (String.eqb t "")
  | None => false
  end.

Definition optional_number (x : option string) : number :=
  match x with
  | Some t => Conv.StringToNumber t
  | None => Num.NaN
  end.

(** [o.k] for the property names this package reads, none of which is an
    index, [length] or a member of a built-in prototype: an object gives
    its own property or [undefined], any other value but [undefined] and
    [null] gives [undefined], and those two throw. *)
Definition get (o : value) (k : string) : result value :=
  match o with
  | VUndefined | VNull => Throw TypeError
  | VObj props =>
      match lookup k props with
      | Some v => Ok v
      | None => Ok VUndefined
      end
  | _ => Ok VUndefined
  end.

(** [Object.entries] *)
Definition indexed {A} (l : list A) : list (string * A) :=
  combine (map (fun i => Str.of_N (Z.of_nat i)) (seq 0 (List.length l))) l.

Definition chars (s : string) : list value :=
  map (fun c => VStr (String c "")) (list_ascii_of_string s).

Definition entries (o : value) : list (string * value) :=
  match o with
  | VObj props => props
  | VArr items => indexed items
  | VStr s => indexed (chars s)
  | _ => []
  end.

(** ToLength: the length of an array-like, from its [length] property. *)
Definition ToLength (n : number) : Z :=
  match n with
  | S754_infinity false => 2 ^ 53 - 1
  | S754_finite _ _ _ => Z.min (Z.max (Num.truncate n) 0) (2 ^ 53 - 1)
  | _ => 0
  end.

(** [Array.prototype.map.call(o, f)] for a callback that looks at the
    element only. [undefined] and [null] are no objects: a [TypeError]. An
    array gives the results for its elements, a string those for its
    characters, a number or a boolean has no [length] and gives the empty
    array. Any other object is read as an array-like: its [length] is
    converted, a new array of that length is made (a [RangeError] beyond
    2^32 - 1), and the callback is run on the properties named by the
    indices below the length; an index the object does not have leaves a
    hole, written [None]. *)
Definition map_call {B} (f : value -> result B) (o : value)
  : result (list (option B)) :=
  let some x := bind (f x) (fun y => Ok (Some y)) in
  match o with
  | VUndefined | VNull => Throw TypeError
  | VArr items => mapM some items
  | VStr s => mapM some (chars s)
  | VBool _ | VNum _ => Ok []
  | VObj props =>
      bind (match lookup "length" props with
            | Some v => ToNumber v
            | None => Ok Num.NaN
            end)
        (fun n =>
           let len := ToLength n in
           if 2 ^ 32 - 1 <? len then Throw RangeError
           else
             mapM (fun i => match lookup (Str.of_N (Z.of_nat i)) props with
                            | Some x => some x
                            | None => Ok None
                            end)
                  (seq 0 (Z.to_nat len)))
  end.

End Js.

Export Js.

Declare Scope js_scope.
Notation "'let*' x ':=' e 'in' k" := (bind e (fun x => k))
  (at level 10, x name, e at level 100, k at level 200) : js_scope.
Local Open Scope js_scope.

(** ** Regular expressions

    The fragment the package's patterns are written in, matched the way a
    backtracking engine does: alternatives are tried in order, quantifiers
    are greedy, and a capture group records the text of its last match. *)

Module Regexp.

Inductive regex :=
| Chr (c : ascii)
| Cls (p : ascii -> bool)
| Seq (r1 r2 : regex)
| Opt (r : regex)
| Rep (n : nat) (r : regex)
| PlusCls (p : ascii -> bool)
| Grp (i : nat) (r : regex).

Definition captures := list (nat * string).

Definition capture (i : nat) (c : captures) : option string :=
  match find (fun e => Nat.eqb (fst e) i) c with
  | Some e => Some (snd e)
  | None => None
  end.

(** The text consumed between the position [s] and the later position
    [s']. *)
Definition consumed (s s' : string) : string :=
  Str.take (String.length s - String.length s') s.

Section Matcher.

Context {R : Type}.

Definition cont := string -> captures -> option R.

Fixpoint plus_cls (p : ascii -> bool) (k : cont) (s : string) (c : captures)
  : option R :=
  match s with
  | String x s' =>
      if p x then
        match plus_cls p k s' c with
        | Some r => Some r
        | None => k s' c
        end
      else None
  | EmptyString => None
  end.

Fixpoint m (r : regex) (k : cont) (s : string) (c : captures) : option R :=
  match r with
  | Chr x =>
      match s with
      | String y s' => if Ascii.eqb y x then k s' c else None
      | EmptyString => None
      end
  | Cls p =>
      match s with
      | String y s' => if p y then k s' c else None
      | EmptyString => None
      end
  | Seq r1 r2 => m r1 (m r2 k) s c
  | Opt r1 =>
      match m r1 k s c with
      | Some x => Some x
      | None => k s c
      end
  | Rep n r1 =>
      (fix rep (n : nat) (k : cont) : cont :=
         match n with
         | O => k
         | S n' => m r1 (rep n' k)
         end) n k s c
  | PlusCls p => plus_cls p k s c
  | Grp i r1 => m r1 (fun s' c' => k s' ((i, consumed s s') :: c')) s c
  end.

End Matcher.

(** The continuation of a whole pattern: the match is found. *)
Definition found : @cont captures := fun _ c => Some c.

(** [RegExp.prototype.exec] without the [g] and [y] flags: the first start
    position, from the left, at which the pattern matches. *)
Fixpoint exec (r : regex) (s : string) : option captures :=
  match m r found s [] with
  | Some c => Some c
  | None =>
      match s with
      | String _ s' => exec r s'
      | EmptyString => None
      end
  end.

(** [s.replace(/[...]/g, f)] for a pattern that is one character class:
    every character of the class is replaced by [f] of it. *)
Fixpoint replace_cls (p : ascii -> bool) (f : ascii -> string) (s : string)
  : string :=
  match s with
  | String x s' =>
      ((if p x then f x else String x "") ++ replace_cls p f s')%string
  | EmptyString => ""
  end.

Definition one_of (l : list ascii) (c : ascii) : bool := Str.mem c l.

End Regexp.

(** ** Dates *)

Module DateTime.

Definition msPerDay : Z := 86400000.

(** Year, month and day of the month of a day number counted from
    1970-01-01, in the proleptic Gregorian calendar. *)
Definition civil (day : Z) : Z * Z * Z :=
  let z := day + 719468 in
  let era := z / 146097 in
  let doe := z - era * 146097 in
  let yoe := (doe - doe / 1460 + doe / 36524 - doe / 146096) / 365 in
  let doy := doe - (365 * yoe + yoe / 4 - yoe / 100) in
  let mp := (5 * doy + 2) / 153 in
  let d := doy - (153 * mp + 2) / 5 + 1 in
  let mo := if mp <? 10 then mp + 3 else mp - 9 in
  let y := yoe + era * 400 + (if mo <=? 2 then 1 else 0) in
  (y, mo, d).

Definition pad (w : nat) (n : Z) : string :=
  let ds := Str.of_N n in
  (Str.repeat "0" (w - String.length ds) ++ ds)%string.

Definition year_text (y : Z) : string :=
  if (0 <=? y) && (y <=? 9999) then pad 4 y
  else
    let sg := if y <? 0 then "-" else "+" in
    (sg ++ pad 6 (Z.abs y))%string.

(** [Date.prototype.toISOString]: a [RangeError] on an invalid date. *)
Definition toISOString (tv : option Z) : result string :=
  match tv with
  | None => Throw RangeError
  | Some t =>
      let '(y, mo, d) := civil (t / msPerDay) in
      let ms := t mod msPerDay in
      Ok (year_text y ++ "-" ++ pad 2 mo ++ "-" ++ pad 2 d ++ "T"
          ++ pad 2 (ms / 3600000) ++ ":" ++ pad 2 (ms / 60000 mod 60) ++ ":"
          ++ pad 2 (ms / 1000 mod 60) ++ "." ++ pad 3 (ms mod 1000)
          ++ "Z")%string
  end.

End DateTime.


(** ** [src/string.ts] *)

Module StringTs.

Import Regexp.

(** What the serializer is given as a value. A JSON-shaped value; a [Date],
    by its time value ([None] for an invalid date); a symbol; or any other
    value (a bigint, a function, an object with a conversion of its own),
    which is neither [undefined] nor [null] nor a [Date] and of which the
    serializer sees nothing but what the template literal makes of it: a
    text, or what its conversion throws. *)
Inductive unknown :=
| Plain (v : value)
| Date (tv : option Z)
| Symbol (description : option string)
| Other (text : result string).

(** The [options] argument of [stringifyFilterDescription]: left out (or
    [null]), an array, or an object given by its entries in the order of
    [Object.entries]. *)
Inductive options :=
| NoOptions
| ArrayOptions (array : list unknown)
| ObjectOptions (object : list (string * unknown)).

(** Modelled from the spec: [isNullish] of [./utils], which is not among the
    sources; an absent value is [null] or [undefined]. *)
Definition isNullish (value : unknown) : bool :=
  match value with
  | Plain VUndefined | Plain VNull => true
  | _ => false
  end.

Definition backslash (c : ascii) : string := String "\" (String c "").

Definition escapeFilterValue (s : string) : string :=
  replace_cls (one_of ["\"; "'"; ":"]%char) backslash s.

Definition escapeFilterDescription (s : string) : string :=
  replace_cls (one_of ["\"; "'"; "["; "]"; ","; ";"]%char) backslash s.

Definition escapeConcatFile (s : string) : string :=
  replace_cls (one_of ["\"; "'"; " "]%char) backslash s.

Definition escapeTeeComponent (s : string) : string :=
  replace_cls (one_of ["\"; "'"; " "; "|"; "["; "]"]%char) backslash s.

(** The template literal throws a [TypeError] on a symbol. *)
Definition stringifyValue (value : unknown) : result string :=
  match value with
  | Date tv => DateTime.toISOString tv
  | Plain v => ToString v
  | Symbol _ => Throw TypeError
  | Other text => text
  end.

Definition stringifyArrayColonSeparated (array : list unknown)
  : result string :=
  let* parts :=
    mapM (fun value =>
            let* t := stringifyValue value in Ok (escapeFilterValue t))
         (filter (fun value => negb (isNullish value)) array) in
  Ok (Str.join ":" parts).

Definition stringifyObjectColonSeparated (object : list (string * unknown))
  : result string :=
  let* parts :=
    mapM (fun '(key, value) =>
            let* t := stringifyValue value in
            Ok (key ++ "=" ++ escapeFilterValue t)%string)
         (filter (fun '(_, value) => negb (isNullish value)) object) in
  Ok (Str.join ":" parts).

Definition stringifyFilterDescription (filter : string) (opts : options)
  : result string :=
  match opts with
  | NoOptions => Ok filter
  | ArrayOptions _ | ObjectOptions _ =>
      let* opts :=
        match opts with
        | ArrayOptions array => stringifyArrayColonSeparated array
        | ObjectOptions object => stringifyObjectColonSeparated object
        | NoOptions => Ok ""
        end in
      if String.eqb opts "" then Ok filter
      else Ok (filter ++ "=" ++ escapeFilterDescription opts)%string
  end.

Definition digit : regex := Cls Conv.is_digit.

(** [/(-?)([0-9]{2}:)?([0-9]{2}):([0-9]{2})(\.[0-9]+)?/] *)
Definition TIMESTAMP_REGEXP : regex :=
  Seq (Grp 1 (Opt (Chr "-")))
   (Seq (Opt (Grp 2 (Seq (Rep 2 digit) (Chr ":"))))
    (Seq (Grp 3 (Rep 2 digit))
     (Seq (Chr ":")
      (Seq (Grp 4 (Rep 2 digit))
       (Opt (Grp 5 (Seq (Chr ".") (PlusCls Conv.is_digit)))))))).

(** The match array holds [undefined] for a group that took no part in the
    match: [capture] gives [None] then. *)
Definition strict_eq_string (x : option string) (t : string) : bool :=
  match x with
  | Some u => String.eqb u t
  | None => false
  end.

Definition parseTimestamp (value : string) : option number :=
  match exec TIMESTAMP_REGEXP value with
  | None => None
  | Some c =>
      let minus := capture 1 c in
      let HH := capture 2 c in
      let MM := capture 3 c in
      let SS := capture 4 c in
      let m := capture 5 c in
      let sign := if strict_eq_string minus "-" then Num.of_Z (-1)
                  else Num.of_Z 1 in
      let hours :=
        if optional_truthy HH
        then Num.mul (optional_number (option_map Str.slice_0_m1 HH))
                     (Num.of_Z 3600000)
        else Num.of_Z 0 in
      let decimal :=
        if optional_truthy m
        then Num.mul (optional_number m) (Num.of_Z 1000)
        else Num.of_Z 0 in
      Some (Num.mul sign
              (Num.add
                 (Num.add
                    (Num.add hours
                       (Num.mul (optional_number MM) (Num.of_Z 60000)))
                    (Num.mul (optional_number SS) (Num.of_Z 1000)))
                 decimal))
  end.

End StringTs.

(** ** [src/types.ts] *)

Module TypesTs.

(** [Map<string, string>], by its entries in insertion order. *)
Definition Tags := list (string * string).

Fixpoint map_set (k v : string) (t : Tags) : Tags :=
  match t with
  | [] => [(k, v)]
  | (k', v') :: r =>
      if String.eqb k k' then (k, v) :: r else (k', v') :: map_set k v r
  end.

Definition new_Map (l : list (string * string)) : Tags :=
  fold_left (fun t e => map_set (fst e) (snd e) t) l [].

Definition toLowerCase (e : string * value) : result (string * string) :=
  let (key, value) := e in
  let* text := ToString value in
  Ok (Str.toLowerCase key, text).

Definition tags (o : value) : result Tags :=
  let* lowered :=
    mapM toLowerCase (entries (if truthy o then o else VObj [])) in
  Ok (new_Map lowered).

Definition codecTag (o : value) : result (option string) :=
  let* s := ToString o in
  Ok (if negb (truthy o) || String.eqb s "[0][0][0][0]" then None
      else Some s).

Definition f64 (fraction : value) : result number :=
  let* text := ToString fraction in
  let parts := Str.split "/" text in
  let x := nth_error parts 0 in
  let y := nth_error parts 1 in
  if negb (optional_truthy x) || negb (optional_truthy y)
  then Ok (Num.of_Z (-1))
  else
    let a := optional_number x in
    let b := optional_number y in
    if Num.is_nan a || Num.is_nan b then Ok (Num.of_Z (-1))
    else Ok (Num.div a b).

Definition int (x : value) : result number :=
  let* n := ToNumber x in
  Ok (Num.floor n).

(** [v >>> 0], [v | 0], [+v * 1000 | 0] and [v * 1000000 | 0] *)
Definition bor0 (x : number) : number := Num.bor x (Num.of_Z 0).

Definition ushr0 (v : value) : result number :=
  let* n := ToNumber v in
  Ok (Num.ushr n (Num.of_Z 0)).

Definition or0 (v : value) : result number :=
  let* n := ToNumber v in
  Ok (bor0 n).

Definition millis (v : value) : result number :=
  let* n := ToNumber v in
  Ok (bor0 (Num.mul n (Num.of_Z 1000))).

Definition micros (v : value) : result number :=
  let* n := ToNumber v in
  Ok (bor0 (Num.mul n (Num.of_Z 1000000))).

Record BaseStream := {
  index : number;
  codecName : string;
  codecTag_ : option string;
  start : number;
  duration : number;
  bitrate : number;
  tags_ : Tags
}.

Definition new_BaseStream (info : value) : result BaseStream :=
  let* v := get info "index" in
  let* index := ushr0 v in
  let* v := get info "codec_long_name" in
  let* codecName := ToString v in
  let* v := get info "codec_tag_string" in
  let* tag := codecTag v in
  let* v := get info "start_time" in
  let* start := millis v in
  let* v := get info "duration" in
  let* duration := millis v in
  let* v := get info "bit_rate" in
  let* bitrate := int v in
  let* v := get info "tags" in
  let* tgs := tags v in
  Ok {| index := index;
        codecName := codecName;
        codecTag_ := match tag with
                     | Some t => if String.eqb t "" then None else Some t
                     | None => None
                     end;
        start := start;
        duration := duration;
        bitrate := bitrate;
        tags_ := tgs |}.

(** [if (info.profile) this.profile = ('' + info.profile).toLowerCase()] *)
Definition profile_of (p : value) : result (option string) :=
  if truthy p
  then let* text := ToString p in Ok (Some (Str.toLowerCase text))
  else Ok None.

Record VideoStream := {
  video_base : BaseStream;
  video_codec : string;
  video_profile : option string;
  width : number;
  height : number;
  codedWidth : number;
  codedHeight : number;
  aspectRatio : string;
  pixelFormat : string;
  level : number;
  colorRange : string;
  colorSpace : string;
  colorTransfer : string;
  colorPrimaries : string;
  chromaLocation : string;
  fieldOrder : string;
  frameRate : number;
  avgFrameRate : number;
  bitsPerRawSample : number
}.

Definition new_VideoStream (info : value) : result VideoStream :=
  let* base := new_BaseStream info in
  let* v := get info "codec_name" in
  let* codec := ToString v in
  let* v := get info "profile" in
  let* profile := profile_of v in
  let* v := get info "width" in
  let* width := int v in
  let* v := get info "height" in
  let* height := int v in
  let* v := get info "coded_width" in
  let* codedWidth := int v in
  let* v := get info "coded_height" in
  let* codedHeight := int v in
  let* v := get info "display_aspect_ratio" in
  let* aspectRatio := ToString v in
  let* v := get info "pixel_format" in
  let* pixelFormat := ToString v in
  let* v := get info "level" in
  let* level := ushr0 v in
  let* v := get info "color_range" in
  let* colorRange := ToString v in
  let* v := get info "color_space" in
  let* colorSpace := ToString v in
  let* v := get info "color_transfer" in
  let* colorTransfer := ToString v in
  let* v := get info "color_primaries" in
  let* colorPrimaries := ToString v in
  let* v := get info "chroma_location" in
  let* chromaLocation := ToString v in
  let* v := get info "field_order" in
  let* fieldOrder := ToString v in
  let* v := get info "frame_rate" in
  let* frameRate := f64 v in
  let* v := get info "avg_frame_rate" in
  let* avgFrameRate := f64 v in
  let* v := get info "bits_per_raw_sample" in
  let* bitsPerRawSample := ushr0 v in
  Ok {| video_base := base;
        video_codec := codec;
        video_profile := profile;
        width := width;
        height := height;
        codedWidth := codedWidth;
        codedHeight := codedHeight;
        aspectRatio := aspectRatio;
        pixelFormat := pixelFormat;
        level := level;
        colorRange := colorRange;
        colorSpace := colorSpace;
        colorTransfer := colorTransfer;
        colorPrimaries := colorPrimaries;
        chromaLocation := chromaLocation;
        fieldOrder := fieldOrder;
        frameRate := frameRate;
        avgFrameRate := avgFrameRate;
        bitsPerRawSample := bitsPerRawSample |}.

Record AudioStream := {
  audio_base : BaseStream;
  audio_codec : string;
  audio_profile : option string;
  sampleFormat : string;
  sampleRate : number;
  channels : number;
  channelLayout : string;
  bitsPerSample : number
}.

Definition new_AudioStream (info : value) : result AudioStream :=
  let* base := new_BaseStream info in
  let* v := get info "codec_name" in
  let* codec := ToString v in
  let* v := get info "profile" in
  let* profile := profile_of v in
  let* v := get info "sample_fmt" in
  let* sampleFormat := ToString v in
  let* v := get info "sample_rate" in
  let* sampleRate := ushr0 v in
  let* v := get info "channels" in
  let* channels := ushr0 v in
  let* v := get info "channel_layout" in
  let* channelLayout := ToString v in
  let* v := get info "bits_per_sample" in
  let* bitsPerSample := ushr0 v in
  Ok {| audio_base := base;
        audio_codec := codec;
        audio_profile := profile;
        sampleFormat := sampleFormat;
        sampleRate := sampleRate;
        channels := channels;
        channelLayout := channelLayout;
        bitsPerSample := bitsPerSample |}.

Record SubtitleStream := {
  subtitle_base : BaseStream;
  subtitle_codec : string
}.

Definition new_SubtitleStream (info : value) : result SubtitleStream :=
  let* base := new_BaseStream info in
  let* v := get info "codec_name" in
  let* codec := ToString v in
  Ok {| subtitle_base := base; subtitle_codec := codec |}.

Record DataStream := {
  data_base : BaseStream;
  data_codec : string
}.

Definition new_DataStream (info : value) : result DataStream :=
  let* base := new_BaseStream info in
  let* v := get info "codec_name" in
  let* codec := ToString v in
  Ok {| data_base := base; data_codec := codec |}.

Inductive Stream :=
| Video (s : VideoStream)
| Audio (s : AudioStream)
| Subtitle (s : SubtitleStream)
| Data (s : DataStream).

Definition toStream (streamInfo : value) : result Stream :=
  let* v := get streamInfo "codec_type" in
  let* type := ToString v in
  if String.eqb type "video" then
    let* s := new_VideoStream streamInfo in Ok (Video s)
  else if String.eqb type "audio" then
    let* s := new_AudioStream streamInfo in Ok (Audio s)
  else if String.eqb type "subtitle" then
    let* s := new_SubtitleStream streamInfo in Ok (Subtitle s)
  else
    let* s := new_DataStream streamInfo in Ok (Data s).

Record Chapter := {
  chapter_id : number;
  chapter_start : number;
  chapter_end : number;
  chapter_tags : Tags
}.

Definition new_Chapter (info : value) : result Chapter :=
  let* v := get info "id" in
  let* id := ushr0 v in
  let* v := get info "start" in
  let* start := micros v in
  let* v := get info "end" in
  let* end_ := micros v in
  let* v := get info "tags" in
  let* tgs := tags v in
  Ok {| chapter_id := id;
        chapter_start := start;
        chapter_end := end_;
        chapter_tags := tgs |}.

(** The arrays [streams] and [chapters] are what [Array.prototype.map.call]
    returns, an element [None] being a hole. *)
Record ProbeResult := {
  format : string;
  streams : list (option Stream);
  chapters : list (option Chapter);
  probe_bitrate : number;
  probe_duration : number;
  probe_start : number;
  score : number;
  probe_tags : Tags;
  (** the entry of [privateMap] for this result *)
  private : value
}.

Definition new_ProbeResult (info : value) : result ProbeResult :=
  let* formatInfo := get info "format" in
  let* v := get formatInfo "format_name" in
  let* format := ToString v in
  let* v := get formatInfo "start_time" in
  let* start := millis v in
  let* v := get formatInfo "duration" in
  let* duration := millis v in
  let* v := get formatInfo "bit_rate" in
  let* bitrate := int v in
  let* v := get formatInfo "probe_score" in
  let* score := or0 v in
  let* v := get formatInfo "tags" in
  let* tgs := tags v in
  let* v := get info "streams" in
  let* streams := map_call toStream v in
  let* v := get info "chapters" in
  let* chapters := map_call new_Chapter v in
  Ok {| format := format;
        streams := streams;
        chapters := chapters;
        probe_bitrate := bitrate;
        probe_duration := duration;
        probe_start := start;
        score := score;
        probe_tags := tgs;
        private := info |}.

Definition unwrap (p : ProbeResult) : value := private p.

End TypesTs.


(** ** What the patterns and the claims speak of *)

Module Spec.

Import Regexp.

(** The language of a pattern, without regard to the order in which the
    matcher tries the alternatives. *)
Inductive matches : regex -> string -> Prop :=
| M_Chr c : matches (Chr c) (String c "")
| M_Cls p c : p c = true -> matches (Cls p) (String c "")
| M_Seq r1 r2 s1 s2 :
    matches r1 s1 -> matches r2 s2 -> matches (Seq r1 r2) (s1 ++ s2)
| M_Opt_skip r : matches (Opt r) ""
| M_Opt_take r s : matches r s -> matches (Opt r) s
| M_Rep_O r : matches (Rep 0 r) ""
| M_Rep_S n r s1 s2 :
    matches r s1 -> matches (Rep n r) s2 -> matches (Rep (S n) r) (s1 ++ s2)
| M_Plus_one p c : p c = true -> matches (PlusCls p) (String c "")
| M_Plus_more p c s :
    p c = true -> matches (PlusCls p) s -> matches (PlusCls p) (String c s)
| M_Grp i r s : matches r s -> matches (Grp i r) s.

(** A continuation whose failure does not depend on the captures. *)
Definition blind {R} (k : @cont R) : Prop :=
  forall s c c', k s c = None -> k s c' = None.

(** The grammar [[-][HH:]MM:SS[.fraction]] of a timestamp. *)
Definition two_digits (t : string) : Prop :=
  exists a b, Conv.is_digit a = true /\ Conv.is_digit b = true /\
              t = String a (String b "").

Fixpoint all_digits (t : string) : bool :=
  match t with
  | String c r => Conv.is_digit c && all_digits r
  | EmptyString => true
  end.

Definition sign_part (t : string) : Prop := t = "" \/ t = "-".

Definition hours_part (t : string) : Prop :=
  t = "" \/ exists h, two_digits h /\ t = (h ++ ":")%string.

Definition fraction_part (t : string) : Prop :=
  t = "" \/ exists ds, ds <> "" /\ all_digits ds = true /\
                       t = String "." ds.

Definition timestamp_shaped (t : string) : Prop :=
  exists sg hh mm ss fr,
    sign_part sg /\ hours_part hh /\ two_digits mm /\ two_digits ss /\
    fraction_part fr /\
    t = (sg ++ hh ++ mm ++ ":" ++ ss ++ fr)%string.

(** The parts of a timestamp that starts a text: the sign, two digits, and
    a fraction that the rest of the text does not continue. *)
Definition sign_text (neg : bool) : string := if neg then "-" else "".

Definition digits2 (a b : ascii) : string := String a (String b "").

Definition starts_digit (s : string) : bool :=
  match s with
  | String d _ => Conv.is_digit d
  | EmptyString => false
  end.

Definition starts_with (x : ascii) (s : string) : bool :=
  match s with
  | String y _ => Ascii.eqb y x
  | EmptyString => false
  end.

Definition ends_fraction (fr rest : string) : bool :=
  match fr with
  | EmptyString =>
      match rest with
      | String "." r => negb (starts_digit r)
      | _ => true
      end
  | _ => negb (starts_digit rest)
  end.

(** The number of milliseconds of a timestamp with the sign [neg], the
    digits [hh] of the hours when it has hours, the digits [mm] and [ss] of
    the minutes and seconds, and the fraction [fr] with its point, empty
    when it has none. *)
Definition timestamp_value (neg : bool) (hh : option string)
    (mm ss fr : string) : number :=
  Num.mul (Num.of_Z (if neg then -1 else 1))
    (Num.add
       (Num.add
          (Num.add
             match hh with
             | Some h => Num.mul (Conv.StringToNumber h) (Num.of_Z 3600000)
             | None => Num.of_Z 0
             end
             (Num.mul (Conv.StringToNumber mm) (Num.of_Z 60000)))
          (Num.mul (Conv.StringToNumber ss) (Num.of_Z 1000)))
       match fr with
       | EmptyString => Num.of_Z 0
       | _ => Num.mul (Conv.StringToNumber fr) (Num.of_Z 1000)
       end).

Definition digit_of (c : ascii) : Z := Z.of_nat (nat_of_ascii c) - 48.

(** The pieces of the timestamp pattern after the sign, and the captures
    with the fraction group added when there is a fraction. *)
Definition FRACTION : regex :=
  Opt (Grp 5 (Seq (Chr ".") (PlusCls Conv.is_digit))).

Definition MM_SS : regex :=
  Seq (Grp 3 (Rep 2 StringTs.digit))
    (Seq (Chr ":") (Seq (Grp 4 (Rep 2 StringTs.digit)) FRACTION)).

Definition HOURS : regex :=
  Opt (Grp 2 (Seq (Rep 2 StringTs.digit) (Chr ":"))).

Definition with_fraction (fr : string) (c : captures) : captures :=
  match fr with
  | EmptyString => c
  | _ => (5%nat, fr) :: c
  end.

(** A text holds a timestamp when some run of its characters is one. *)
Definition has_timestamp (s : string) : Prop :=
  exists pre t post, s = (pre ++ t ++ post)%string /\ timestamp_shaped t.

Fixpoint has_char (c : ascii) (s : string) : bool :=
  match s with
  | String x r => Ascii.eqb x c || has_char c r
  | EmptyString => false
  end.

(** What a property read yields on a value that is neither [undefined] nor
    [null]. *)
Definition nullish (v : value) : bool :=
  match v with
  | VUndefined | VNull => true
  | _ => false
  end.

Definition prop (o : value) (k : string) : value :=
  match o with
  | VObj props =>
      match lookup k props with
      | Some v => v
      | None => VUndefined
      end
  | _ => VUndefined
  end.

(** The four stream variants, and the one a media-type text selects. *)
Inductive kind := KVideo | KAudio | KSubtitle | KData.

Definition kind_of (s : TypesTs.Stream) : kind :=
  match s with
  | TypesTs.Video _ => KVideo
  | TypesTs.Audio _ => KAudio
  | TypesTs.Subtitle _ => KSubtitle
  | TypesTs.Data _ => KData
  end.

Definition kind_of_text (t : string) : kind :=
  if String.eqb t "video" then KVideo
  else if String.eqb t "audio" then KAudio
  else if String.eqb t "subtitle" then KSubtitle
  else KData.

Definition base_of (s : TypesTs.Stream) : TypesTs.BaseStream :=
  match s with
  | TypesTs.Video v => TypesTs.video_base v
  | TypesTs.Audio a => TypesTs.audio_base a
  | TypesTs.Subtitle t => TypesTs.subtitle_base t
  | TypesTs.Data d => TypesTs.data_base d
  end.

(** Numbers that are integers of the unsigned and of the signed 32-bit
    range. *)
Definition is_uint32 (x : number) : Prop :=
  exists z, 0 <= z < 2 ^ 32 /\ x = Num.of_Z z.

Definition is_int32 (x : number) : Prop :=
  exists z, - 2 ^ 31 <= z < 2 ^ 31 /\ x = Num.of_Z z.

(** [y] is the number [x] cut to an integer and reduced modulo 2^32 into
    the unsigned, respectively the signed, 32-bit range; a number that is
    not finite gives 0. *)
Definition reduced_uint32 (x y : number) : Prop :=
  exists z, y = Num.of_Z z /\ 0 <= z < 2 ^ 32 /\ Num.truncate y = z /\
            (Num.is_finite x = true -> (z - Num.truncate x) mod 2 ^ 32 = 0) /\
            (Num.is_finite x = false -> z = 0).

Definition reduced_int32 (x y : number) : Prop :=
  exists z, y = Num.of_Z z /\ - 2 ^ 31 <= z < 2 ^ 31 /\ Num.truncate y = z /\
            (Num.is_finite x = true -> (z - Num.truncate x) mod 2 ^ 32 = 0) /\
            (Num.is_finite x = false -> z = 0).

(** The sign of a number. *)
Definition negative (x : number) : bool :=
  match x with
  | S754_zero s | S754_infinity s | S754_finite s _ _ => s
  | S754_nan => false
  end.

(** A value the conversion to a primitive accepts: no object with a
    [toString] property of its own, and no array that holds one among its
    elements, at any depth of arrays. A clean value has no such object
    anywhere, among its properties either. *)
Fixpoint convertible (v : value) : bool :=
  match v with
  | VObj props => negb (has_own "toString" props)
  | VArr items => forallb convertible items
  | _ => true
  end.

Fixpoint clean (v : value) : bool :=
  match v with
  | VObj props =>
      negb (has_own "toString" props)
      && forallb (fun '(_, x) => clean x) props
  | VArr items => forallb clean items
  | _ => true
  end.

(** An object with a [toString] property of its own. *)
Definition shadowed : value := VObj [("toString", VNum (Num.of_Z 1))].

(** The source [v] coerces to a number, of which [P] holds. *)
Definition coerced (v : value) (P : number -> Prop) : Prop :=
  exists n, ToNumber v = Ok n /\ P n.

(** The value of a fraction text whose first two pieces, between the
    slashes, are [x] and [y]: -1 when one of them is empty or is not a
    number, and their quotient otherwise. *)
Definition fraction_value (x y : string) : number :=
  let a := Conv.StringToNumber x in
  let b := Conv.StringToNumber y in
  if String.eqb x "" || String.eqb y "" || Num.is_nan a || Num.is_nan b
  then Num.of_Z (-1)
  else Num.div a b.

(** The numbers of a stream and of a chapter, each from the property of the
    record [x] it is read from: reduced to 32 bits, or rounded down, or a
    fraction. *)
Definition stream_numbers (x : value) (s : TypesTs.Stream) : Prop :=
  let b := base_of s in
  coerced (prop x "index") (fun n => reduced_uint32 n (TypesTs.index b)) /\
  coerced (prop x "start_time")
    (fun n => reduced_int32 (Num.mul n (Num.of_Z 1000)) (TypesTs.start b)) /\
  coerced (prop x "duration")
    (fun n =>
       reduced_int32 (Num.mul n (Num.of_Z 1000)) (TypesTs.duration b)) /\
  coerced (prop x "bit_rate") (fun n => TypesTs.bitrate b = Num.floor n) /\
  match s with
  | TypesTs.Video v =>
      coerced (prop x "width") (fun n => TypesTs.width v = Num.floor n) /\
      coerced (prop x "height") (fun n => TypesTs.height v = Num.floor n) /\
      coerced (prop x "coded_width")
        (fun n => TypesTs.codedWidth v = Num.floor n) /\
      coerced (prop x "coded_height")
        (fun n => TypesTs.codedHeight v = Num.floor n) /\
      coerced (prop x "level")
        (fun n => reduced_uint32 n (TypesTs.level v)) /\
      coerced (prop x "bits_per_raw_sample")
        (fun n => reduced_uint32 n (TypesTs.bitsPerRawSample v)) /\
      TypesTs.f64 (prop x "frame_rate") = Ok (TypesTs.frameRate v) /\
      TypesTs.f64 (prop x "avg_frame_rate") = Ok (TypesTs.avgFrameRate v)
  | TypesTs.Audio a =>
      coerced (prop x "sample_rate")
        (fun n => reduced_uint32 n (TypesTs.sampleRate a)) /\
      coerced (prop x "channels")
        (fun n => reduced_uint32 n (TypesTs.channels a)) /\
      coerced (prop x "bits_per_sample")
        (fun n => reduced_uint32 n (TypesTs.bitsPerSample a))
  | _ => True
  end.

Definition chapter_numbers (x : value) (c : TypesTs.Chapter) : Prop :=
  coerced (prop x "id") (fun n => reduced_uint32 n (TypesTs.chapter_id c)) /\
  coerced (prop x "start")
    (fun n => reduced_int32 (Num.mul n (Num.of_Z 1000000))
                (TypesTs.chapter_start c)) /\
  coerced (prop x "end")
    (fun n => reduced_int32 (Num.mul n (Num.of_Z 1000000))
                (TypesTs.chapter_end c)).

(** A result that, when it is a throw, is a [TypeError]. *)
Definition TypeError_only {A} (r : result A) : Prop :=
  forall e, r = Throw e -> e = TypeError.

(** A property of the elements of an array, holes apart. *)
Definition every {A} (P : A -> Prop) (l : list (option A)) : Prop :=
  Forall (fun o => match o with Some a => P a | None => True end) l.

(** The record of a stream with nothing but its media type, a report of one
    video stream with a frame rate over zero and no bit rate, and that
    report without its chapters. *)
Definition bare_video : value := VObj [("codec_type", VStr "video")].

Definition report_over_zero : value :=
  VObj [("format", VObj [("format_name", VStr "matroska,webm")]);
        ("streams",
         VArr [VObj [("index", VNum (Num.of_Z 0));
                     ("codec_type", VStr "video");
                     ("frame_rate", VStr "1/0")]]);
        ("chapters", VArr [])].

Definition report_without_chapters : value :=
  VObj [("format", VObj [("format_name", VStr "matroska,webm")]);
        ("streams", VArr [])].

(** The entries of an object, and the elements of an array, that the
    serializer keeps, and an object with a comma in a key. *)
Definition present (object : list (string * StringTs.unknown))
  : list (string * StringTs.unknown) :=
  filter (fun '(_, value) => negb (StringTs.isNullish value)) object.

Definition key_value (e : string * string) : string :=
  (fst e ++ "=" ++ snd e)%string.

Definition comma_key : StringTs.options :=
  StringTs.ObjectOptions [("a,b", StringTs.Plain (VNum (Num.of_Z 1)))].

(** The text of an escaped string, character by character: a character of
    the set is preceded by one backslash, any other stands as it is. *)
Inductive escaped (set : ascii -> Prop) : string -> string -> Prop :=
| escaped_nil : escaped set "" ""
| escaped_in c s t :
    set c -> escaped set s t ->
    escaped set (String c s) (String "\" (String c t))
| escaped_out c s t :
    ~ set c -> escaped set s t -> escaped set (String c s) (String c t).

(** Reading an escaped text back: a backslash is dropped and the character
    after it kept. *)
Fixpoint unescape (t : string) : string :=
  match t with
  | String "\" (String c r) => String c (unescape r)
  | String c r => String c (unescape r)
  | EmptyString => ""
  end.

End Spec.

(** ** Reading the serializer's output back, and other notions of the
    further properties *)

Module Readback.

Import Regexp.

(** Put a text in front of the first piece. *)
Definition cons_first (p : string) (l : list string) : list string :=
  match l with
  | x :: r => (p ++ x)%string :: r
  | [] => [p]
  end.

(** The pieces of a text between the separators that no backslash
    escapes; the pieces keep their backslashes. *)
Fixpoint split_unescaped (sep : ascii) (t : string) : list string :=
  match t with
  | String "\" (String c r) =>
      cons_first (String "\" (String c "")) (split_unescaped sep r)
  | String c r =>
      if Ascii.eqb c sep then "" :: split_unescaped sep r
      else cons_first (String c "") (split_unescaped sep r)
  | EmptyString => [""]
  end.

(** A text after which the scan for separators starts afresh. *)
Definition neutral (p : string) : Prop :=
  forall rest,
    split_unescaped ":" (p ++ rest) = cons_first p (split_unescaped ":" rest).

(** The values of a colon-separated list. *)
Definition read_list (t : string) : list string :=
  map Spec.unescape (split_unescaped ":" t).

(** A [key=value] piece: the key up to the first ["="], the value after
    it read back. *)
Fixpoint split_first (sep : ascii) (t : string) : string * string :=
  match t with
  | String c r =>
      if Ascii.eqb c sep then ("", r)
      else let (a, b) := split_first sep r in (String c a, b)
  | EmptyString => ("", "")
  end.

Definition read_pair (piece : string) : string * string :=
  let (k, v) := split_first "=" piece in (k, Spec.unescape v).

Definition read_pairs (t : string) : list (string * string) :=
  map read_pair (split_unescaped ":" t).

(** A key that reads back: none of its characters is a colon, an equals
    sign or a backslash. *)
Fixpoint plain_key (k : string) : bool :=
  match k with
  | String c r => negb (Str.mem c [":"; "="; "\"]%char) && plain_key r
  | EmptyString => true
  end.

(** The number of characters of a text that are in a set. *)
Fixpoint count_in (l : list ascii) (t : string) : nat :=
  match t with
  | String c r => ((if Str.mem c l then 1 else 0) + count_in l r)%nat
  | EmptyString => 0%nat
  end.

(** A text none of whose characters can start a timestamp. *)
Fixpoint no_start (t : string) : bool :=
  match t with
  | String c r =>
      negb (Ascii.eqb c "-") && negb (Conv.is_digit c) && no_start r
  | EmptyString => true
  end.

(** What the conversion of a value to a string throws, if anything: an
    invalid [Date] a [RangeError], a symbol and a value the conversion to a
    primitive does not accept a [TypeError], any other value what its own
    conversion throws. *)
Definition thrown (value : StringTs.unknown) : option exn :=
  match value with
  | StringTs.Date None => Some RangeError
  | StringTs.Date (Some _) => None
  | StringTs.Symbol _ => Some TypeError
  | StringTs.Plain v => if Spec.convertible v then None else Some TypeError
  | StringTs.Other (Throw e) => Some e
  | StringTs.Other (Ok _) => None
  end.

Fixpoint first_thrown (l : list StringTs.unknown) : option exn :=
  match l with
  | x :: r =>
      match thrown x with
      | Some e => Some e
      | None => first_thrown r
      end
  | [] => None
  end.

(** The values of the options, in order. *)
Definition values (opts : StringTs.options) : list StringTs.unknown :=
  match opts with
  | StringTs.NoOptions => []
  | StringTs.ArrayOptions array => array
  | StringTs.ObjectOptions object => map snd object
  end.

(** The keys of a map. *)
Definition keys (t : TypesTs.Tags) : list string := map fst t.

(** A report of an audio stream, a video stream and an entry that is not an
    object, with one chapter. *)
Definition report_of_three : value :=
  VObj [("format", VObj []);
        ("streams",
         VArr [VObj [("index", VNum (Num.of_Z 0));
                     ("codec_type", VStr "audio")];
               VObj [("index", VNum (Num.of_Z 1));
                     ("codec_type", VStr "video")];
               VStr "n/a"]);
        ("chapters", VArr [VObj [("id", VNum (Num.of_Z 7))]])].

End Readback.

(** * Facts about the model *)

(** ** Integers as numbers *)

Module NumFacts.

Import Num.

Lemma iter_xO_value (p k : positive) :
  Zpos (Pos.iter xO p k) = Zpos p * 2 ^ Zpos k.
Proof.
  induction k as [|k IH] using Pos.peano_ind.
  - simpl. lia.
  - rewrite Pos.iter_succ, Pos2Z.inj_xO, IH, Pos2Z.inj_succ, Z.pow_succ_r; lia.
Qed.

Lemma iter_xO_digits (p k : positive) :
  digits2_pos (Pos.iter xO p k) = (digits2_pos p + k)%positive.
Proof.
  induction k as [|k IH] using Pos.peano_ind.
  - simpl. lia.
  - rewrite Pos.iter_succ. simpl. rewrite IH. lia.
Qed.

Lemma digits2_size (p : positive) : digits2_pos p = Pos.size p.
Proof. induction p; simpl; congruence. Qed.

Lemma digits2_bound (p : positive) (k : Z) :
  Zpos p < 2 ^ k -> 0 <= k -> Zpos (digits2_pos p) <= k.
Proof.
  intros H Hk. rewrite digits2_size.
  destruct (Z.le_gt_cases (Zpos (Pos.size p)) k) as [|Hgt]; [assumption|].
  exfalso.
  pose proof (Pos.size_le p) as Hle.
  assert (Hp : 2 ^ Zpos (Pos.size p) <= 2 * Zpos p).
  { rewrite <- Pos2Z.inj_pow. change (2 * Zpos p) with (Zpos p~0). lia. }
  assert (Hpow : 2 ^ (k + 1) <= 2 ^ Zpos (Pos.size p)).
  { apply Z.pow_le_mono_r; lia. }
  rewrite Z.pow_add_r in Hpow by lia. lia.
Qed.

Lemma round_aux_canonical (s : bool) (m : positive) (e : Z) :
  fexp prec emax (Zpos (digits2_pos m) + e) = e ->
  e <= emax - prec ->
  binary_round_aux prec emax s (Zpos m) e loc_Exact = S754_finite s m e.
Proof.
  intros Hc He.
  unfold binary_round_aux, shr_fexp. cbn [Zdigits2 shr_record_of_loc].
  rewrite Hc, Z.sub_diag. cbn [shr shr_m loc_of_shr_record round_nearest_even].
  cbn [Zdigits2 shr_record_of_loc]. rewrite Hc, Z.sub_diag.
  cbn [shr shr_m].
  destruct (Z.leb_spec e (emax - prec)); [reflexivity | lia].
Qed.

Lemma shl_align_value (p : positive) (ex ex' : Z) :
  ex' <= ex ->
  snd (shl_align p ex ex') = ex' /\
  Zpos (fst (shl_align p ex ex')) = Zpos p * 2 ^ (ex - ex') /\
  Zpos (digits2_pos (fst (shl_align p ex ex')))
  = Zpos (digits2_pos p) + (ex - ex').
Proof.
  intros H. unfold shl_align.
  destruct (ex' - ex) eqn:E.
  - assert (ex' = ex) by lia. subst. rewrite Z.sub_diag. simpl. lia.
  - lia.
  - assert (Hk : ex - ex' = Zpos p0) by lia. rewrite Hk. cbn [fst snd].
    rewrite iter_xO_value, iter_xO_digits. lia.
Qed.

(** A non-zero integer of at most 53 bits is its own Number value: the
    mantissa is the integer shifted left to 53 bits. *)
Lemma of_Z_pos (s : bool) (p : positive) :
  Zpos p < 2 ^ 53 ->
  exists m e,
    binary_round prec emax s p 0 = S754_finite s m e /\
    -52 <= e <= 0 /\ Zpos m = Zpos p * 2 ^ (- e).
Proof.
  intros Hp.
  pose proof (digits2_bound p 53 Hp ltac:(lia)) as Hd.
  assert (Hd1 : 1 <= Zpos (digits2_pos p)) by lia.
  unfold binary_round.
  set (e' := fexp prec emax (Zpos (digits2_pos p) + 0)).
  assert (He' : e' = Zpos (digits2_pos p) - 53).
  { unfold e', fexp, emin, prec, emax. lia. }
  destruct (shl_align_value p 0 e' ltac:(lia)) as (H1 & H2 & H3).
  destruct (shl_align p 0 e') as [mz ez]. cbn [fst snd] in *. subst ez.
  exists mz, e'. split; [|split; [lia|]].
  - apply round_aux_canonical.
    + rewrite H3. unfold fexp, emin, prec, emax. lia.
    + unfold prec, emax. lia.
  - rewrite H2. replace (0 - e') with (- e') by lia. reflexivity.
Qed.

Lemma truncate_of_Z (z : Z) : Z.abs z < 2 ^ 53 -> truncate (of_Z z) = z.
Proof.
  intros Hz. unfold of_Z, binary_normalize.
  destruct z as [|p|p]; [reflexivity| |].
  - destruct (of_Z_pos false p ltac:(lia)) as (m & e & -> & He & Hm).
    unfold truncate, magnitude, cond_Zopp.
    destruct (Z.leb_spec 0 e).
    + assert (e = 0) by lia. subst. simpl in *. lia.
    + rewrite Hm. apply Z.div_mul. apply Z.pow_nonzero; lia.
  - destruct (of_Z_pos true p ltac:(lia)) as (m & e & -> & He & Hm).
    unfold truncate, magnitude, cond_Zopp.
    destruct (Z.leb_spec 0 e).
    + assert (e = 0) by lia. subst. simpl in *. lia.
    + rewrite Hm, Z.div_mul by (apply Z.pow_nonzero; lia). reflexivity.
Qed.

Lemma finite_of_Z (z : Z) : Z.abs z < 2 ^ 53 -> is_finite (of_Z z) = true.
Proof.
  intros Hz. unfold of_Z, binary_normalize.
  destruct z as [|p|p]; [reflexivity| |].
  - destruct (of_Z_pos false p ltac:(lia)) as (m & e & -> & _). reflexivity.
  - destruct (of_Z_pos true p ltac:(lia)) as (m & e & -> & _). reflexivity.
Qed.

Lemma ToUint32_range (x : number) : 0 <= ToUint32 x < 2 ^ 32.
Proof.
  unfold ToUint32. destruct x; try lia. apply Z.mod_pos_bound. lia.
Qed.

Lemma wrap_int32_range (u : Z) : - 2 ^ 31 <= wrap_int32 u < 2 ^ 31.
Proof.
  unfold wrap_int32.
  pose proof (Z.mod_pos_bound u (2 ^ 32) ltac:(lia)).
  destruct (Z.leb_spec (2 ^ 31) (u mod 2 ^ 32)); lia.
Qed.

Lemma wrap_int32_congr (u : Z) : (wrap_int32 u - u) mod 2 ^ 32 = 0.
Proof.
  unfold wrap_int32.
  destruct (Z.leb_spec (2 ^ 31) (u mod 2 ^ 32)).
  - replace (u mod 2 ^ 32 - 2 ^ 32 - u)
      with (u mod 2 ^ 32 - u + (-1) * 2 ^ 32) by lia.
    rewrite Z.mod_add by lia.
    rewrite Zminus_mod, Z.mod_mod, Z.sub_diag by lia. reflexivity.
  - rewrite Zminus_mod, Z.mod_mod, Z.sub_diag by lia. reflexivity.
Qed.

Lemma wrap_int32_small (u : Z) : - 2 ^ 31 <= u < 2 ^ 31 -> wrap_int32 u = u.
Proof.
  intros H. unfold wrap_int32.
  destruct (Z.leb_spec 0 u).
  - rewrite Z.mod_small by lia. destruct (Z.leb_spec (2 ^ 31) u); lia.
  - replace u with (u + 2 ^ 32 + (-1) * 2 ^ 32) by lia.
    rewrite Z.mod_add, Z.mod_small by lia.
    destruct (Z.leb_spec (2 ^ 31) (u + 2 ^ 32)); lia.
Qed.

Lemma ToInt32_range (x : number) : - 2 ^ 31 <= ToInt32 x < 2 ^ 31.
Proof. apply wrap_int32_range. Qed.

(** [x >>> 0] and [x | 0] are [ToUint32] and [ToInt32]. *)
Lemma ushr_0 (x : number) : ushr x (of_Z 0) = of_Z (ToUint32 x).
Proof. unfold ushr. now rewrite Z.shiftr_0_r. Qed.

Lemma bor_0 (x : number) : bor x (of_Z 0) = of_Z (ToInt32 x).
Proof.
  unfold bor. change (ToInt32 (of_Z 0)) with 0. rewrite Z.lor_0_r.
  rewrite wrap_int32_small by apply ToInt32_range. reflexivity.
Qed.

End NumFacts.

(** ** The matcher *)

Module RegexpFacts.

Import Regexp Spec.

Lemma append_assoc (a b c : string) :
  ((a ++ b) ++ c)%string = (a ++ b ++ c)%string.
Proof. induction a; simpl; congruence. Qed.

Section None.

Context {R : Type}.

Local Abbreviation fails r k s :=
  (forall s1 s2 c', s = (s1 ++ s2)%string -> matches r s1 ->
                    k s2 c' = (@None R)).

Lemma rep_S n r (k : @cont R) s c :
  m (Rep (S n) r) k s c = m r (m (Rep n r) k) s c.
Proof. reflexivity. Qed.

Lemma plus_cls_none p (k : @cont R) :
  blind k ->
  forall s c, plus_cls p k s c = None <-> fails (PlusCls p) k s.
Proof.
  intros Hk. induction s as [|x s IH]; intros c; simpl.
  - split; [|reflexivity]. intros _ s1 s2 c' E Hm.
    inversion Hm; subst; discriminate.
  - destruct (p x) eqn:Hx.
    + split.
      * intros H s1 s2 c' E Hm.
        destruct (plus_cls p k s c) eqn:Hp; [discriminate|].
        inversion Hm; subst; simpl in E; injection E as -> ->.
        -- eapply Hk; eassumption.
        -- eapply IH; [exact Hp|reflexivity|assumption].
      * intros H.
        assert (Hp : plus_cls p k s c = None).
        { apply IH. intros s1 s2 c' -> Hm.
          apply (H (String x s1) s2 c'); [reflexivity|].
          now apply M_Plus_more. }
        rewrite Hp. apply (H (String x "") s c); [reflexivity|].
        now apply M_Plus_one.
    + split; [|reflexivity]. intros _ s1 s2 c' E Hm.
      inversion Hm; subst; simpl in E; injection E as -> _; congruence.
Qed.

Lemma m_none r :
  forall (k : @cont R), blind k ->
  forall s c, m r k s c = None <-> fails r k s.
Proof.
  induction r as [x|p|r1 IH1 r2 IH2|r IH|n r IH|p|i r IH]; intros k Hk s c.
  - (* Chr *)
    simpl. destruct s as [|y s].
    + split; [|reflexivity]. intros _ s1 s2 c' E Hm.
      inversion Hm; subst; discriminate.
    + destruct (Ascii.eqb_spec y x) as [->|Hne].
      * split.
        -- intros H s1 s2 c' E Hm. inversion Hm; subst.
           simpl in E. injection E as ->. eapply Hk; eassumption.
        -- intros H. apply (H (String x "") s c); [reflexivity|constructor].
      * split; [|reflexivity]. intros _ s1 s2 c' E Hm.
        inversion Hm; subst. simpl in E. congruence.
  - (* Cls *)
    simpl. destruct s as [|y s].
    + split; [|reflexivity]. intros _ s1 s2 c' E Hm.
      inversion Hm; subst; discriminate.
    + destruct (p y) eqn:Hy.
      * split.
        -- intros H s1 s2 c' E Hm. inversion Hm; subst.
           simpl in E. injection E as -> ->. eapply Hk; eassumption.
        -- intros H. apply (H (String y "") s c); [reflexivity|].
           now constructor.
      * split; [|reflexivity]. intros _ s1 s2 c' E Hm.
        inversion Hm; subst. simpl in E. injection E as -> _. congruence.
  - (* Seq *)
    simpl.
    assert (Hk2 : blind (m r2 k)).
    { intros t d d' H. apply (IH2 k Hk). now apply (IH2 k Hk t d). }
    rewrite (IH1 _ Hk2). split.
    + intros H s1 s2 c' E Hm.
      inversion Hm as [| |? ? a b Ha Hb| | | | | | |]; subst.
      rewrite append_assoc in H.
      specialize (H a (b ++ s2)%string c' eq_refl Ha).
      apply (IH2 k Hk) with (s1 := b) (s2 := s2) (c' := c') in H; auto.
    + intros H s1 s2 c' -> Hm. apply (IH2 k Hk).
      intros t1 t2 d -> Hm2. apply (H (s1 ++ t1)%string t2 d).
      * now rewrite append_assoc.
      * now constructor.
  - (* Opt *)
    simpl. destruct (m r k s c) eqn:Hm1.
    + split; [discriminate|]. intros H. exfalso.
      assert (Hn : m r k s c = None).
      { apply (IH k Hk). intros s1 s2 c' E Hm. eapply H; [exact E|].
        now apply M_Opt_take. }
      congruence.
    + split.
      * intros H s1 s2 c' E Hm. inversion Hm; subst.
        -- simpl. eapply Hk; eassumption.
        -- eapply (IH k Hk); [exact Hm1|reflexivity|assumption].
      * intros H. apply (H "" s c); [reflexivity|constructor].
  - (* Rep *)
    revert k Hk s c. induction n as [|n IHn]; intros k Hk s c.
    + simpl. split.
      * intros H s1 s2 c' E Hm. inversion Hm; subst. simpl.
        eapply Hk; eassumption.
      * intros H. apply (H "" s c); [reflexivity|constructor].
    + rewrite rep_S.
      assert (Hk2 : blind (m (Rep n r) k)).
      { intros t d d' H. apply (IHn k Hk). now apply (IHn k Hk t d). }
      rewrite (IH _ Hk2). split.
      * intros H s1 s2 c' E Hm.
        inversion Hm as [| | | | | |? ? a b Ha Hb| | |]; subst.
        rewrite append_assoc in H.
        specialize (H a (b ++ s2)%string c' eq_refl Ha).
        apply (IHn k Hk) with (s1 := b) (s2 := s2) (c' := c') in H; auto.
      * intros H s1 s2 c' -> Hm. apply (IHn k Hk).
        intros t1 t2 d -> Hm2. apply (H (s1 ++ t1)%string t2 d).
        -- now rewrite append_assoc.
        -- now constructor.
  - (* PlusCls *)
    simpl. now apply plus_cls_none.
  - (* Grp *)
    simpl.
    assert (Hk2 : blind (fun s' c' => k s' ((i, consumed s s') :: c'))).
    { intros t d d' H. eapply Hk; eassumption. }
    rewrite (IH _ Hk2). split.
    + intros H s1 s2 c' E Hm. inversion Hm; subst.
      eapply Hk. eapply (H s1 s2 c'); [reflexivity|assumption].
    + intros H s1 s2 c' E Hm. eapply H; [exact E|]. now constructor.
Qed.

End None.

(** [exec] finds nothing exactly when no run of characters of the text is
    in the language of the pattern. *)
Lemma exec_none r s :
  exec r s = None <->
  (forall pre t post, s = (pre ++ t ++ post)%string -> ~ matches r t).
Proof.
  assert (Hk : blind found).
  { intros t d d' H. discriminate. }
  induction s as [|x s IH]; simpl.
  - destruct (m r found "" []) eqn:Hm.
    + split; [discriminate|]. intros H. exfalso.
      assert (Hn : m r found "" [] = None).
      { apply (m_none r _ Hk). intros s1 s2 c' E Hs. exfalso.
        apply (H "" s1 s2); assumption. }
      congruence.
    + split; [|reflexivity]. intros _ pre t post E Hs.
      destruct pre; [|discriminate]. simpl in E.
      pose proof (proj1 (m_none r _ Hk "" []) Hm t post [] E Hs).
      discriminate.
  - destruct (m r found (String x s) []) eqn:Hm.
    + split; [discriminate|]. intros H. exfalso.
      assert (Hn : m r found (String x s) [] = None).
      { apply (m_none r _ Hk). intros s1 s2 c' E Hs. exfalso.
        apply (H "" s1 s2); assumption. }
      congruence.
    + rewrite IH. split.
      * intros H pre t post E Hs. destruct pre as [|y pre].
        -- simpl in E.
           pose proof (proj1 (m_none r _ Hk _ []) Hm t post [] E Hs).
           discriminate.
        -- simpl in E. injection E as -> E. eapply H; eassumption.
      * intros H pre t post -> Hs.
        apply (H (String x pre) t post); [reflexivity|assumption].
Qed.

End RegexpFacts.

(** ** The timestamp pattern and the timestamp grammar *)

Module TimestampFacts.

Import Regexp Spec StringTs RegexpFacts.

Ltac inv H := inversion H; subst; clear H.

(** Take apart the hypotheses on sequences, characters and groups. *)
Ltac inv_frame :=
  repeat match goal with
         | H : matches (Seq _ _) _ |- _ => inv H
         | H : matches (Chr _) _ |- _ => inv H
         | H : matches (Cls _) _ |- _ => inv H
         | H : matches (Grp _ _) _ |- _ => inv H
         | H : matches (Rep (S _) _) _ |- _ => inv H
         | H : matches (Rep O _) _ |- _ => inv H
         end.

Lemma matches_two_digits t : matches (Rep 2 digit) t <-> two_digits t.
Proof.
  unfold digit. split.
  - intros H. inv_frame. eexists _, _. repeat split; eassumption.
  - intros (a & b & Ha & Hb & ->).
    change (String a (String b ""))
      with (String a "" ++ String b "" ++ "")%string.
    repeat constructor; assumption.
Qed.

Lemma matches_digits t :
  matches (PlusCls Conv.is_digit) t <-> t <> "" /\ all_digits t = true.
Proof.
  split.
  - intros H. remember (PlusCls Conv.is_digit) as r eqn:E.
    induction H; try discriminate; injection E as ->.
    + simpl. rewrite H. split; [discriminate|reflexivity].
    + simpl. rewrite H. split; [discriminate|]. now apply IHmatches.
  - intros [Hne Hall]. induction t as [|c t IH]; [congruence|].
    simpl in Hall. apply andb_prop in Hall as [Hc Ht].
    destruct t as [|d t].
    + now apply M_Plus_one.
    + apply M_Plus_more; [assumption|]. apply IH; [discriminate|assumption].
Qed.

Lemma matches_sign t : matches (Opt (Chr "-")) t <-> sign_part t.
Proof.
  split.
  - intros H. inv H; [now left|]. inv_frame. now right.
  - intros [->| ->]; [apply M_Opt_skip|apply M_Opt_take; constructor].
Qed.

Lemma matches_hours t :
  matches (Opt (Grp 2 (Seq (Rep 2 digit) (Chr ":")))) t <-> hours_part t.
Proof.
  split.
  - intros H. inv H; [now left|].
    repeat match goal with
           | H : matches (Seq _ _) _ |- _ => inv H
           | H : matches (Chr _) _ |- _ => inv H
           | H : matches (Grp _ _) _ |- _ => inv H
           end.
    match goal with
    | H : matches (Rep 2 digit) ?h |- _ =>
        right; exists h; split; [now apply matches_two_digits|reflexivity]
    end.
  - intros [->|(h & Hh & ->)]; [apply M_Opt_skip|].
    apply M_Opt_take. constructor. constructor;
      [now apply matches_two_digits|constructor].
Qed.

Lemma matches_fraction t :
  matches (Opt (Grp 5 (Seq (Chr ".") (PlusCls Conv.is_digit)))) t
  <-> fraction_part t.
Proof.
  split.
  - intros H. inv H; [now left|]. inv_frame.
    match goal with
    | H : matches (PlusCls _) ?ds |- _ =>
        apply matches_digits in H as [Hne Hall];
        right; exists ds; repeat split; assumption
    end.
  - intros [->|(ds & Hne & Hall & ->)]; [apply M_Opt_skip|].
    apply M_Opt_take. constructor.
    change (String "." ds) with (String "." "" ++ ds)%string.
    constructor; [constructor|]. now apply matches_digits.
Qed.

(** The language of [TIMESTAMP_REGEXP] is the timestamp grammar. *)
Lemma matches_timestamp t :
  matches TIMESTAMP_REGEXP t <-> timestamp_shaped t.
Proof.
  unfold TIMESTAMP_REGEXP. split.
  - intros H.
    repeat match goal with
           | H : matches (Seq _ _) _ |- _ => inv H
           | H : matches (Chr _) _ |- _ => inv H
           | H : matches (Grp _ _) _ |- _ => inv H
           end.
    repeat match goal with
           | H : matches (Opt (Chr _)) _ |- _ => apply matches_sign in H
           | H : matches (Opt (Grp 2 _)) _ |- _ => apply matches_hours in H
           | H : matches (Opt (Grp 5 _)) _ |- _ => apply matches_fraction in H
           | H : matches (Rep 2 digit) _ |- _ => apply matches_two_digits in H
           end.
    eexists _, _, _, _, _. repeat split; eassumption.
  - intros (sg & hh & mm & ss & fr & Hsg & Hhh & Hmm & Hss & Hfr & ->).
    constructor; [constructor; now apply matches_sign|].
    constructor; [now apply matches_hours|].
    constructor; [constructor; now apply matches_two_digits|].
    change (":" ++ ss ++ fr)%string with (String ":" "" ++ ss ++ fr)%string.
    constructor; [constructor|].
    constructor; [constructor; now apply matches_two_digits|].
    now apply matches_fraction.
Qed.

(** *** What the pattern captures on a text that starts with a timestamp *)

Lemma length_app a b :
  String.length (a ++ b) = (String.length a + String.length b)%nat.
Proof. induction a; simpl; congruence. Qed.

Lemma take_app a b : Str.take (String.length a) (a ++ b) = a.
Proof. induction a; simpl; [now destruct b|congruence]. Qed.

Lemma consumed_app a b : consumed (a ++ b) b = a.
Proof.
  unfold consumed. rewrite length_app, Nat.add_sub. apply take_app.
Qed.

Lemma consumed_0 s : consumed s s = "".
Proof. apply (consumed_app "" s). Qed.

Lemma consumed_1 a tl : consumed (String a tl) tl = String a "".
Proof. apply (consumed_app (String a "") tl). Qed.

Lemma consumed_2 a b tl :
  consumed (String a (String b tl)) tl = String a (String b "").
Proof. apply (consumed_app (String a (String b "")) tl). Qed.

Lemma consumed_3 a b c tl :
  consumed (String a (String b (String c tl))) tl
  = String a (String b (String c "")).
Proof. apply (consumed_app (String a (String b (String c ""))) tl). Qed.

Section Steps.

Context {R : Type}.
Implicit Type k : @cont R.

Lemma m_seq r1 r2 k s c : m (Seq r1 r2) k s c = m r1 (m r2 k) s c.
Proof. reflexivity. Qed.

Lemma m_grp i r k s c :
  m (Grp i r) k s c
  = m r (fun s' c' => k s' ((i, consumed s s') :: c')) s c.
Proof. reflexivity. Qed.

Lemma m_opt r k s c :
  m (Opt r) k s c
  = match m r k s c with Some x => Some x | None => k s c end.
Proof. reflexivity. Qed.

Lemma m_chr_eq x k s c : m (Chr x) k (String x s) c = k s c.
Proof. simpl. now rewrite Ascii.eqb_refl. Qed.

Lemma m_chr_other x k s c :
  starts_with x s = false -> m (Chr x) k s c = None.
Proof. destruct s as [|y s]; simpl; [reflexivity|]. now intros ->. Qed.

Lemma m_digits2 a b k s c :
  Conv.is_digit a = true -> Conv.is_digit b = true ->
  m (Rep 2 digit) k (String a (String b s)) c = k s c.
Proof. intros Ha Hb. simpl. now rewrite Ha, Hb. Qed.

(** The greedy [[0-9]+] takes every digit when what follows then
    matches. *)
Lemma plus_cls_max k ds rest c r :
  ds <> "" -> all_digits ds = true -> starts_digit rest = false ->
  k rest c = Some r ->
  plus_cls Conv.is_digit k (ds ++ rest) c = Some r.
Proof.
  intros Hne Hall Hrest Hk. induction ds as [|d ds IH]; [congruence|].
  simpl in Hall. apply andb_prop in Hall as [Hd Hds].
  simpl. rewrite Hd. destruct ds as [|e ds].
  - simpl. destruct rest as [|y rest]; simpl; [exact Hk|].
    simpl in Hrest. now rewrite Hrest.
  - rewrite IH; [reflexivity|discriminate|assumption].
Qed.

End Steps.

Lemma timestamp_split :
  TIMESTAMP_REGEXP = Seq (Grp 1 (Opt (Chr "-"))) (Seq HOURS MM_SS).
Proof. reflexivity. Qed.

Lemma m_fraction fr rest c :
  fraction_part fr -> ends_fraction fr rest = true ->
  m FRACTION found (fr ++ rest) c = Some (with_fraction fr c).
Proof.
  unfold FRACTION. intros [->|(ds & Hne & Hall & ->)] He.
  - simpl append. cbn [with_fraction m].
    destruct rest as [|y rest]; [reflexivity|].
    destruct (Ascii.eqb_spec y ".") as [->|Hy]; [|reflexivity].
    simpl in He. destruct rest as [|d rest]; [reflexivity|].
    simpl in He. cbn [plus_cls].
    destruct (Conv.is_digit d); [discriminate|reflexivity].
  - cbn [ends_fraction] in He. apply negb_true_iff in He.
    cbn [with_fraction m append]. rewrite Ascii.eqb_refl.
    erewrite plus_cls_max; [reflexivity|assumption..|].
    unfold found. do 3 f_equal.
    apply (consumed_app (String "." ds) rest).
Qed.

Lemma m_MM_SS m1 m2 s1 s2 fr rest c :
  Conv.is_digit m1 = true -> Conv.is_digit m2 = true ->
  Conv.is_digit s1 = true -> Conv.is_digit s2 = true ->
  fraction_part fr -> ends_fraction fr rest = true ->
  m MM_SS found
    (String m1 (String m2 (String ":" (String s1 (String s2 (fr ++ rest))))))
    c
  = Some (with_fraction fr
            ((4%nat, digits2 s1 s2) :: (3%nat, digits2 m1 m2) :: c)).
Proof.
  intros Hm1 Hm2 Hs1 Hs2 Hfr He. unfold MM_SS.
  rewrite m_seq, m_grp, m_digits2 by assumption. cbv beta.
  rewrite m_seq, m_chr_eq, m_seq, m_grp, m_digits2 by assumption. cbv beta.
  rewrite (m_fraction fr rest _ Hfr He).
  now rewrite !consumed_2.
Qed.

Lemma m_HH_MM_SS h1 h2 m1 m2 s1 s2 fr rest c :
  Conv.is_digit h1 = true -> Conv.is_digit h2 = true ->
  Conv.is_digit m1 = true -> Conv.is_digit m2 = true ->
  Conv.is_digit s1 = true -> Conv.is_digit s2 = true ->
  fraction_part fr -> ends_fraction fr rest = true ->
  m (Seq HOURS MM_SS) found
    (String h1 (String h2 (String ":"
       (String m1 (String m2 (String ":"
          (String s1 (String s2 (fr ++ rest)))))))))
    c
  = Some (with_fraction fr
            ((4%nat, digits2 s1 s2) :: (3%nat, digits2 m1 m2)
             :: (2%nat, String h1 (String h2 ":")) :: c)).
Proof.
  intros Hh1 Hh2 Hm1 Hm2 Hs1 Hs2 Hfr He. unfold HOURS.
  rewrite m_seq, m_opt, m_grp, m_seq, m_digits2, m_chr_eq by assumption.
  cbv beta.
  rewrite (m_MM_SS m1 m2 s1 s2 fr rest _ Hm1 Hm2 Hs1 Hs2 Hfr He).
  now rewrite consumed_3.
Qed.

(** Without hours: the attempt to read [MM:] as the hours fails when no
    colon follows the seconds. *)
Lemma m_no_hours m1 m2 s1 s2 fr rest c :
  Conv.is_digit m1 = true -> Conv.is_digit m2 = true ->
  Conv.is_digit s1 = true -> Conv.is_digit s2 = true ->
  fraction_part fr -> ends_fraction fr rest = true ->
  starts_with ":" (fr ++ rest) = false ->
  m (Seq HOURS MM_SS) found
    (String m1 (String m2 (String ":" (String s1 (String s2 (fr ++ rest))))))
    c
  = Some (with_fraction fr
            ((4%nat, digits2 s1 s2) :: (3%nat, digits2 m1 m2) :: c)).
Proof.
  intros Hm1 Hm2 Hs1 Hs2 Hfr He Hc. unfold HOURS.
  rewrite m_seq, m_opt, m_grp, m_seq, m_digits2, m_chr_eq by assumption.
  cbv beta. unfold MM_SS at 1.
  rewrite m_seq, m_grp, m_digits2 by assumption. cbv beta.
  rewrite m_seq, (m_chr_other _ _ _ _ Hc).
  apply m_MM_SS; assumption.
Qed.

Lemma m_sign neg d tl k (r : captures) :
  Conv.is_digit d = true ->
  k (String d tl) [(1%nat, sign_text neg)] = Some r ->
  m (Grp 1 (Opt (Chr "-"))) k (sign_text neg ++ String d tl) [] = Some r.
Proof.
  intros Hd Hk. rewrite m_grp, m_opt. destruct neg; cbn [sign_text append] in *.
  - rewrite m_chr_eq, consumed_1. now rewrite Hk.
  - rewrite m_chr_other, consumed_0; [exact Hk|].
    simpl. destruct (Ascii.eqb_spec d "-") as [->|]; [discriminate|reflexivity].
Qed.

Lemma exec_at_start r s c : m r found s [] = Some c -> exec r s = Some c.
Proof. intros H. destruct s; simpl; now rewrite H. Qed.

Lemma exec_HH_MM_SS neg h1 h2 m1 m2 s1 s2 fr rest :
  Conv.is_digit h1 = true -> Conv.is_digit h2 = true ->
  Conv.is_digit m1 = true -> Conv.is_digit m2 = true ->
  Conv.is_digit s1 = true -> Conv.is_digit s2 = true ->
  fraction_part fr -> ends_fraction fr rest = true ->
  exec TIMESTAMP_REGEXP
    (sign_text neg ++
     String h1 (String h2 (String ":"
       (String m1 (String m2 (String ":"
          (String s1 (String s2 (fr ++ rest)))))))))
  = Some (with_fraction fr
            [(4%nat, digits2 s1 s2); (3%nat, digits2 m1 m2);
             (2%nat, String h1 (String h2 ":")); (1%nat, sign_text neg)]).
Proof.
  intros Hh1 Hh2 Hm1 Hm2 Hs1 Hs2 Hfr He.
  apply exec_at_start. rewrite timestamp_split, m_seq.
  apply m_sign; [assumption|]. now apply m_HH_MM_SS.
Qed.

Lemma exec_MM_SS neg m1 m2 s1 s2 fr rest :
  Conv.is_digit m1 = true -> Conv.is_digit m2 = true ->
  Conv.is_digit s1 = true -> Conv.is_digit s2 = true ->
  fraction_part fr -> ends_fraction fr rest = true ->
  starts_with ":" (fr ++ rest) = false ->
  exec TIMESTAMP_REGEXP
    (sign_text neg ++
     String m1 (String m2 (String ":" (String s1 (String s2 (fr ++ rest))))))
  = Some (with_fraction fr
            [(4%nat, digits2 s1 s2); (3%nat, digits2 m1 m2);
             (1%nat, sign_text neg)]).
Proof.
  intros Hm1 Hm2 Hs1 Hs2 Hfr He Hc.
  apply exec_at_start. rewrite timestamp_split, m_seq.
  apply m_sign; [assumption|]. now apply m_no_hours.
Qed.

(** The value of the captures. *)
Lemma value_of_captures neg hh mm ss fr s :
  fraction_part fr ->
  exec TIMESTAMP_REGEXP s
  = Some (with_fraction fr
            ((4%nat, ss) :: (3%nat, mm)
             :: match hh with
                | Some h => [(2%nat, (h ++ ":")%string); (1%nat, sign_text neg)]
                | None => [(1%nat, sign_text neg)]
                end)) ->
  (forall h, hh = Some h -> String.length h = 2%nat) ->
  parseTimestamp s = Some (timestamp_value neg hh mm ss fr).
Proof.
  intros Hfr Hx Hh. unfold parseTimestamp. rewrite Hx. f_equal.
  unfold timestamp_value.
  assert (Hsign : (if strict_eq_string
                        (capture 1
                           (with_fraction fr
                              ((4%nat, ss) :: (3%nat, mm)
                               :: match hh with
                                  | Some h => [(2%nat, (h ++ ":")%string);
                                               (1%nat, sign_text neg)]
                                  | None => [(1%nat, sign_text neg)]
                                  end))) "-"
                   then Num.of_Z (-1) else Num.of_Z 1)
                  = Num.of_Z (if neg then -1 else 1)).
  { destruct Hfr as [->|(ds & _ & _ & ->)], hh, neg; reflexivity. }
  rewrite Hsign. f_equal. f_equal; [f_equal; [f_equal|]|].
  - destruct hh as [h|].
    + specialize (Hh h eq_refl).
      destruct h as [|a [|b [|x h]]]; try discriminate.
      destruct Hfr as [->|(ds & _ & _ & ->)]; reflexivity.
    + destruct Hfr as [->|(ds & _ & _ & ->)]; reflexivity.
  - destruct Hfr as [->|(ds & _ & _ & ->)], hh; reflexivity.
  - destruct Hfr as [->|(ds & _ & _ & ->)], hh; reflexivity.
  - destruct Hfr as [->|(ds & _ & _ & ->)], hh; reflexivity.
Qed.

Lemma is_digit_cases c :
  Conv.is_digit c = true ->
  In c ["0"; "1"; "2"; "3"; "4"; "5"; "6"; "7"; "8"; "9"]%char.
Proof.
  destruct c as [[] [] [] [] [] [] [] []]; intros H;
    try (vm_compute in H; discriminate H); simpl; tauto.
Qed.

(** Two digits read as a number are the integer they spell. *)
Lemma two_digits_number a b :
  Conv.is_digit a = true -> Conv.is_digit b = true ->
  Conv.StringToNumber (digits2 a b)
  = Num.of_Z (10 * digit_of a + digit_of b).
Proof.
  intros Ha Hb. apply is_digit_cases in Ha. apply is_digit_cases in Hb.
  simpl in Ha, Hb.
  repeat (destruct Ha as [<-|Ha]; [
    repeat (destruct Hb as [<-|Hb]; [vm_compute; reflexivity|]);
    contradiction|]).
  contradiction.
Qed.

Lemma parseTimestamp_none s :
  parseTimestamp s = None <-> exec TIMESTAMP_REGEXP s = None.
Proof.
  unfold parseTimestamp. destruct (exec TIMESTAMP_REGEXP s); split;
    congruence.
Qed.

Lemma has_char_app c a b :
  has_char c (a ++ b) = has_char c a || has_char c b.
Proof.
  induction a as [|x a IH]; simpl; [reflexivity|].
  now rewrite IH, orb_assoc.
Qed.

Lemma shaped_has_colon t : timestamp_shaped t -> has_char ":" t = true.
Proof.
  intros (sg & hh & mm & ss & fr & _ & _ & _ & _ & _ & ->).
  rewrite !has_char_app. simpl. now rewrite !orb_true_r.
Qed.

Lemma has_timestamp_colon s : has_timestamp s -> has_char ":" s = true.
Proof.
  intros (pre & t & post & -> & Ht).
  rewrite !has_char_app, (shaped_has_colon t Ht). now rewrite orb_true_r.
Qed.

End TimestampFacts.

(** ** Escaping *)

Module EscapeFacts.

Import Regexp Spec StringTs.

Lemma mem_In c l : Str.mem c l = true <-> In c l.
Proof.
  unfold Str.mem. rewrite existsb_exists. split.
  - intros (x & Hx & E). apply Ascii.eqb_eq in E. now subst.
  - intros H. exists c. split; [assumption|apply Ascii.eqb_refl].
Qed.

Lemma escaped_ext (P Q : ascii -> Prop) s t :
  (forall c, P c <-> Q c) -> escaped P s t -> escaped Q s t.
Proof.
  intros E H. induction H.
  - constructor.
  - apply escaped_in; [now apply E|assumption].
  - apply escaped_out; [now rewrite <- E|assumption].
Qed.

Lemma escaped_fun P s t t' : escaped P s t -> escaped P s t' -> t = t'.
Proof.
  intros H. revert t'. induction H; intros t' H'; inversion H'; subst;
    try reflexivity; try contradiction; f_equal; try f_equal; auto.
Qed.

Lemma replace_escaped l s :
  escaped (fun c => In c l) s (replace_cls (one_of l) backslash s).
Proof.
  induction s as [|c s IH]; simpl; [constructor|].
  unfold one_of at 1. destruct (Str.mem c l) eqn:E.
  - apply escaped_in; [now apply mem_In|assumption].
  - apply escaped_out; [|assumption].
    intros H. apply mem_In in H. congruence.
Qed.

Lemma replace_app p f a b :
  replace_cls p f (a ++ b) = (replace_cls p f a ++ replace_cls p f b)%string.
Proof.
  induction a as [|c a IH]; simpl; [reflexivity|].
  now rewrite IH, RegexpFacts.append_assoc.
Qed.

Lemma unescape_other c r :
  c <> "\"%char -> unescape (String c r) = String c (unescape r).
Proof.
  intros H. destruct r as [|d r].
  - destruct c as [[] [] [] [] [] [] [] []]; try reflexivity; congruence.
  - destruct c as [[] [] [] [] [] [] [] []]; try reflexivity; congruence.
Qed.

Lemma unescape_replace l s :
  In "\"%char l -> unescape (replace_cls (one_of l) backslash s) = s.
Proof.
  intros Hl. induction s as [|c s IH]; simpl; [reflexivity|].
  unfold one_of at 1. destruct (Str.mem c l) eqn:E.
  - cbn [backslash append unescape]. now rewrite IH.
  - cbn [append]. rewrite unescape_other, IH; [reflexivity|].
    intros ->. apply mem_In in Hl. congruence.
Qed.

(** A text without a character of the class is left as it is, and only
    such a text. *)
Lemma replace_id l s :
  replace_cls (one_of l) backslash s = s <->
  (forall c, In c (list_ascii_of_string s) -> ~ In c l).
Proof.
  split.
  - intros H c Hc Hin.
    assert (Hlen : String.length (replace_cls (one_of l) backslash s)
                   = String.length s) by now rewrite H.
    clear H. revert Hlen Hc.
    assert (Hge : forall u, (String.length u
                   <= String.length (replace_cls (one_of l) backslash u))%nat).
    { induction u as [|x u IHu]; simpl; [lia|].
      destruct (one_of l x); simpl; lia. }
    induction s as [|x s IH]; simpl; [tauto|].
    destruct (one_of l x) eqn:Hx; simpl.
    + intros Hlen. specialize (Hge s). lia.
    + intros Hlen [->|Hc].
      * apply mem_In in Hin. unfold one_of in Hx. congruence.
      * apply IH; [lia|assumption].
  - intros H. induction s as [|x s IH]; simpl; [reflexivity|].
    destruct (one_of l x) eqn:Hx.
    + exfalso. apply (H x); [now left|]. now apply mem_In.
    + simpl. rewrite IH; [reflexivity|].
      intros c Hc. apply H. now right.
Qed.

End EscapeFacts.

(** ** The probe mapper *)

Module TypesFacts.

Import Num Spec TypesTs NumFacts.

Lemma get_prop o k : nullish o = false -> get o k = Ok (prop o k).
Proof.
  destruct o; simpl; try discriminate; try reflexivity.
  intros _. now destruct (lookup k props).
Qed.

Lemma get_nullish o k : nullish o = true -> get o k = Throw TypeError.
Proof. destruct o; simpl; try discriminate; reflexivity. Qed.

(** *** Conversions that throw *)

Lemma value_induction (P : value -> Prop) :
  P VUndefined -> P VNull -> (forall b, P (VBool b)) ->
  (forall n, P (VNum n)) -> (forall s, P (VStr s)) ->
  (forall items, Forall P items -> P (VArr items)) ->
  (forall props, Forall (fun e => P (snd e)) props -> P (VObj props)) ->
  forall v, P v.
Proof.
  intros HU HN HB HM HS HA HO. fix IH 1. intros [| |b|n|s|items|props].
  - exact HU.
  - exact HN.
  - apply HB.
  - apply HM.
  - apply HS.
  - apply HA. induction items as [|x items IHitems]; constructor.
    + apply IH.
    + exact IHitems.
  - apply HO. induction props as [|[k x] props IHprops]; constructor.
    + apply IH.
    + exact IHprops.
Qed.

Lemma ToString_cases v :
  if convertible v then exists t, ToString v = Ok t
  else ToString v = Throw TypeError.
Proof.
  induction v as [| |b|n|s|items IH|props _] using value_induction;
    try (simpl; eexists; reflexivity).
  - cbn [ToString convertible].
    induction IH as [|x items Hx _ IHitems]; [simpl; eexists; reflexivity|].
    cbn [mapM forallb].
    assert (Hel : if convertible x
                  then exists t, match x with
                                 | VUndefined | VNull => Ok ""
                                 | _ => ToString x
                                 end = Ok t
                  else match x with
                       | VUndefined | VNull => Ok ""
                       | _ => ToString x
                       end = Throw TypeError).
    { destruct x; try exact Hx; simpl; eexists; reflexivity. }
    destruct (convertible x).
    + destruct Hel as [t ->]. cbn [bind andb].
      destruct (forallb convertible items).
      * destruct IHitems as [u Hu].
        destruct (mapM _ items); cbn [bind] in *; [|discriminate].
        eexists; reflexivity.
      * destruct (mapM _ items); cbn [bind] in *;
          [discriminate|assumption].
    + rewrite Hel. reflexivity.
  - cbn [ToString convertible]. destruct (has_own "toString" props); simpl;
      [reflexivity|eexists; reflexivity].
Qed.

Lemma ToString_convertible v :
  convertible v = true -> exists t, ToString v = Ok t.
Proof. intros H. pose proof (ToString_cases v) as C. now rewrite H in C. Qed.

Lemma ToString_throws v :
  convertible v = false -> ToString v = Throw TypeError.
Proof. intros H. pose proof (ToString_cases v) as C. now rewrite H in C. Qed.

Lemma ToString_Ok v t : ToString v = Ok t -> convertible v = true.
Proof.
  intros H. pose proof (ToString_cases v) as C.
  destruct (convertible v); [reflexivity|congruence].
Qed.

Lemma ToNumber_ToString v :
  (forall t, ToString v = Ok t -> exists n, ToNumber v = Ok n) /\
  (forall e, ToString v = Throw e -> ToNumber v = Throw e).
Proof.
  destruct v; split; intros x H; try discriminate H;
    try (simpl; eexists; reflexivity);
    unfold ToNumber; rewrite H; cbn [bind];
    try reflexivity; eexists; reflexivity.
Qed.

Lemma ToNumber_convertible v :
  convertible v = true -> exists n, ToNumber v = Ok n.
Proof.
  intros H. destruct (ToString_convertible v H) as [t Ht].
  exact (proj1 (ToNumber_ToString v) t Ht).
Qed.

Lemma ToNumber_throws v :
  convertible v = false -> ToNumber v = Throw TypeError.
Proof.
  intros H. exact (proj2 (ToNumber_ToString v) _ (ToString_throws v H)).
Qed.

Lemma ToNumber_Ok v n : ToNumber v = Ok n -> convertible v = true.
Proof.
  intros H. destruct (convertible v) eqn:C; [reflexivity|].
  rewrite (ToNumber_throws v C) in H. discriminate.
Qed.

(** A clean value is convertible, and so are its properties and the values
    of its entries. *)
Lemma clean_convertible v : clean v = true -> convertible v = true.
Proof.
  induction v as [| |b|n|s|items IH|props _] using value_induction;
    try reflexivity.
  - cbn [clean convertible].
    induction IH as [|x items Hx _ IHitems]; [reflexivity|].
    cbn [forallb]. intros H. apply andb_prop in H as [H1 H2].
    now rewrite (Hx H1), (IHitems H2).
  - cbn [clean convertible]. intros H. now apply andb_prop in H as [H _].
Qed.

Lemma clean_lookup k props v :
  forallb (fun '(_, x) => clean x) props = true ->
  lookup k props = Some v -> clean v = true.
Proof.
  induction props as [|[k' x] props IH]; [discriminate|].
  cbn [forallb lookup]. intros H. apply andb_prop in H as [H1 H2].
  destruct (String.eqb k k'); [now intros [= <-]|now apply IH].
Qed.

Lemma clean_prop o k : clean o = true -> clean (prop o k) = true.
Proof.
  destruct o; try reflexivity. cbn [clean prop]. intros H.
  apply andb_prop in H as [_ H].
  destruct (lookup k props) as [v|] eqn:L; [|reflexivity].
  exact (clean_lookup k props v H L).
Qed.

Lemma In_combine_r {A B} (l : list A) (l' : list B) a b :
  In (a, b) (combine l l') -> In b l'.
Proof.
  revert l'. induction l as [|x l IH]; intros [|y l']; simpl; try tauto.
  intros [[= _ <-]|H]; [now left|right; now apply (IH l')].
Qed.

Lemma clean_entries o :
  clean o = true -> Forall (fun e => clean (snd e) = true) (entries o).
Proof.
  intros H. apply Forall_forall. intros [k x] Hin. cbn [snd].
  destruct o; try contradiction; cbn [entries] in Hin.
  - unfold indexed in Hin. apply In_combine_r in Hin.
    unfold chars in Hin. apply in_map_iff in Hin as (c & <- & _).
    reflexivity.
  - unfold indexed in Hin. apply In_combine_r in Hin.
    cbn [clean] in H. rewrite forallb_forall in H. now apply H.
  - cbn [clean] in H. apply andb_prop in H as [_ H].
    rewrite forallb_forall in H. exact (H (k, x) Hin).
Qed.

(** *** Lists of results *)

Lemma mapM_Forall2 {A B} (f : A -> result B) l ys :
  mapM f l = Ok ys -> Forall2 (fun x y => f x = Ok y) l ys.
Proof.
  revert ys. induction l as [|x l IH]; intros ys; simpl.
  - intros [= <-]. constructor.
  - destruct (f x) as [y|e] eqn:Hx; cbn [bind]; [|discriminate].
    destruct (mapM f l) as [zs|e]; cbn [bind]; [|discriminate].
    intros [= <-]. constructor; [assumption|now apply IH].
Qed.

Lemma Forall2_mapM {A B} (f : A -> result B) l ys :
  Forall2 (fun x y => f x = Ok y) l ys -> mapM f l = Ok ys.
Proof.
  induction 1 as [|x y l ys Hx _ IH]; [reflexivity|].
  cbn [mapM]. now rewrite Hx, IH.
Qed.

Lemma mapM_total {A B} (f : A -> result B) (l : list A) :
  Forall (fun x => exists y, f x = Ok y) l -> exists ys, mapM f l = Ok ys.
Proof.
  induction 1 as [|x l [y Hy] _ [ys Hys]]; [now exists []|].
  exists (y :: ys). cbn [mapM]. now rewrite Hy, Hys.
Qed.

Lemma mapM_throws {A B} (f : A -> result B) l x e :
  In x l -> f x = Throw e -> exists e', mapM f l = Throw e'.
Proof.
  induction l as [|y l IH]; [contradiction|]. intros [->|Hin] Hx.
  - exists e. cbn [mapM]. now rewrite Hx.
  - destruct (IH Hin Hx) as [e' He']. cbn [mapM].
    destruct (f y); cbn [bind]; [|eexists; reflexivity].
    rewrite He'. eexists; reflexivity.
Qed.

(** *** Results that throw a [TypeError] only *)

Lemma only_Ok {A} (a : A) : TypeError_only (Ok a).
Proof. intros e H. discriminate H. Qed.

Lemma only_Throw {A} : TypeError_only (@Throw A TypeError).
Proof. intros e [= <-]. reflexivity. Qed.

Lemma only_bind {A B} (r : result A) (f : A -> result B) :
  TypeError_only r -> (forall a, TypeError_only (f a)) ->
  TypeError_only (bind r f).
Proof.
  intros Hr Hf e. destruct r as [a|e']; cbn [bind]; [apply Hf|].
  intros [= <-]. now apply Hr.
Qed.

Lemma only_mapM {A B} (f : A -> result B) l :
  (forall x, TypeError_only (f x)) -> TypeError_only (mapM f l).
Proof.
  intros Hf. induction l as [|x l IH]; [apply only_Ok|].
  cbn [mapM]. apply only_bind; [apply Hf|]. intros y.
  apply only_bind; [exact IH|]. intros ys. apply only_Ok.
Qed.

Lemma only_get o k : TypeError_only (get o k).
Proof.
  destruct o; simpl; try apply only_Ok; try apply only_Throw.
  destruct (lookup k props); apply only_Ok.
Qed.

Lemma only_ToString v : TypeError_only (ToString v).
Proof.
  intros e H. pose proof (ToString_cases v) as C.
  destruct (convertible v); [destruct C; congruence|congruence].
Qed.

Lemma only_ToNumber v : TypeError_only (ToNumber v).
Proof.
  intros e H. destruct (convertible v) eqn:C.
  - destruct (ToNumber_convertible v C). congruence.
  - rewrite (ToNumber_throws v C) in H. congruence.
Qed.

Ltac only_step :=
  repeat first
    [ apply only_Ok | apply only_Throw | apply only_get
    | apply only_ToString | apply only_ToNumber
    | apply only_bind; [|intros ?]
    | apply only_mapM; intros ?
    | match goal with
      | |- TypeError_only (if ?c then _ else _) => destruct c
      | |- TypeError_only (let (_, _) := ?p in _) => destruct p
      end ].

Lemma only_toLowerCase e : TypeError_only (toLowerCase e).
Proof. unfold toLowerCase. only_step. Qed.

Lemma only_tags o : TypeError_only (tags o).
Proof.
  unfold tags. apply only_bind; [|intros ?; apply only_Ok].
  apply only_mapM. apply only_toLowerCase.
Qed.

Lemma only_codecTag o : TypeError_only (codecTag o).
Proof. unfold codecTag. only_step. Qed.

Lemma only_f64 v : TypeError_only (f64 v).
Proof. unfold f64. only_step. Qed.

Lemma only_int v : TypeError_only (int v).
Proof. unfold int. only_step. Qed.

Lemma only_ushr0 v : TypeError_only (ushr0 v).
Proof. unfold ushr0. only_step. Qed.

Lemma only_or0 v : TypeError_only (or0 v).
Proof. unfold or0. only_step. Qed.

Lemma only_millis v : TypeError_only (millis v).
Proof. unfold millis. only_step. Qed.

Lemma only_micros v : TypeError_only (micros v).
Proof. unfold micros. only_step. Qed.

Lemma only_profile_of v : TypeError_only (profile_of v).
Proof. unfold profile_of. only_step. Qed.

Ltac only_field :=
  repeat first
    [ apply only_Ok | apply only_get | apply only_ToString
    | apply only_tags | apply only_codecTag | apply only_f64
    | apply only_int | apply only_ushr0 | apply only_or0
    | apply only_millis | apply only_micros | apply only_profile_of
    | apply only_bind; [|intros ?] ].

Lemma only_new_BaseStream info : TypeError_only (new_BaseStream info).
Proof. unfold new_BaseStream. only_field. Qed.

Lemma only_new_VideoStream info : TypeError_only (new_VideoStream info).
Proof.
  unfold new_VideoStream. apply only_bind; [apply only_new_BaseStream|].
  intros b. only_field.
Qed.

Lemma only_new_AudioStream info : TypeError_only (new_AudioStream info).
Proof.
  unfold new_AudioStream. apply only_bind; [apply only_new_BaseStream|].
  intros b. only_field.
Qed.

Lemma only_new_SubtitleStream info :
  TypeError_only (new_SubtitleStream info).
Proof.
  unfold new_SubtitleStream. apply only_bind; [apply only_new_BaseStream|].
  intros b. only_field.
Qed.

Lemma only_new_DataStream info : TypeError_only (new_DataStream info).
Proof.
  unfold new_DataStream. apply only_bind; [apply only_new_BaseStream|].
  intros b. only_field.
Qed.

Lemma only_new_Chapter info : TypeError_only (new_Chapter info).
Proof. unfold new_Chapter. only_field. Qed.

Lemma only_toStream info : TypeError_only (toStream info).
Proof.
  unfold toStream. apply only_bind; [apply only_get|]. intros v.
  apply only_bind; [apply only_ToString|]. intros type.
  destruct (String.eqb type "video");
    [apply only_bind; [apply only_new_VideoStream|intros ?; apply only_Ok]|].
  destruct (String.eqb type "audio");
    [apply only_bind; [apply only_new_AudioStream|intros ?; apply only_Ok]|].
  destruct (String.eqb type "subtitle");
    [apply only_bind;
       [apply only_new_SubtitleStream|intros ?; apply only_Ok]|].
  apply only_bind; [apply only_new_DataStream|intros ?; apply only_Ok].
Qed.

(** Rounding an integer never gives NaN. *)
Lemma iter_pos_inv {A} (f : A -> A) (P : A -> Prop) :
  (forall x, P x -> P (f x)) -> forall n x, P x -> P (iter_pos f n x).
Proof.
  intros Hf. induction n as [n IH|n IH|]; intros x Hx; simpl; auto.
Qed.

Lemma shr_1_nonneg mrs : 0 <= shr_m mrs -> 0 <= shr_m (shr_1 mrs).
Proof.
  destruct mrs as [mm r s]. simpl.
  destruct mm as [|[p|p|]|[p|p|]]; simpl; lia.
Qed.

Lemma shr_nonneg mrs e n : 0 <= shr_m mrs -> 0 <= shr_m (fst (shr mrs e n)).
Proof.
  intros H. unfold shr. destruct n; simpl; try assumption.
  apply (iter_pos_inv shr_1 (fun r => 0 <= shr_m r)); [|assumption].
  apply shr_1_nonneg.
Qed.

Lemma shr_fexp_nonneg mx ex lx :
  0 <= mx -> 0 <= shr_m (fst (shr_fexp prec emax mx ex lx)).
Proof.
  intros H. unfold shr_fexp. apply shr_nonneg.
  destruct lx as [|[]]; simpl; assumption.
Qed.

Lemma round_aux_not_nan sx mx ex lx :
  0 <= mx -> is_nan (binary_round_aux prec emax sx mx ex lx) = false.
Proof.
  intros H. unfold binary_round_aux.
  pose proof (shr_fexp_nonneg mx ex lx H) as H1.
  destruct (shr_fexp prec emax mx ex lx) as [mrs' e']. cbn [fst] in H1.
  assert (H2 : 0 <= round_nearest_even (shr_m mrs') (loc_of_shr_record mrs')).
  { unfold round_nearest_even.
    destruct (loc_of_shr_record mrs') as [|[]]; try lia.
    destruct (Z.even (shr_m mrs')); lia. }
  pose proof (shr_fexp_nonneg _ e' loc_Exact H2) as H3.
  destruct (shr_fexp prec emax _ e' loc_Exact) as [mrs'' e''].
  cbn [fst] in H3.
  destruct (shr_m mrs'') as [|p|p]; try reflexivity; [|lia].
  now destruct (e'' <=? emax - prec).
Qed.

Lemma of_Z_not_nan z : is_nan (of_Z z) = false.
Proof.
  unfold of_Z, binary_normalize. destruct z as [|p|p]; [reflexivity| |];
    unfold binary_round;
    destruct (shl_align p 0 _) as [mz ez]; apply round_aux_not_nan; lia.
Qed.

Lemma floor_nan x : is_nan (floor x) = is_nan x.
Proof.
  destruct x as [| | |s mm e]; try reflexivity. simpl.
  destruct (0 <=? e); [reflexivity|apply of_Z_not_nan].
Qed.

Lemma is_nan_eq x : is_nan x = true -> x = NaN.
Proof. destruct x; simpl; try discriminate; reflexivity. Qed.

Lemma mod_trans a b c n :
  0 < n -> (a - b) mod n = 0 -> (b - c) mod n = 0 -> (a - c) mod n = 0.
Proof.
  intros Hn H1 H2.
  apply Z.mod_divide in H1; [|lia]. apply Z.mod_divide in H2; [|lia].
  apply Z.mod_divide; [lia|].
  replace (a - c) with ((a - b) + (b - c)) by lia.
  now apply Z.divide_add_r.
Qed.

Lemma mod_self_diff t n : 0 < n -> (t mod n - t) mod n = 0.
Proof.
  intros Hn. rewrite Zminus_mod, Z.mod_mod, Z.sub_diag by lia.
  reflexivity.
Qed.

Lemma ToUint32_congr x :
  is_finite x = true -> (ToUint32 x - truncate x) mod 2 ^ 32 = 0.
Proof.
  destruct x as [| | |s mm e]; try discriminate; intros _;
    [reflexivity|].
  unfold ToUint32. apply mod_self_diff. lia.
Qed.

Lemma ToUint32_not_finite x : is_finite x = false -> ToUint32 x = 0.
Proof. destruct x; try discriminate; reflexivity. Qed.

Lemma ushr_reduced x : reduced_uint32 x (ushr x (of_Z 0)).
Proof.
  exists (ToUint32 x). pose proof (ToUint32_range x) as Hr.
  rewrite ushr_0. repeat split; try lia.
  - apply truncate_of_Z. lia.
  - apply ToUint32_congr.
  - apply ToUint32_not_finite.
Qed.

Lemma bor_reduced x : reduced_int32 x (bor x (of_Z 0)).
Proof.
  exists (ToInt32 x). pose proof (ToInt32_range x) as Hr.
  rewrite bor_0. repeat split; try lia.
  - apply truncate_of_Z. lia.
  - intros Hf. unfold ToInt32.
    apply (mod_trans _ (ToUint32 x)); [lia|apply wrap_int32_congr|].
    now apply ToUint32_congr.
  - intros Hf. unfold ToInt32. now rewrite ToUint32_not_finite.
Qed.

Lemma Forall2_In_l {A B} (R : A -> B -> Prop) l l' x :
  Forall2 R l l' -> In x l -> exists y, R x y.
Proof.
  induction 1 as [|a b l l' Hab _ IH]; [contradiction|].
  intros [<-|Hin]; [now exists b|now apply IH].
Qed.

(** *** The numbers of the fields *)

Lemma bor0_value x : bor0 x = of_Z (ToInt32 x).
Proof. apply bor_0. Qed.

Lemma uint32_finite x : is_uint32 x -> is_finite x = true.
Proof. intros (z & Hz & ->). apply finite_of_Z. lia. Qed.

Lemma int32_finite x : is_int32 x -> is_finite x = true.
Proof. intros (z & Hz & ->). apply finite_of_Z. lia. Qed.

Lemma reduced_is_uint32 x y : reduced_uint32 x y -> is_uint32 y.
Proof. intros (z & -> & Hz & _). now exists z. Qed.

Lemma reduced_is_int32 x y : reduced_int32 x y -> is_int32 y.
Proof. intros (z & -> & Hz & _). now exists z. Qed.

Lemma reduced_uint32_nan x y :
  is_nan x = true -> reduced_uint32 x y -> y = of_Z 0.
Proof.
  intros Hx (z & -> & _ & _ & _ & H). rewrite H; [reflexivity|].
  now destruct x.
Qed.

Lemma mul_nan x k : is_nan x = true -> is_nan (mul x k) = true.
Proof. destruct x; try discriminate. reflexivity. Qed.

Lemma reduced_int32_nan x y :
  is_nan x = true -> reduced_int32 x y -> y = of_Z 0.
Proof.
  intros Hx (z & -> & _ & _ & _ & H). rewrite H; [reflexivity|].
  now destruct x.
Qed.

Lemma reduced_uint32_fun x y y' :
  reduced_uint32 x y -> reduced_uint32 x y' -> y = y'.
Proof.
  intros (z & -> & Hz & _ & Hf & Hn) (z' & -> & Hz' & _ & Hf' & Hn').
  f_equal. destruct (is_finite x).
  - specialize (Hf eq_refl). specialize (Hf' eq_refl).
    apply Z.mod_divide in Hf; [|lia]. apply Z.mod_divide in Hf'; [|lia].
    assert (D : (2 ^ 32 | z - z')).
    { replace (z - z') with ((z - truncate x) - (z' - truncate x)) by lia.
      now apply Z.divide_sub_r. }
    destruct D as [q Hq]. nia.
  - rewrite (Hn eq_refl), (Hn' eq_refl). reflexivity.
Qed.

Lemma reduced_int32_fun x y y' :
  reduced_int32 x y -> reduced_int32 x y' -> y = y'.
Proof.
  intros (z & -> & Hz & _ & Hf & Hn) (z' & -> & Hz' & _ & Hf' & Hn').
  f_equal. destruct (is_finite x).
  - specialize (Hf eq_refl). specialize (Hf' eq_refl).
    apply Z.mod_divide in Hf; [|lia]. apply Z.mod_divide in Hf'; [|lia].
    assert (D : (2 ^ 32 | z - z')).
    { replace (z - z') with ((z - truncate x) - (z' - truncate x)) by lia.
      now apply Z.divide_sub_r. }
    destruct D as [q Hq]. nia.
  - rewrite (Hn eq_refl), (Hn' eq_refl). reflexivity.
Qed.

(** *** What a field reads *)

Lemma ushr0_Ok v y :
  ushr0 v = Ok y -> coerced v (fun n => reduced_uint32 n y).
Proof.
  unfold ushr0. destruct (ToNumber v) as [n|] eqn:E; cbn [bind]; [|discriminate].
  intros [= <-]. exists n. split; [exact E|apply ushr_reduced].
Qed.

Lemma or0_Ok v y : or0 v = Ok y -> coerced v (fun n => reduced_int32 n y).
Proof.
  unfold or0. destruct (ToNumber v) as [n|] eqn:E; cbn [bind]; [|discriminate].
  intros [= <-]. exists n. split; [exact E|apply bor_reduced].
Qed.

Lemma millis_Ok v y :
  millis v = Ok y ->
  coerced v (fun n => reduced_int32 (mul n (of_Z 1000)) y).
Proof.
  unfold millis. destruct (ToNumber v) as [n|] eqn:E; cbn [bind]; [|discriminate].
  intros [= <-]. exists n. split; [exact E|apply bor_reduced].
Qed.

Lemma micros_Ok v y :
  micros v = Ok y ->
  coerced v (fun n => reduced_int32 (mul n (of_Z 1000000)) y).
Proof.
  unfold micros. destruct (ToNumber v) as [n|] eqn:E; cbn [bind]; [|discriminate].
  intros [= <-]. exists n. split; [exact E|apply bor_reduced].
Qed.

Lemma int_Ok v y : int v = Ok y -> coerced v (fun n => y = floor n).
Proof.
  unfold int. destruct (ToNumber v) as [n|] eqn:E; cbn [bind];
    [|discriminate].
  intros [= <-]. now exists n.
Qed.

(** Every field is read from a convertible source, and throws a
    [TypeError] on any other. *)
Lemma bind_ToNumber_total v (g : number -> number) :
  convertible v = true ->
  exists y, bind (ToNumber v) (fun n => Ok (g n)) = Ok y.
Proof.
  intros H. destruct (ToNumber_convertible v H) as [n ->].
  eexists; reflexivity.
Qed.

Lemma bind_ToNumber_throws v (g : number -> number) :
  convertible v = false ->
  bind (ToNumber v) (fun n => Ok (g n)) = Throw TypeError.
Proof. intros H. now rewrite (ToNumber_throws v H). Qed.

Lemma ushr0_total v : convertible v = true -> exists y, ushr0 v = Ok y.
Proof. apply bind_ToNumber_total. Qed.

Lemma or0_total v : convertible v = true -> exists y, or0 v = Ok y.
Proof. apply bind_ToNumber_total. Qed.

Lemma millis_total v : convertible v = true -> exists y, millis v = Ok y.
Proof. apply bind_ToNumber_total. Qed.

Lemma micros_total v : convertible v = true -> exists y, micros v = Ok y.
Proof. apply bind_ToNumber_total. Qed.

Lemma int_total v : convertible v = true -> exists y, int v = Ok y.
Proof. apply bind_ToNumber_total. Qed.

Lemma ushr0_throws v : convertible v = false -> ushr0 v = Throw TypeError.
Proof. apply bind_ToNumber_throws. Qed.

Lemma or0_throws v : convertible v = false -> or0 v = Throw TypeError.
Proof. apply bind_ToNumber_throws. Qed.

Lemma millis_throws v : convertible v = false -> millis v = Throw TypeError.
Proof. apply bind_ToNumber_throws. Qed.

Lemma micros_throws v : convertible v = false -> micros v = Throw TypeError.
Proof. apply bind_ToNumber_throws. Qed.

Lemma int_throws v : convertible v = false -> int v = Throw TypeError.
Proof. apply bind_ToNumber_throws. Qed.

Lemma codecTag_total v :
  convertible v = true -> exists y, codecTag v = Ok y.
Proof.
  intros H. unfold codecTag. destruct (ToString_convertible v H) as [t ->].
  eexists; reflexivity.
Qed.

Lemma f64_total v : convertible v = true -> exists y, f64 v = Ok y.
Proof.
  intros H. unfold f64. destruct (ToString_convertible v H) as [t ->].
  cbn [bind]. destruct (_ || _); [eexists; reflexivity|].
  destruct (_ || _); eexists; reflexivity.
Qed.

Lemma f64_throws v : convertible v = false -> f64 v = Throw TypeError.
Proof. intros H. unfold f64. now rewrite (ToString_throws v H). Qed.

Lemma profile_of_total v :
  convertible v = true -> exists y, profile_of v = Ok y.
Proof.
  intros H. unfold profile_of. destruct (truthy v); [|eexists; reflexivity].
  destruct (ToString_convertible v H) as [t ->]. eexists; reflexivity.
Qed.

Lemma toLowerCase_total e :
  convertible (snd e) = true -> exists y, toLowerCase e = Ok y.
Proof.
  destruct e as [k v]. cbn [snd]. intros H. unfold toLowerCase.
  destruct (ToString_convertible v H) as [t ->]. eexists; reflexivity.
Qed.

Lemma tags_clean o : clean o = true -> exists t, tags o = Ok t.
Proof.
  intros H. unfold tags.
  destruct (mapM_total toLowerCase
              (entries (if truthy o then o else VObj []))) as [es ->];
    [|eexists; reflexivity].
  assert (Hc : clean (if truthy o then o else VObj []) = true)
    by (destruct (truthy o); [assumption|reflexivity]).
  eapply Forall_impl; [|exact (clean_entries _ Hc)].
  intros e He. apply toLowerCase_total. now apply clean_convertible.
Qed.

(** *** The constructors *)

Ltac conjs := repeat match goal with |- _ /\ _ => split end.

Ltac step H :=
  match type of H with
  | bind ?r _ = Ok _ =>
      let E := fresh "E" in
      destruct r eqn:E; cbn [bind] in H; [|discriminate H]
  end.

Lemma new_BaseStream_inv info b :
  new_BaseStream info = Ok b ->
  nullish info = false /\
  ushr0 (prop info "index") = Ok (index b) /\
  ToString (prop info "codec_long_name") = Ok (codecName b) /\
  (exists tag, codecTag (prop info "codec_tag_string") = Ok tag /\
               codecTag_ b = match tag with
                             | Some t => if String.eqb t "" then None
                                         else Some t
                             | None => None
                             end) /\
  millis (prop info "start_time") = Ok (start b) /\
  millis (prop info "duration") = Ok (duration b) /\
  int (prop info "bit_rate") = Ok (bitrate b) /\
  tags (prop info "tags") = Ok (tags_ b).
Proof.
  intros H.
  destruct (nullish info) eqn:Hn.
  { unfold new_BaseStream in H. rewrite (get_nullish _ _ Hn) in H.
    discriminate H. }
  unfold new_BaseStream in H. rewrite !(get_prop _ _ Hn) in H.
  cbn [bind] in H. do 7 step H. injection H as <-. cbn.
  conjs; try assumption; try reflexivity.
  eexists. split; reflexivity.
Qed.

Lemma new_BaseStream_nullish info :
  nullish info = true -> new_BaseStream info = Throw TypeError.
Proof.
  intros Hn. unfold new_BaseStream. now rewrite (get_nullish _ _ Hn).
Qed.

Lemma new_VideoStream_inv info s :
  new_VideoStream info = Ok s ->
  new_BaseStream info = Ok (video_base s) /\
  ToString (prop info "codec_name") = Ok (video_codec s) /\
  profile_of (prop info "profile") = Ok (video_profile s) /\
  int (prop info "width") = Ok (width s) /\
  int (prop info "height") = Ok (height s) /\
  int (prop info "coded_width") = Ok (codedWidth s) /\
  int (prop info "coded_height") = Ok (codedHeight s) /\
  ToString (prop info "display_aspect_ratio") = Ok (aspectRatio s) /\
  ToString (prop info "pixel_format") = Ok (pixelFormat s) /\
  ushr0 (prop info "level") = Ok (level s) /\
  ToString (prop info "color_range") = Ok (colorRange s) /\
  ToString (prop info "color_space") = Ok (colorSpace s) /\
  ToString (prop info "color_transfer") = Ok (colorTransfer s) /\
  ToString (prop info "color_primaries") = Ok (colorPrimaries s) /\
  ToString (prop info "chroma_location") = Ok (chromaLocation s) /\
  ToString (prop info "field_order") = Ok (fieldOrder s) /\
  f64 (prop info "frame_rate") = Ok (frameRate s) /\
  f64 (prop info "avg_frame_rate") = Ok (avgFrameRate s) /\
  ushr0 (prop info "bits_per_raw_sample") = Ok (bitsPerRawSample s).
Proof.
  intros H. unfold new_VideoStream in H. step H.
  destruct (new_BaseStream_inv _ _ E) as (Hn & _).
  rewrite !(get_prop _ _ Hn) in H. cbn [bind] in H.
  do 18 step H. injection H as <-. cbn. conjs; reflexivity || assumption.
Qed.

Lemma new_AudioStream_inv info s :
  new_AudioStream info = Ok s ->
  new_BaseStream info = Ok (audio_base s) /\
  ToString (prop info "codec_name") = Ok (audio_codec s) /\
  profile_of (prop info "profile") = Ok (audio_profile s) /\
  ToString (prop info "sample_fmt") = Ok (sampleFormat s) /\
  ushr0 (prop info "sample_rate") = Ok (sampleRate s) /\
  ushr0 (prop info "channels") = Ok (channels s) /\
  ToString (prop info "channel_layout") = Ok (channelLayout s) /\
  ushr0 (prop info "bits_per_sample") = Ok (bitsPerSample s).
Proof.
  intros H. unfold new_AudioStream in H. step H.
  destruct (new_BaseStream_inv _ _ E) as (Hn & _).
  rewrite !(get_prop _ _ Hn) in H. cbn [bind] in H.
  do 7 step H. injection H as <-. cbn. conjs; reflexivity || assumption.
Qed.

Lemma new_SubtitleStream_inv info s :
  new_SubtitleStream info = Ok s ->
  new_BaseStream info = Ok (subtitle_base s) /\
  ToString (prop info "codec_name") = Ok (subtitle_codec s).
Proof.
  intros H. unfold new_SubtitleStream in H. step H.
  destruct (new_BaseStream_inv _ _ E) as (Hn & _).
  rewrite !(get_prop _ _ Hn) in H. cbn [bind] in H.
  step H. injection H as <-. cbn. conjs; reflexivity || assumption.
Qed.

Lemma new_DataStream_inv info s :
  new_DataStream info = Ok s ->
  new_BaseStream info = Ok (data_base s) /\
  ToString (prop info "codec_name") = Ok (data_codec s).
Proof.
  intros H. unfold new_DataStream in H. step H.
  destruct (new_BaseStream_inv _ _ E) as (Hn & _).
  rewrite !(get_prop _ _ Hn) in H. cbn [bind] in H.
  step H. injection H as <-. cbn. conjs; reflexivity || assumption.
Qed.

Lemma new_Chapter_inv info c :
  new_Chapter info = Ok c ->
  nullish info = false /\
  ushr0 (prop info "id") = Ok (chapter_id c) /\
  micros (prop info "start") = Ok (chapter_start c) /\
  micros (prop info "end") = Ok (chapter_end c) /\
  tags (prop info "tags") = Ok (chapter_tags c).
Proof.
  intros H.
  destruct (nullish info) eqn:Hn.
  { unfold new_Chapter in H. rewrite (get_nullish _ _ Hn) in H.
    discriminate H. }
  unfold new_Chapter in H. rewrite !(get_prop _ _ Hn) in H.
  cbn [bind] in H. do 4 step H. injection H as <-. cbn.
  conjs; reflexivity || assumption.
Qed.

Lemma new_Chapter_nullish info :
  nullish info = true -> new_Chapter info = Throw TypeError.
Proof.
  intros Hn. unfold new_Chapter. now rewrite (get_nullish _ _ Hn).
Qed.

Lemma toStream_nullish info :
  nullish info = true -> toStream info = Throw TypeError.
Proof.
  intros Hn. unfold toStream. now rewrite (get_nullish _ _ Hn).
Qed.

(** [toStream]: the variant of the media-type text, built by the
    constructor of that variant. *)
Lemma toStream_inv info s :
  toStream info = Ok s ->
  nullish info = false /\
  exists type, ToString (prop info "codec_type") = Ok type /\
    kind_of s = kind_of_text type /\
    match s with
    | Video v => new_VideoStream info = Ok v
    | Audio a => new_AudioStream info = Ok a
    | Subtitle t => new_SubtitleStream info = Ok t
    | Data d => new_DataStream info = Ok d
    end.
Proof.
  intros H.
  destruct (nullish info) eqn:Hn.
  { rewrite (toStream_nullish _ Hn) in H. discriminate H. }
  split; [reflexivity|].
  unfold toStream in H. rewrite (get_prop _ _ Hn) in H. cbn [bind] in H.
  step H. exists a. split; [reflexivity|]. unfold kind_of_text.
  destruct (String.eqb a "video");
    [step H; injection H as <-; now split|].
  destruct (String.eqb a "audio");
    [step H; injection H as <-; now split|].
  destruct (String.eqb a "subtitle");
    [step H; injection H as <-; now split|].
  step H. injection H as <-. now split.
Qed.

Lemma base_of_toStream info s :
  toStream info = Ok s -> new_BaseStream info = Ok (base_of s).
Proof.
  intros H. destruct (toStream_inv _ _ H) as (_ & type & _ & _ & Hs).
  destruct s as [v|a|t|d]; cbn [base_of].
  - apply (new_VideoStream_inv _ _ Hs).
  - apply (new_AudioStream_inv _ _ Hs).
  - apply (new_SubtitleStream_inv _ _ Hs).
  - apply (new_DataStream_inv _ _ Hs).
Qed.

(** On a clean record that is not [undefined] or [null] every constructor
    returns. *)
Ltac field Hc :=
  match goal with
  | |- exists _, bind (?r (prop ?o ?k)) _ = Ok _ =>
      let y := fresh "y" in
      let E := fresh "E" in
      assert (exists y, r (prop o k) = Ok y) as [y E]
        by (first [ apply ToString_convertible | apply ushr0_total
                  | apply millis_total | apply micros_total
                  | apply or0_total | apply int_total
                  | apply codecTag_total | apply f64_total
                  | apply profile_of_total ];
            apply clean_convertible, clean_prop, Hc);
      rewrite E; cbn [bind]
  | |- exists _, bind (tags (prop ?o ?k)) _ = Ok _ =>
      let y := fresh "y" in
      let E := fresh "E" in
      destruct (tags_clean (prop o k) (clean_prop o k Hc)) as [y E];
      rewrite E; cbn [bind]
  end.

Lemma new_BaseStream_clean info :
  nullish info = false -> clean info = true ->
  exists b, new_BaseStream info = Ok b.
Proof.
  intros Hn Hc. unfold new_BaseStream. rewrite !(get_prop _ _ Hn).
  cbn [bind]. repeat field Hc. eexists; reflexivity.
Qed.

Lemma new_VideoStream_clean info :
  nullish info = false -> clean info = true ->
  exists s, new_VideoStream info = Ok s.
Proof.
  intros Hn Hc. unfold new_VideoStream.
  destruct (new_BaseStream_clean info Hn Hc) as [b ->].
  rewrite !(get_prop _ _ Hn). cbn [bind]. repeat field Hc.
  eexists; reflexivity.
Qed.

Lemma new_AudioStream_clean info :
  nullish info = false -> clean info = true ->
  exists s, new_AudioStream info = Ok s.
Proof.
  intros Hn Hc. unfold new_AudioStream.
  destruct (new_BaseStream_clean info Hn Hc) as [b ->].
  rewrite !(get_prop _ _ Hn). cbn [bind]. repeat field Hc.
  eexists; reflexivity.
Qed.

Lemma new_SubtitleStream_clean info :
  nullish info = false -> clean info = true ->
  exists s, new_SubtitleStream info = Ok s.
Proof.
  intros Hn Hc. unfold new_SubtitleStream.
  destruct (new_BaseStream_clean info Hn Hc) as [b ->].
  rewrite !(get_prop _ _ Hn). cbn [bind]. repeat field Hc.
  eexists; reflexivity.
Qed.

Lemma new_DataStream_clean info :
  nullish info = false -> clean info = true ->
  exists s, new_DataStream info = Ok s.
Proof.
  intros Hn Hc. unfold new_DataStream.
  destruct (new_BaseStream_clean info Hn Hc) as [b ->].
  rewrite !(get_prop _ _ Hn). cbn [bind]. repeat field Hc.
  eexists; reflexivity.
Qed.

Lemma new_Chapter_clean info :
  nullish info = false -> clean info = true ->
  exists c, new_Chapter info = Ok c.
Proof.
  intros Hn Hc. unfold new_Chapter. rewrite !(get_prop _ _ Hn).
  cbn [bind]. repeat field Hc. eexists; reflexivity.
Qed.

Lemma toStream_clean info :
  nullish info = false -> clean info = true ->
  exists s, toStream info = Ok s.
Proof.
  intros Hn Hc. unfold toStream. rewrite (get_prop _ _ Hn). cbn [bind].
  field Hc.
  destruct (String.eqb y "video");
    [destruct (new_VideoStream_clean info Hn Hc) as [s ->];
     eexists; reflexivity|].
  destruct (String.eqb y "audio");
    [destruct (new_AudioStream_clean info Hn Hc) as [s ->];
     eexists; reflexivity|].
  destruct (String.eqb y "subtitle");
    [destruct (new_SubtitleStream_clean info Hn Hc) as [s ->];
     eexists; reflexivity|].
  destruct (new_DataStream_clean info Hn Hc) as [s ->].
  eexists; reflexivity.
Qed.

(** A constructor that does not return throws a [TypeError]. *)
Lemma not_Ok_throws {A} (r : result A) :
  TypeError_only r -> (forall a, r <> Ok a) -> r = Throw TypeError.
Proof.
  intros Ho Hn. destruct r as [a|e]; [now destruct (Hn a)|].
  now rewrite (Ho e eq_refl).
Qed.

(** The numbers of a stream and of a chapter. *)
Lemma toStream_numbers x s : toStream x = Ok s -> stream_numbers x s.
Proof.
  intros H. pose proof (base_of_toStream _ _ H) as Hb.
  destruct (new_BaseStream_inv _ _ Hb)
    as (_ & Hi & _ & _ & Hst & Hd & Hr & _).
  destruct (toStream_inv _ _ H) as (_ & type & _ & _ & Hs).
  unfold stream_numbers. cbv zeta.
  split; [now apply ushr0_Ok|]. split; [now apply millis_Ok|].
  split; [now apply millis_Ok|]. split; [now apply int_Ok|].
  destruct s as [v|a|t|d]; try exact I.
  - destruct (new_VideoStream_inv _ _ Hs)
      as (_ & _ & _ & H1 & H2 & H3 & H4 & _ & _ & H5 & _ & _ & _ & _ & _
          & _ & H6 & H7 & H8).
    repeat split; try assumption;
      try (now apply int_Ok); now apply ushr0_Ok.
  - destruct (new_AudioStream_inv _ _ Hs)
      as (_ & _ & _ & _ & H1 & H2 & _ & H3).
    repeat split; now apply ushr0_Ok.
Qed.

Lemma new_Chapter_numbers x c : new_Chapter x = Ok c -> chapter_numbers x c.
Proof.
  intros H. destruct (new_Chapter_inv _ _ H) as (_ & Hi & Hs & He & _).
  repeat split; [now apply ushr0_Ok|now apply micros_Ok|now apply micros_Ok].
Qed.

(** *** [Array.prototype.map.call] *)

Lemma map_call_nullish {B} (f : value -> result B) o :
  nullish o = true -> map_call f o = Throw TypeError.
Proof. destruct o; try discriminate; reflexivity. Qed.

Lemma mapM_some {A B} (f : A -> result B) l ys :
  mapM (fun x => let* y := f x in Ok (Some y)) l = Ok ys ->
  exists zs, ys = map Some zs /\ mapM f l = Ok zs.
Proof.
  revert ys. induction l as [|x l IH]; intros ys; cbn [mapM].
  - intros [= <-]. now exists [].
  - destruct (f x) as [y|]; cbn [bind]; [|discriminate].
    destruct (mapM _ l) as [ys'|]; cbn [bind]; [|discriminate].
    intros [= <-]. destruct (IH ys' eq_refl) as (zs & -> & ->).
    now exists (y :: zs).
Qed.

Lemma some_mapM {A B} (f : A -> result B) l zs :
  mapM f l = Ok zs ->
  mapM (fun x => let* y := f x in Ok (Some y)) l = Ok (map Some zs).
Proof.
  revert zs. induction l as [|x l IH]; intros zs; cbn [mapM].
  - now intros [= <-].
  - destruct (f x) as [y|]; cbn [bind]; [|discriminate].
    destruct (mapM f l) as [zs'|]; cbn [bind]; [|discriminate].
    intros [= <-]. now rewrite (IH zs' eq_refl).
Qed.

Lemma map_call_array {B} (f : value -> result B) items ys :
  map_call f (VArr items) = Ok ys <->
  exists zs, ys = map Some zs /\ mapM f items = Ok zs.
Proof.
  split.
  - apply mapM_some.
  - intros (zs & -> & H). now apply some_mapM.
Qed.

Lemma every_map_Some {A} (P : A -> Prop) l :
  every P (map Some l) <-> Forall P l.
Proof.
  unfold every. induction l as [|x l IH]; cbn [map].
  - split; constructor.
  - split; intros H; inversion H; subst; constructor; tauto.
Qed.

Lemma mapM_every {A B} (g : A -> result (option B)) (P : B -> Prop) l ys :
  (forall x y, g x = Ok (Some y) -> P y) ->
  mapM g l = Ok ys -> every P ys.
Proof.
  intros Hg. revert ys. induction l as [|x l IH]; intros ys; cbn [mapM].
  - intros [= <-]. constructor.
  - destruct (g x) as [y|] eqn:Hx; cbn [bind]; [|discriminate].
    destruct (mapM g l) as [ys'|]; cbn [bind]; [|discriminate].
    intros [= <-]. constructor; [|now apply IH].
    destruct y as [y|]; [now apply (Hg x)|exact I].
Qed.

(** Every element of the array that is no hole is the result of the
    callback on some value. *)
Lemma map_call_every {B} (f : value -> result B) (P : B -> Prop) o ys :
  (forall x y, f x = Ok y -> P y) ->
  map_call f o = Ok ys -> every P ys.
Proof.
  intros Hf.
  assert (Hsome : forall x y,
             (let* z := f x in Ok (Some z)) = Ok (Some y) -> P y).
  { intros x y. destruct (f x) as [z|] eqn:Hx; cbn [bind]; [|discriminate].
    intros [= <-]. now apply (Hf x). }
  destruct o; cbn [map_call]; try discriminate.
  - intros [= <-]. constructor.
  - intros [= <-]. constructor.
  - now apply mapM_every.
  - now apply mapM_every.
  - destruct (match lookup "length" props with
              | Some v => ToNumber v
              | None => Ok NaN
              end) as [n|]; cbn [bind]; [|discriminate].
    destruct (2 ^ 32 - 1 <? ToLength n); [discriminate|].
    apply mapM_every. intros i y.
    destruct (lookup _ props) as [x|]; [apply Hsome|discriminate].
Qed.

(** *** The probe result *)

Lemma new_ProbeResult_inv info p :
  new_ProbeResult info = Ok p ->
  let formatInfo := prop info "format" in
  nullish info = false /\ nullish formatInfo = false /\
  ToString (prop formatInfo "format_name") = Ok (format p) /\
  millis (prop formatInfo "start_time") = Ok (probe_start p) /\
  millis (prop formatInfo "duration") = Ok (probe_duration p) /\
  int (prop formatInfo "bit_rate") = Ok (probe_bitrate p) /\
  or0 (prop formatInfo "probe_score") = Ok (score p) /\
  tags (prop formatInfo "tags") = Ok (probe_tags p) /\
  map_call toStream (prop info "streams") = Ok (streams p) /\
  map_call new_Chapter (prop info "chapters") = Ok (chapters p) /\
  private p = info.
Proof.
  intros H formatInfo.
  destruct (nullish info) eqn:Hn.
  { unfold new_ProbeResult in H. rewrite (get_nullish _ _ Hn) in H.
    discriminate H. }
  unfold new_ProbeResult in H. rewrite !(get_prop _ _ Hn) in H.
  cbn [bind] in H. fold formatInfo in H.
  destruct (nullish formatInfo) eqn:Hf.
  { rewrite (get_nullish _ _ Hf) in H. discriminate H. }
  rewrite !(get_prop _ _ Hf) in H. cbn [bind] in H.
  do 8 step H. injection H as <-. cbn. conjs; reflexivity || assumption.
Qed.

Lemma new_ProbeResult_clean info ss cs :
  nullish info = false -> clean info = true ->
  nullish (prop info "format") = false ->
  prop info "streams" = VArr ss -> prop info "chapters" = VArr cs ->
  Forall (fun x => nullish x = false) ss ->
  Forall (fun x => nullish x = false) cs ->
  exists p, new_ProbeResult info = Ok p.
Proof.
  intros Hn Hc Hf Hss Hcs Fs Fc.
  pose proof (clean_prop info "format" Hc) as Hcf.
  pose proof (clean_prop info "streams" Hc) as Hcs'.
  pose proof (clean_prop info "chapters" Hc) as Hcc.
  rewrite Hss in Hcs'. rewrite Hcs in Hcc. cbn [clean] in Hcs', Hcc.
  rewrite forallb_forall in Hcs', Hcc. rewrite Forall_forall in Fs, Fc.
  unfold new_ProbeResult. rewrite !(get_prop _ _ Hn). cbn [bind].
  rewrite !(get_prop _ _ Hf). cbn [bind]. repeat field Hcf.
  rewrite Hss, Hcs.
  destruct (mapM_total toStream ss) as [zs Hzs].
  { apply Forall_forall. intros x Hx. apply toStream_clean; auto. }
  destruct (mapM_total new_Chapter cs) as [ws Hws].
  { apply Forall_forall. intros x Hx. apply new_Chapter_clean; auto. }
  rewrite (proj2 (map_call_array toStream ss _) (ex_intro _ zs
                                                   (conj eq_refl Hzs))).
  cbn [bind].
  rewrite (proj2 (map_call_array new_Chapter cs _) (ex_intro _ ws
                                                      (conj eq_refl Hws))).
  cbn [bind]. eexists; reflexivity.
Qed.

(** The format is read with fields that throw a [TypeError] only; the
    arrays can throw a [RangeError] too. *)
Lemma new_ProbeResult_no_format info :
  nullish info = true \/ nullish (prop info "format") = true ->
  new_ProbeResult info = Throw TypeError.
Proof.
  unfold new_ProbeResult. destruct (nullish info) eqn:Hn.
  - intros _. now rewrite (get_nullish _ _ Hn).
  - intros [H|H]; [discriminate|].
    rewrite (get_prop _ _ Hn). cbn [bind]. now rewrite (get_nullish _ _ H).
Qed.

Lemma new_ProbeResult_no_streams info :
  nullish (prop info "streams") = true ->
  new_ProbeResult info = Throw TypeError.
Proof.
  intros H. unfold new_ProbeResult.
  destruct (nullish info) eqn:Hn; [now rewrite (get_nullish _ _ Hn)|].
  rewrite !(get_prop _ _ Hn). cbn [bind].
  destruct (nullish (prop info "format")) eqn:Hf;
    [now rewrite (get_nullish _ _ Hf)|].
  rewrite !(get_prop _ _ Hf). cbn [bind].
  rewrite (map_call_nullish toStream _ H). cbn [bind].
  repeat match goal with
         | |- bind ?r _ = Throw TypeError =>
             let E := fresh "E" in
             destruct r as [?|e] eqn:E; cbn [bind];
             [|f_equal;
               first [ exact (only_ToString _ _ E) | exact (only_millis _ _ E)
                     | exact (only_int _ _ E) | exact (only_or0 _ _ E)
                     | exact (only_tags _ _ E) ]]
         end.
  reflexivity.
Qed.

Lemma new_ProbeResult_no_chapters info :
  nullish (prop info "chapters") = true ->
  exists e, new_ProbeResult info = Throw e.
Proof.
  intros H. destruct (new_ProbeResult info) as [p|e] eqn:E;
    [|now exists e].
  destruct (new_ProbeResult_inv _ _ E)
    as (_ & _ & _ & _ & _ & _ & _ & _ & _ & Hc & _).
  rewrite (map_call_nullish new_Chapter _ H) in Hc. discriminate Hc.
Qed.

(** *** Splitting a fraction *)

Lemma split_no_slash t : has_char "/" t = false -> Str.split "/" t = [t].
Proof.
  induction t as [|c t IH]; simpl; [reflexivity|].
  intros H. apply orb_false_elim in H as [Hc Ht].
  rewrite Hc, (IH Ht). reflexivity.
Qed.

Lemma split_slash x r :
  has_char "/" x = false ->
  Str.split "/" (x ++ String "/" r) = x :: Str.split "/" r.
Proof.
  induction x as [|c x IH]; simpl; [reflexivity|].
  intros H. apply orb_false_elim in H as [Hc Hx].
  rewrite Hc, (IH Hx). reflexivity.
Qed.

Lemma split_two x y :
  has_char "/" x = false -> has_char "/" y = false ->
  Str.split "/" (x ++ String "/" y) = [x; y].
Proof.
  intros Hx Hy. now rewrite (split_slash x y Hx), (split_no_slash y Hy).
Qed.

(** A text has no slash, or a first piece before its first slash. *)
Lemma cut_slash t :
  has_char "/" t = false \/
  exists x r, has_char "/" x = false /\ t = (x ++ "/" ++ r)%string.
Proof.
  induction t as [|c t IH]; [now left|]. cbn [has_char].
  destruct (Ascii.eqb_spec c "/") as [->|N].
  - right. now exists "", t.
  - destruct IH as [H|(x & r & Hx & ->)]; [now left|right].
    exists (String c x), r. split; [|reflexivity].
    cbn [has_char]. rewrite Hx, orb_false_r. now apply Ascii.eqb_neq.
Qed.

(** The fraction of a text is that of its first two pieces. *)
Lemma f64_of_text v t : ToString v = Ok t -> f64 v = f64 (VStr t).
Proof. intros H. unfold f64. now rewrite H. Qed.

Lemma f64_pieces x y parts :
  (let x0 := nth_error (x :: y :: parts) 0 in
   let y0 := nth_error (x :: y :: parts) 1 in
   if negb (optional_truthy x0) || negb (optional_truthy y0)
   then Ok (of_Z (-1))
   else if is_nan (optional_number x0) || is_nan (optional_number y0)
        then Ok (of_Z (-1))
        else Ok (div (optional_number x0) (optional_number y0)))
  = Ok (fraction_value x y).
Proof.
  cbn [nth_error optional_truthy optional_number]. unfold fraction_value.
  destruct (String.eqb x ""), (String.eqb y ""); cbn; try reflexivity.
  now destruct (is_nan _ || is_nan _).
Qed.

Lemma f64_one_piece x :
  has_char "/" x = false -> f64 (VStr x) = Ok (of_Z (-1)).
Proof.
  intros Hx. unfold f64. cbn [ToString bind]. rewrite (split_no_slash x Hx).
  cbn [nth_error optional_truthy]. now rewrite orb_true_r.
Qed.

Lemma f64_two_pieces x y :
  has_char "/" x = false -> has_char "/" y = false ->
  f64 (VStr (x ++ "/" ++ y)) = Ok (fraction_value x y).
Proof.
  intros Hx Hy. unfold f64. cbn [ToString bind].
  change (x ++ "/" ++ y)%string with (x ++ String "/" y)%string.
  rewrite (split_two x y Hx Hy). apply (f64_pieces x y []).
Qed.

Lemma f64_more_pieces x y rest :
  has_char "/" x = false -> has_char "/" y = false ->
  f64 (VStr (x ++ "/" ++ y ++ "/" ++ rest)) = Ok (fraction_value x y).
Proof.
  intros Hx Hy. unfold f64. cbn [ToString bind].
  change (x ++ "/" ++ y ++ "/" ++ rest)%string
    with (x ++ String "/" (y ++ String "/" rest))%string.
  rewrite (split_slash x _ Hx), (split_slash y _ Hy). apply f64_pieces.
Qed.

(** Every text is of one of the three forms. *)
Lemma text_forms t :
  has_char "/" t = false \/
  exists x r, has_char "/" x = false /\ t = (x ++ "/" ++ r)%string /\
    (has_char "/" r = false \/
     exists y rest, has_char "/" y = false /\
                    r = (y ++ "/" ++ rest)%string).
Proof.
  destruct (cut_slash t) as [H|(x & r & Hx & ->)]; [now left|right].
  exists x, r. split; [assumption|]. split; [reflexivity|].
  destruct (cut_slash r) as [H|(y & rest & Hy & ->)]; [now left|right].
  now exists y, rest.
Qed.

(** Division by a zero. *)
Lemma div_by_zero a b :
  is_zero b = true -> is_nan a = false ->
  div a b = if is_zero a then NaN
            else S754_infinity (xorb (negative a) (negative b)).
Proof.
  destruct b; try discriminate. destruct a; try discriminate; reflexivity.
Qed.

End TypesFacts.

(** ** The serializer *)

Module SerializerFacts.

Import Regexp Spec StringTs EscapeFacts.

Lemma render_entries (l : list (string * unknown)) :
  mapM (fun '(key, value) =>
          let* t := stringifyValue value in
          Ok (key ++ "=" ++ escapeFilterValue t)%string) l
  = let* texts := mapM stringifyValue (map snd l) in
    Ok (map (fun e => key_value (fst e, escapeFilterValue (snd e)))
            (combine (map fst l) texts)).
Proof.
  induction l as [|[k v] l IH]; [reflexivity|].
  cbn [mapM map fst snd]. destruct (stringifyValue v) as [t|e]; cbn [bind];
    [|reflexivity].
  rewrite IH. destruct (mapM stringifyValue (map snd l)) as [ts|e];
    cbn [bind]; reflexivity.
Qed.

Lemma object_rendering object texts :
  mapM stringifyValue (map snd (present object)) = Ok texts ->
  stringifyObjectColonSeparated object
  = Ok (Str.join ":"
          (map (fun e => key_value (fst e, escapeFilterValue (snd e)))
               (combine (map fst (present object)) texts))).
Proof.
  intros H. unfold stringifyObjectColonSeparated. fold (present object).
  now rewrite render_entries, H.
Qed.

Lemma present_none object :
  Forall (fun e => isNullish (snd e) = true) object -> present object = [].
Proof.
  induction 1 as [|[k v] l Hv _ IH]; [reflexivity|].
  unfold present in *. cbn [filter]. cbn [snd] in Hv. now rewrite Hv.
Qed.

Lemma filter_none (array : list unknown) :
  Forall (fun v => isNullish v = true) array ->
  filter (fun v => negb (isNullish v)) array = [].
Proof.
  induction 1 as [|v l Hv _ IH]; [reflexivity|].
  cbn [filter]. now rewrite Hv.
Qed.

Lemma description_key_value k t :
  escapeFilterDescription (key_value (k, t))
  = key_value (escapeFilterDescription k, escapeFilterDescription t).
Proof.
  unfold key_value, escapeFilterDescription. cbn [fst snd].
  now rewrite !replace_app.
Qed.

Lemma description_join (parts : list string) :
  escapeFilterDescription (Str.join ":" parts)
  = Str.join ":" (map escapeFilterDescription parts).
Proof.
  induction parts as [|x [|y parts] IH]; [reflexivity..|].
  change (Str.join ":" (x :: y :: parts))
    with (x ++ ":" ++ Str.join ":" (y :: parts))%string.
  change (map escapeFilterDescription (x :: y :: parts))
    with (escapeFilterDescription x
          :: map escapeFilterDescription (y :: parts)).
  change (Str.join ":" (escapeFilterDescription x
                        :: map escapeFilterDescription (y :: parts)))
    with (escapeFilterDescription x ++ ":"
          ++ Str.join ":" (map escapeFilterDescription (y :: parts)))%string.
  rewrite <- IH. unfold escapeFilterDescription.
  now rewrite !replace_app.
Qed.

End SerializerFacts.

(** * The claims *)

Import Regexp Spec StringTs TypesTs.

(** ** The timestamp parser *)

(** C1, as stated: on ["01:02:03.5"] the parser would return 62003500. It
    does not. *)
Lemma parseTimestamp_example_is_not_62003500 :
  parseTimestamp "01:02:03.5" <> Some (Num.of_Z 62003500).
Proof. vm_compute. discriminate. Qed.

(** C1, amended: on a text that starts with [[-]HH:MM:SS[.fraction]], the
    fraction not continued by the rest, the parser returns the sign times
    the sum of the hours times 3600000, the minutes times 60000, the seconds
    times 1000 and, with a fraction, of the number the fraction text spells
    with its point ([".5"] is 0.5) times 1000; on ["01:02:03.5"] that is
    3723500. *)
Theorem parseTimestamp_rule (neg : bool) (h1 h2 m1 m2 s1 s2 : ascii)
    (fr rest : string) :
  Conv.is_digit h1 = true -> Conv.is_digit h2 = true ->
  Conv.is_digit m1 = true -> Conv.is_digit m2 = true ->
  Conv.is_digit s1 = true -> Conv.is_digit s2 = true ->
  fraction_part fr -> ends_fraction fr rest = true ->
  parseTimestamp
    (sign_text neg ++
     String h1 (String h2 (String ":"
       (String m1 (String m2 (String ":"
          (String s1 (String s2 (fr ++ rest)))))))))
  = Some (timestamp_value neg (Some (digits2 h1 h2)) (digits2 m1 m2)
            (digits2 s1 s2) fr) /\
  Conv.StringToNumber (digits2 h1 h2)
  = Num.of_Z (10 * digit_of h1 + digit_of h2) /\
  Conv.StringToNumber (digits2 m1 m2)
  = Num.of_Z (10 * digit_of m1 + digit_of m2) /\
  Conv.StringToNumber (digits2 s1 s2)
  = Num.of_Z (10 * digit_of s1 + digit_of s2).
Proof.
  intros Hh1 Hh2 Hm1 Hm2 Hs1 Hs2 Hfr He. split.
  - apply TimestampFacts.value_of_captures; [assumption| |].
    + now apply TimestampFacts.exec_HH_MM_SS.
    + intros h [= <-]. reflexivity.
  - repeat split; now apply TimestampFacts.two_digits_number.
Qed.

Lemma parseTimestamp_rule_witness :
  parseTimestamp "01:02:03.5" = Some (Num.of_Z 3723500) /\
  Num.of_Z 3723500
  = Num.add (Num.add (Num.add (Num.mul (Num.of_Z 1) (Num.of_Z 3600000))
                               (Num.mul (Num.of_Z 2) (Num.of_Z 60000)))
                      (Num.mul (Num.of_Z 3) (Num.of_Z 1000)))
            (Num.mul (Num.of_ratio false 5 10) (Num.of_Z 1000)).
Proof.
  split; [|vm_compute; reflexivity].
  refine (eq_trans
            (proj1 (parseTimestamp_rule false "0" "1" "0" "2" "0" "3" ".5" ""
                      eq_refl eq_refl eq_refl eq_refl eq_refl eq_refl
                      (or_intror
                         (ex_intro _ "5"
                            (conj (fun E => _) (conj eq_refl eq_refl))))
                      eq_refl))
            _).
  - discriminate E.
  - vm_compute. reflexivity.
Defined.

(** X2: on a text that starts with [[-]MM:SS[.fraction]], with no colon
    after the seconds and the fraction not continued by the rest, the
    parser returns the sign times the sum of the minutes times 60000, the
    seconds times 1000 and, with a fraction, the number it spells times
    1000: the hours count for nothing. *)
Lemma parseTimestamp_rule_no_hours (neg : bool) (m1 m2 s1 s2 : ascii)
    (fr rest : string) :
  Conv.is_digit m1 = true -> Conv.is_digit m2 = true ->
  Conv.is_digit s1 = true -> Conv.is_digit s2 = true ->
  fraction_part fr -> ends_fraction fr rest = true ->
  starts_with ":" (fr ++ rest) = false ->
  parseTimestamp
    (sign_text neg ++
     String m1 (String m2 (String ":" (String s1 (String s2 (fr ++ rest))))))
  = Some (timestamp_value neg None (digits2 m1 m2) (digits2 s1 s2) fr).
Proof.
  intros Hm1 Hm2 Hs1 Hs2 Hfr He Hc.
  apply TimestampFacts.value_of_captures; [assumption| |].
  - now apply TimestampFacts.exec_MM_SS.
  - discriminate.
Qed.

(** C9: a text with no run of characters of the shape
    [[-][HH:]MM:SS[.fraction]] has no timestamp: [parseTimestamp] returns
    the absence, which is not what a text that parses to zero returns. *)
Theorem parseTimestamp_absent (s : string) :
  ~ has_timestamp s ->
  parseTimestamp s = None /\
  parseTimestamp "00:00" = Some (Num.of_Z 0) /\
  parseTimestamp s <> parseTimestamp "00:00".
Proof.
  intros H.
  assert (Hn : parseTimestamp s = None).
  { apply TimestampFacts.parseTimestamp_none, RegexpFacts.exec_none.
    intros pre t post E Hm. apply H. exists pre, t, post. split; [exact E|].
    now apply TimestampFacts.matches_timestamp. }
  split; [exact Hn|]. split; [reflexivity|]. rewrite Hn. discriminate.
Qed.

Lemma parseTimestamp_absent_witness :
  parseTimestamp "not-a-time" = None /\
  parseTimestamp "00:00" = Some (Num.of_Z 0) /\
  parseTimestamp "not-a-time" <> parseTimestamp "00:00".
Proof.
  apply (parseTimestamp_absent "not-a-time").
  intros H. apply TimestampFacts.has_timestamp_colon in H.
  vm_compute in H. discriminate.
Defined.

(** X1, the converse of C9: a text that holds a timestamp somewhere is
    parsed. *)
Lemma parseTimestamp_present (s : string) :
  has_timestamp s -> exists x, parseTimestamp s = Some x.
Proof.
  intros (pre & t & post & E & Ht).
  destruct (parseTimestamp s) as [x|] eqn:Hp; [now exists x|].
  exfalso.
  apply TimestampFacts.parseTimestamp_none in Hp.
  apply (proj1 (RegexpFacts.exec_none _ _) Hp pre t post E).
  now apply TimestampFacts.matches_timestamp.
Qed.

(** ** Escaping *)

(** C5: each of the four escaping functions puts one backslash before the
    characters of its own set and leaves the others as they are; the empty
    text stays empty. *)
Theorem escape_functions (s : string) :
  (forall t, escaped (fun c => c = "\" \/ c = "'" \/ c = ":")%char s t
             <-> t = escapeFilterValue s) /\
  (forall t, escaped (fun c => c = "\" \/ c = "'" \/ c = "[" \/ c = "]"
                               \/ c = "," \/ c = ";")%char s t
             <-> t = escapeFilterDescription s) /\
  (forall t, escaped (fun c => c = "\" \/ c = "'" \/ c = " ")%char s t
             <-> t = escapeConcatFile s) /\
  (forall t, escaped (fun c => c = "\" \/ c = "'" \/ c = " " \/ c = "|"
                               \/ c = "[" \/ c = "]")%char s t
             <-> t = escapeTeeComponent s) /\
  (escapeFilterValue "" = "" /\ escapeFilterDescription "" = "" /\
   escapeConcatFile "" = "" /\ escapeTeeComponent "" = "") /\
  (unescape (escapeFilterValue s) = s /\
   unescape (escapeFilterDescription s) = s /\
   unescape (escapeConcatFile s) = s /\
   unescape (escapeTeeComponent s) = s).
Proof.
  assert (Hiff : forall (P : ascii -> Prop) l,
            (forall c, In c l <-> P c) ->
            forall t, escaped P s t
                      <-> t = replace_cls (one_of l) backslash s).
  { intros P l HP t.
    assert (He : escaped P s (replace_cls (one_of l) backslash s)).
    { eapply EscapeFacts.escaped_ext; [exact HP|].
      apply EscapeFacts.replace_escaped. }
    split; [intros Ht; exact (EscapeFacts.escaped_fun P s _ _ Ht He)|].
    now intros ->. }
  split; [apply Hiff; intros c; simpl; intuition congruence|].
  split; [apply Hiff; intros c; simpl; intuition congruence|].
  split; [apply Hiff; intros c; simpl; intuition congruence|].
  split; [apply Hiff; intros c; simpl; intuition congruence|].
  split; [repeat split|].
  repeat split; apply EscapeFacts.unescape_replace; simpl; auto.
Qed.

(** ** The probe mapper *)

(** C8, as stated: every source value of such a field would be coerced to
    a number and reduced, one that is not a number becoming 0, without an
    error. An object with a [toString] property of its own is not coerced:
    reading the field throws a [TypeError], and the constructor with it. *)
Lemma index_of_shadowed_object_throws :
  ushr0 shadowed = Throw TypeError /\
  new_BaseStream (VObj [("index", shadowed)]) = Throw TypeError /\
  ~ exists b, new_BaseStream (VObj [("index", shadowed)]) = Ok b.
Proof.
  split; [reflexivity|]. split; [reflexivity|].
  intros [b H]. discriminate H.
Qed.

(** C8, amended: a source the conversion to a primitive accepts (any value
    but an object with a [toString] property of its own, or an array that
    holds one) is coerced to a number, and [>>> 0] gives that number cut to
    an integer and reduced modulo 2^32 into [0, 2^32), 0 when it is NaN or
    infinite; any other source throws a [TypeError]. A constructor that
    returns has read the stream index, level, bits per raw sample, sample
    rate, channels, bits per sample and chapter id in this way; it returns
    on every clean record, and throws a [TypeError] when the source of one
    of these fields is not accepted. *)
Theorem uint32_fields (v : value) :
  (convertible v = true ->
   exists n y, ToNumber v = Ok n /\ ushr0 v = Ok y /\ reduced_uint32 n y /\
               (Num.is_nan n = true -> y = Num.of_Z 0)) /\
  (convertible v = false -> ushr0 v = Throw TypeError) /\
  (forall info b, new_BaseStream info = Ok b ->
     ushr0 (prop info "index") = Ok (index b)) /\
  (forall info s, new_VideoStream info = Ok s ->
     ushr0 (prop info "level") = Ok (level s) /\
     ushr0 (prop info "bits_per_raw_sample") = Ok (bitsPerRawSample s)) /\
  (forall info s, new_AudioStream info = Ok s ->
     ushr0 (prop info "sample_rate") = Ok (sampleRate s) /\
     ushr0 (prop info "channels") = Ok (channels s) /\
     ushr0 (prop info "bits_per_sample") = Ok (bitsPerSample s)) /\
  (forall info c, new_Chapter info = Ok c ->
     ushr0 (prop info "id") = Ok (chapter_id c)) /\
  (forall info, nullish info = false -> clean info = true ->
     (exists b, new_BaseStream info = Ok b) /\
     (exists s, new_VideoStream info = Ok s) /\
     (exists s, new_AudioStream info = Ok s) /\
     (exists c, new_Chapter info = Ok c)) /\
  (forall info,
     (convertible (prop info "index") = false ->
      new_BaseStream info = Throw TypeError) /\
     (convertible (prop info "level") = false \/
      convertible (prop info "bits_per_raw_sample") = false ->
      new_VideoStream info = Throw TypeError) /\
     (convertible (prop info "sample_rate") = false \/
      convertible (prop info "channels") = false \/
      convertible (prop info "bits_per_sample") = false ->
      new_AudioStream info = Throw TypeError) /\
     (convertible (prop info "id") = false ->
      new_Chapter info = Throw TypeError)).
Proof.
  split; [|split; [|split; [|split; [|split; [|split; [|split]]]]]].
  - intros H. destruct (TypesFacts.ushr0_total v H) as [y Hy].
    destruct (TypesFacts.ushr0_Ok v y Hy) as (n & Hn & Hr).
    exists n, y. repeat split; try assumption.
    intros Hnan. exact (TypesFacts.reduced_uint32_nan n y Hnan Hr).
  - apply TypesFacts.ushr0_throws.
  - intros info b H. apply (TypesFacts.new_BaseStream_inv _ _ H).
  - intros info s H.
    destruct (TypesFacts.new_VideoStream_inv _ _ H)
      as (_ & _ & _ & _ & _ & _ & _ & _ & _ & H5 & _ & _ & _ & _ & _
          & _ & _ & _ & H8).
    now split.
  - intros info s H.
    destruct (TypesFacts.new_AudioStream_inv _ _ H)
      as (_ & _ & _ & _ & H1 & H2 & _ & H3).
    now repeat split.
  - intros info c H. apply (TypesFacts.new_Chapter_inv _ _ H).
  - intros info Hn Hc. split; [|split; [|split]].
    + now apply TypesFacts.new_BaseStream_clean.
    + now apply TypesFacts.new_VideoStream_clean.
    + now apply TypesFacts.new_AudioStream_clean.
    + now apply TypesFacts.new_Chapter_clean.
  - intros info. split; [|split; [|split]].
    + intros C. apply TypesFacts.not_Ok_throws;
        [apply TypesFacts.only_new_BaseStream|].
      intros b H. destruct (TypesFacts.new_BaseStream_inv _ _ H)
        as (_ & Hi & _).
      rewrite (TypesFacts.ushr0_throws _ C) in Hi. discriminate Hi.
    + intros C. apply TypesFacts.not_Ok_throws;
        [apply TypesFacts.only_new_VideoStream|].
      intros s H.
      destruct (TypesFacts.new_VideoStream_inv _ _ H)
        as (_ & _ & _ & _ & _ & _ & _ & _ & _ & H5 & _ & _ & _ & _ & _
            & _ & _ & _ & H8).
      destruct C as [C|C]; rewrite (TypesFacts.ushr0_throws _ C) in *;
        discriminate.
    + intros C. apply TypesFacts.not_Ok_throws;
        [apply TypesFacts.only_new_AudioStream|].
      intros s H.
      destruct (TypesFacts.new_AudioStream_inv _ _ H)
        as (_ & _ & _ & _ & H1 & H2 & _ & H3).
      destruct C as [C|[C|C]]; rewrite (TypesFacts.ushr0_throws _ C) in *;
        discriminate.
    + intros C. apply TypesFacts.not_Ok_throws;
        [apply TypesFacts.only_new_Chapter|].
      intros c H. destruct (TypesFacts.new_Chapter_inv _ _ H)
        as (_ & Hi & _).
      rewrite (TypesFacts.ushr0_throws _ C) in Hi. discriminate Hi.
Qed.

Lemma uint32_fields_witness :
  ushr0 (VNum (Num.of_Z (-1))) = Ok (Num.of_Z 4294967295) /\
  ushr0 (VStr "4294967301") = Ok (Num.of_Z 5) /\
  ushr0 (VStr "stereo") = Ok (Num.of_Z 0) /\
  ushr0 (VArr [VNum (Num.of_Z 7)]) = Ok (Num.of_Z 7) /\
  exists s, new_AudioStream
              (VObj [("codec_type", VStr "audio");
                     ("sample_rate", VStr "48000");
                     ("channels", VNum (Num.of_Z (-2)))]) = Ok s /\
            sampleRate s = Num.of_Z 48000 /\
            channels s = Num.of_Z 4294967294 /\
            bitsPerSample s = Num.of_Z 0.
Proof.
  repeat split; try (vm_compute; reflexivity).
  destruct (proj1 (proj2 (proj2 (proj2 (proj2 (proj2 (proj2
              (uint32_fields VUndefined)))))))
              (VObj [("codec_type", VStr "audio");
                     ("sample_rate", VStr "48000");
                     ("channels", VNum (Num.of_Z (-2)))])
              eq_refl eq_refl)
    as (_ & _ & [s Hs] & _).
  exists s. split; [exact Hs|].
  revert Hs. vm_compute. intros [= <-]. repeat split.
Defined.

(** C10, as stated: a source that is not a number would become 0. An
    object with a [toString] property of its own makes the product, and the
    constructor with it, throw a [TypeError]. *)
Lemma chapter_start_of_shadowed_object_throws :
  micros shadowed = Throw TypeError /\
  new_Chapter (VObj [("id", VNum (Num.of_Z 1)); ("start", shadowed)])
  = Throw TypeError /\
  ~ exists c,
      new_Chapter (VObj [("id", VNum (Num.of_Z 1)); ("start", shadowed)])
      = Ok c.
Proof.
  split; [reflexivity|]. split; [reflexivity|].
  intros [c H]. discriminate H.
Qed.

(** C10, amended: the start and the end of a chapter are the source
    coerced to a number, times 1000000, cut to an integer and reduced modulo
    2^32 into the signed 32-bit range: from 2^31 microseconds on the stored
    value is not the product, and a source that coerces to NaN gives 0. A
    source the conversion to a primitive does not accept throws a
    [TypeError]; on a clean record the constructor returns. *)
Theorem chapter_times_wrap (v : value) :
  (convertible v = true ->
   exists n y,
     let x := Num.mul n (Num.of_Z 1000000) in
     ToNumber v = Ok n /\ micros v = Ok y /\ reduced_int32 x y /\
     (2 ^ 31 <= Num.truncate x -> Num.truncate y <> Num.truncate x) /\
     (Num.is_nan n = true -> y = Num.of_Z 0)) /\
  (convertible v = false -> micros v = Throw TypeError) /\
  (forall info c, new_Chapter info = Ok c ->
     micros (prop info "start") = Ok (chapter_start c) /\
     micros (prop info "end") = Ok (chapter_end c)) /\
  (forall info, nullish info = false -> clean info = true ->
     exists c, new_Chapter info = Ok c) /\
  (forall info,
     nullish info = true \/
     convertible (prop info "start") = false \/
     convertible (prop info "end") = false ->
     new_Chapter info = Throw TypeError).
Proof.
  split; [|split; [|split; [|split]]].
  - intros H. destruct (TypesFacts.micros_total v H) as [y Hy].
    destruct (TypesFacts.micros_Ok v y Hy) as (n & Hn & Hr).
    exists n, y. cbv zeta. split; [exact Hn|]. split; [exact Hy|].
    split; [exact Hr|]. split.
    + intros Hx. destruct Hr as (z & _ & Hz & Ht & _). lia.
    + intros Hnan. apply (TypesFacts.reduced_int32_nan _ _ 
                            (TypesFacts.mul_nan n _ Hnan) Hr).
  - apply TypesFacts.micros_throws.
  - intros info c H.
    destruct (TypesFacts.new_Chapter_inv _ _ H) as (_ & _ & Hs & He & _).
    now split.
  - intros info. apply TypesFacts.new_Chapter_clean.
  - intros info C. apply TypesFacts.not_Ok_throws;
      [apply TypesFacts.only_new_Chapter|].
    intros c H.
    destruct (TypesFacts.new_Chapter_inv _ _ H) as (Hn & _ & Hs & He & _).
    destruct C as [C|[C|C]]; [congruence| |];
      rewrite (TypesFacts.micros_throws _ C) in *; discriminate.
Qed.

Lemma chapter_times_wrap_witness :
  micros (VStr "N/A") = Ok (Num.of_Z 0) /\
  exists c, new_Chapter (VObj [("id", VNum (Num.of_Z 1));
                               ("start", VStr "2147.483647");
                               ("end", VStr "2148.000000")]) = Ok c /\
    chapter_start c = Num.of_Z 2147483647 /\
    chapter_end c = Num.of_Z (-2146967296).
Proof.
  split; [vm_compute; reflexivity|].
  destruct (proj1 (proj2 (proj2 (proj2 (chapter_times_wrap VUndefined))))
              (VObj [("id", VNum (Num.of_Z 1));
                     ("start", VStr "2147.483647");
                     ("end", VStr "2148.000000")]) eq_refl eq_refl)
    as [c Hc].
  exists c. split; [exact Hc|].
  revert Hc. vm_compute. intros [= <-]. split; reflexivity.
Defined.

(** C6, as stated: with both parts present and numbers, a denominator 0
    would give a signed infinity. For ["0/0"] it gives NaN. *)
Lemma f64_zero_over_zero_is_not_infinite :
  Conv.StringToNumber "0" = Num.of_Z 0 /\
  f64 (VStr "0/0") = Ok Num.NaN /\
  Num.is_infinite Num.NaN = false.
Proof. repeat split; vm_compute; reflexivity. Qed.

(** C6, amended: a fraction field depends on the text of its source alone,
    and throws what the conversion of the source to a text throws. Of the
    pieces of the text between its slashes only the first two count. A
    text without a slash, or with an empty first or second piece, or with
    one that is not a number, gives -1; any other text gives the quotient
    of the two numbers, which for a denominator 0 is a signed infinity
    when the numerator is not 0 and NaN when it is. Every text is of one of
    the three forms [x], [x/y] and [x/y/rest] with no slash in [x] and
    [y]. *)
Theorem f64_fraction (x y : string) :
  has_char "/" x = false -> has_char "/" y = false ->
  let a := Conv.StringToNumber x in
  let b := Conv.StringToNumber y in
  (forall v t, ToString v = Ok t -> f64 v = f64 (VStr t)) /\
  (forall v e, ToString v = Throw e -> f64 v = Throw e) /\
  f64 (VStr x) = Ok (Num.of_Z (-1)) /\
  f64 (VStr (x ++ "/" ++ y))
  = Ok (if String.eqb x "" || String.eqb y "" || Num.is_nan a
           || Num.is_nan b
        then Num.of_Z (-1) else Num.div a b) /\
  (forall rest,
     f64 (VStr (x ++ "/" ++ y ++ "/" ++ rest)) = f64 (VStr (x ++ "/" ++ y))) /\
  (forall t,
     has_char "/" t = false \/
     exists x' r, has_char "/" x' = false /\ t = (x' ++ "/" ++ r)%string /\
       (has_char "/" r = false \/
        exists y' rest, has_char "/" y' = false /\
                        r = (y' ++ "/" ++ rest)%string)) /\
  (Num.is_zero b = true -> Num.is_nan a = false ->
   Num.div a b = if Num.is_zero a then Num.NaN
                 else S754_infinity (xorb (negative a) (negative b))) /\
  (forall info s, new_VideoStream info = Ok s ->
     f64 (prop info "frame_rate") = Ok (frameRate s) /\
     f64 (prop info "avg_frame_rate") = Ok (avgFrameRate s)).
Proof.
  intros Hx Hy a b.
  split; [|split; [|split; [|split; [|split; [|split; [|split]]]]]].
  - apply TypesFacts.f64_of_text.
  - intros v e H. unfold f64. rewrite H. reflexivity.
  - now apply TypesFacts.f64_one_piece.
  - exact (TypesFacts.f64_two_pieces x y Hx Hy).
  - intros rest. now rewrite TypesFacts.f64_more_pieces,
                             TypesFacts.f64_two_pieces.
  - apply TypesFacts.text_forms.
  - apply TypesFacts.div_by_zero.
  - intros info s H.
    destruct (TypesFacts.new_VideoStream_inv _ _ H)
      as (_ & _ & _ & _ & _ & _ & _ & _ & _ & _ & _ & _ & _ & _ & _
          & _ & H6 & H7 & _).
    now split.
Qed.

Lemma f64_fraction_witness :
  f64 (VStr "30000/1001")
  = Ok (Num.div (Num.of_Z 30000) (Num.of_Z 1001)) /\
  f64 (VStr "25") = Ok (Num.of_Z (-1)) /\
  f64 (VStr "1/0") = Ok (S754_infinity false) /\
  f64 (VStr "-1/0") = Ok (S754_infinity true) /\
  f64 (VStr "0/0") = Ok Num.NaN /\
  f64 (VStr "/25") = Ok (Num.of_Z (-1)) /\
  f64 (VStr "N/A") = Ok (Num.of_Z (-1)) /\
  f64 (VStr "24/1/2") = Ok (Num.of_Z 24) /\
  f64 VUndefined = Ok (Num.of_Z (-1)) /\
  f64 shadowed = Throw TypeError.
Proof.
  split.
  - refine (eq_trans
              (proj1 (proj2 (proj2 (proj2
                 (f64_fraction "30000" "1001" eq_refl eq_refl)))))
              _).
    vm_compute. reflexivity.
  - repeat split; vm_compute; reflexivity.
Defined.

(** C7, as stated: a media type that is neither of the three texts would
    give a data stream, whatever it is. One that is an object with a
    [toString] property of its own has no text: [toStream] throws a
    [TypeError]. So does a ["video"] record one of whose coerced fields is
    such an object. *)
Lemma toStream_of_shadowed_type_throws :
  toStream (VObj [("codec_type", shadowed)]) = Throw TypeError /\
  (~ exists s, toStream (VObj [("codec_type", shadowed)]) = Ok s) /\
  toStream (VObj [("codec_type", VStr "video"); ("width", shadowed)])
  = Throw TypeError.
Proof.
  split; [reflexivity|]. split; [|reflexivity].
  intros [s H]. discriminate H.
Qed.

(** C7, amended: when [toStream] returns, the variant of the stream is the
    one the text of the media type selects, ["video"], ["audio"],
    ["subtitle"] or, for any other text and for an absent media type, data,
    so that two records with the same media-type text give the same
    variant; a video record without frame rate, start time and duration
    has the frame rate -1 and the start and duration 0. It returns on every
    clean record that is not [undefined] or [null], and throws a
    [TypeError] otherwise: on [undefined] and [null], and when the media
    type is not accepted by the conversion to a primitive. *)
Theorem toStream_variant (info : value) :
  (forall s, toStream info = Ok s ->
     exists type, ToString (prop info "codec_type") = Ok type /\
       kind_of s = kind_of_text type /\
       (prop info "codec_type" = VUndefined -> kind_of s = KData) /\
       (forall v, s = Video v ->
          prop info "frame_rate" = VUndefined ->
          prop info "start_time" = VUndefined ->
          prop info "duration" = VUndefined ->
          frameRate v = Num.of_Z (-1) /\
          start (video_base v) = Num.of_Z 0 /\
          duration (video_base v) = Num.of_Z 0)) /\
  (forall info' s s',
     toStream info = Ok s -> toStream info' = Ok s' ->
     ToString (prop info "codec_type") = ToString (prop info' "codec_type") ->
     kind_of s = kind_of s') /\
  (forall t,
     (kind_of_text t = KVideo <-> t = "video") /\
     (kind_of_text t = KAudio <-> t = "audio") /\
     (kind_of_text t = KSubtitle <-> t = "subtitle") /\
     (kind_of_text t = KData <->
      t <> "video" /\ t <> "audio" /\ t <> "subtitle")) /\
  (nullish info = false -> clean info = true ->
   exists s, toStream info = Ok s) /\
  (forall e, toStream info = Throw e -> e = TypeError) /\
  (nullish info = true \/ convertible (prop info "codec_type") = false ->
   toStream info = Throw TypeError).
Proof.
  split; [|split; [|split; [|split; [|split]]]].
  - intros s H.
    destruct (TypesFacts.toStream_inv _ _ H) as (Hn & type & Ht & Hk & Hs).
    exists type. split; [exact Ht|]. split; [exact Hk|]. split.
    + intros E. rewrite E in Ht. injection Ht as <-. rewrite Hk.
      reflexivity.
    + intros v -> Hf Hst Hd.
      destruct (TypesFacts.new_VideoStream_inv _ _ Hs)
        as (Hb & _ & _ & _ & _ & _ & _ & _ & _ & _ & _ & _ & _ & _ & _
            & _ & H6 & _).
      destruct (TypesFacts.new_BaseStream_inv _ _ Hb)
        as (_ & _ & _ & _ & H1 & H2 & _).
      rewrite Hf in H6. rewrite Hst in H1. rewrite Hd in H2.
      change (f64 VUndefined) with (Ok (Num.of_Z (-1))) in H6.
      change (millis VUndefined) with (Ok (Num.of_Z 0)) in H1, H2.
      injection H6 as <-. injection H1 as <-. injection H2 as <-.
      repeat split.
  - intros info' s s' H H' E.
    destruct (TypesFacts.toStream_inv _ _ H) as (_ & t & Ht & Hk & _).
    destruct (TypesFacts.toStream_inv _ _ H') as (_ & t' & Ht' & Hk' & _).
    rewrite Hk, Hk'. congruence.
  - intros t. unfold kind_of_text.
    destruct (String.eqb_spec t "video") as [->|N1];
      [repeat split; intros; try discriminate; try reflexivity;
       try tauto; try (exfalso; intuition congruence)|].
    destruct (String.eqb_spec t "audio") as [->|N2];
      [repeat split; intros; try discriminate; try reflexivity;
       try tauto; try (exfalso; intuition congruence)|].
    destruct (String.eqb_spec t "subtitle") as [->|N3];
      [repeat split; intros; try discriminate; try reflexivity;
       try tauto; try (exfalso; intuition congruence)|].
    repeat split; intros; try discriminate; try reflexivity;
      try tauto; try (exfalso; intuition congruence).
  - apply TypesFacts.toStream_clean.
  - apply TypesFacts.only_toStream.
  - intros [C|C]; [now apply TypesFacts.toStream_nullish|].
    apply TypesFacts.not_Ok_throws; [apply TypesFacts.only_toStream|].
    intros s H.
    destruct (TypesFacts.toStream_inv _ _ H) as (_ & t & Ht & _).
    rewrite (TypesFacts.ToString_throws _ C) in Ht. discriminate Ht.
Qed.

Lemma toStream_variant_witness :
  exists v, toStream bare_video = Ok (Video v) /\
    frameRate v = Num.of_Z (-1) /\
    start (video_base v) = Num.of_Z 0 /\
    duration (video_base v) = Num.of_Z 0.
Proof.
  destruct (proj1 (proj2 (proj2 (proj2 (toStream_variant bare_video))))
              eq_refl eq_refl) as [s Hs].
  destruct (proj1 (toStream_variant bare_video) s Hs)
    as (type & Ht & Hk & _ & Hv).
  injection Ht as <-.
  destruct s as [v|a|t|d]; try discriminate Hk.
  exists v. split; [exact Hs|].
  apply (Hv v eq_refl); reflexivity.
Defined.

(** C2, as stated: a stream without a bit rate would have the bitrate 0.
    It has the bitrate NaN. *)
Lemma bitrate_of_bare_video_is_not_zero :
  exists s, toStream bare_video = Ok s /\
            bitrate (base_of s) = Num.NaN /\
            bitrate (base_of s) <> Num.of_Z 0.
Proof.
  eexists. split; [vm_compute; reflexivity|].
  split; [reflexivity|discriminate].
Qed.

(** C2, amended: the fields read with [int] (bitrate, width, height, coded
    width and height) are [Math.floor] of the source coerced to a number,
    which is NaN exactly when that number is: for an absent source and for
    a text that is no numeric literal, but not for [null] and the empty
    text, which coerce to 0. Level and bits per raw sample, read with
    [>>> 0], are 0 when the number is NaN. The coercion is the one thing
    that can fail: a source the conversion to a primitive does not accept
    makes the field, and the constructor, throw a [TypeError]; on a clean
    record that is not [undefined] or [null] the constructors return. *)
Theorem int_fields (v : value) :
  (forall n, ToNumber v = Ok n ->
     int v = Ok (Num.floor n) /\
     Num.is_nan (Num.floor n) = Num.is_nan n /\
     (Num.is_nan n = true ->
      int v = Ok Num.NaN /\ ushr0 v = Ok (Num.of_Z 0))) /\
  (convertible v = true -> exists n, ToNumber v = Ok n) /\
  (convertible v = false ->
   int v = Throw TypeError /\ ushr0 v = Throw TypeError) /\
  (ToNumber VUndefined = Ok Num.NaN /\
   ToNumber VNull = Ok (Num.of_Z 0) /\
   (forall s, ToNumber (VStr s) = Ok (Conv.StringToNumber s)) /\
   Conv.StringToNumber "" = Num.of_Z 0 /\
   Conv.StringToNumber "N/A" = Num.NaN) /\
  (int VUndefined = Ok Num.NaN /\ int (VStr "N/A") = Ok Num.NaN /\
   int VNull = Ok (Num.of_Z 0) /\ int (VStr "") = Ok (Num.of_Z 0) /\
   forall props k, lookup k props = None ->
                   int (prop (VObj props) k) = Ok Num.NaN) /\
  (forall info b, new_BaseStream info = Ok b ->
     int (prop info "bit_rate") = Ok (bitrate b)) /\
  (forall info s, new_VideoStream info = Ok s ->
     int (prop info "width") = Ok (width s) /\
     int (prop info "height") = Ok (height s) /\
     int (prop info "coded_width") = Ok (codedWidth s) /\
     int (prop info "coded_height") = Ok (codedHeight s) /\
     ushr0 (prop info "level") = Ok (level s) /\
     ushr0 (prop info "bits_per_raw_sample") = Ok (bitsPerRawSample s)) /\
  (forall info p, new_ProbeResult info = Ok p ->
     int (prop (prop info "format") "bit_rate") = Ok (probe_bitrate p)) /\
  (forall info, nullish info = false -> clean info = true ->
     (exists b, new_BaseStream info = Ok b) /\
     (exists s, new_VideoStream info = Ok s)) /\
  (forall info,
     (forall e, new_BaseStream info = Throw e -> e = TypeError) /\
     (forall e, new_VideoStream info = Throw e -> e = TypeError) /\
     (nullish info = true \/ convertible (prop info "bit_rate") = false ->
      new_BaseStream info = Throw TypeError /\
      new_VideoStream info = Throw TypeError)).
Proof.
  split; [|split; [|split; [|split; [|split; [|split; [|split; [|split;
    [|split]]]]]]]].
  - intros n Hn. unfold int, ushr0. rewrite Hn. cbn [bind].
    split; [reflexivity|]. split; [apply TypesFacts.floor_nan|].
    intros H. rewrite (TypesFacts.is_nan_eq _ H). split; reflexivity.
  - apply TypesFacts.ToNumber_convertible.
  - intros H. split;
      [now apply TypesFacts.int_throws|now apply TypesFacts.ushr0_throws].
  - repeat split; vm_compute; reflexivity.
  - split; [reflexivity|]. split; [vm_compute; reflexivity|].
    split; [reflexivity|]. split; [vm_compute; reflexivity|].
    intros props k H. cbn [prop]. now rewrite H.
  - intros info b H. apply (TypesFacts.new_BaseStream_inv _ _ H).
  - intros info s H.
    destruct (TypesFacts.new_VideoStream_inv _ _ H)
      as (_ & _ & _ & H1 & H2 & H3 & H4 & _ & _ & H5 & _ & _ & _ & _ & _
          & _ & _ & _ & H8).
    repeat split; assumption.
  - intros info p H. apply (TypesFacts.new_ProbeResult_inv _ _ H).
  - intros info Hn Hc. split;
      [now apply TypesFacts.new_BaseStream_clean
      |now apply TypesFacts.new_VideoStream_clean].
  - intros info. split; [apply TypesFacts.only_new_BaseStream|].
    split; [apply TypesFacts.only_new_VideoStream|].
    intros C.
    assert (Hb : new_BaseStream info = Throw TypeError).
    { apply TypesFacts.not_Ok_throws;
        [apply TypesFacts.only_new_BaseStream|].
      intros b H. destruct (TypesFacts.new_BaseStream_inv _ _ H)
        as (Hn & _ & _ & _ & _ & _ & Hr & _).
      destruct C as [C|C]; [congruence|].
      rewrite (TypesFacts.int_throws _ C) in Hr. discriminate Hr. }
    split; [exact Hb|]. unfold new_VideoStream. now rewrite Hb.
Qed.

Lemma int_fields_witness :
  exists s, new_VideoStream
              (VObj [("codec_type", VStr "video"); ("width", VStr "1920");
                     ("height", VNum (Num.of_Z 1080));
                     ("coded_height", VNull);
                     ("bit_rate", VStr "N/A")]) = Ok s /\
    width s = Num.of_Z 1920 /\ height s = Num.of_Z 1080 /\
    codedWidth s = Num.NaN /\ codedHeight s = Num.of_Z 0 /\
    level s = Num.of_Z 0 /\ bitrate (video_base s) = Num.NaN.
Proof.
  destruct (proj1 (proj2 (proj2 (proj2 (proj2 (proj2 (proj2 (proj2 (proj2
              (int_fields VUndefined)))))))))
              (VObj [("codec_type", VStr "video"); ("width", VStr "1920");
                     ("height", VNum (Num.of_Z 1080));
                     ("coded_height", VNull);
                     ("bit_rate", VStr "N/A")])
              eq_refl eq_refl)
    as (_ & s & Hs).
  exists s. split; [exact Hs|].
  revert Hs. vm_compute. intros [= <-]. repeat split.
Defined.

(** C3, as stated: every numeric field of a probe result would be finite,
    and no report would raise an error. A report whose one video stream has
    the frame rate ["1/0"] and no bit rate gives a result whose bitrate is
    NaN and whose stream has an infinite frame rate and the bitrate NaN; a
    report without chapters throws a [TypeError]. *)
Lemma probe_result_fields_not_all_finite :
  (exists p v, new_ProbeResult report_over_zero = Ok p /\
     streams p = [Some (Video v)] /\
     Num.is_finite (probe_bitrate p) = false /\
     Num.is_finite (frameRate v) = false /\
     Num.is_finite (bitrate (video_base v)) = false /\
     Num.is_finite (width v) = false) /\
  new_ProbeResult report_without_chapters = Throw TypeError.
Proof.
  split; [|vm_compute; reflexivity].
  eexists. eexists. split; [vm_compute; reflexivity|].
  repeat split.
Qed.

(** C3, amended: a probe result is built from every clean report that is
    not [undefined] or [null], whose format is not either, and whose
    streams and chapters are arrays without an [undefined] or [null]
    element. No result is built, and an error is thrown, when the report
    or its format is [undefined] or [null], when the streams or the
    chapters are absent, when an element of theirs is [undefined] or
    [null], and when a coerced property of the format is not accepted by
    the conversion to a primitive. In a result that was built, start,
    duration and score are the coerced source reduced to the signed 32-bit
    range, the bitrate is [Math.floor] of the coerced source, and every
    stream and chapter has its numbers from the properties of some record:
    the fields made with [>>> 0] and [| 0] are finite integers of the
    unsigned and of the signed 32-bit range, 0 when the source coerces to
    NaN; the fields made with [Math.floor] are NaN exactly when the source
    coerces to NaN; a frame rate is the fraction of the text of its source,
    -1 or the quotient of the first two pieces, infinite for ["1/0"] and
    NaN for ["0/0"]. *)
Theorem probe_result_numbers (info : value) :
  let formatInfo := prop info "format" in
  (forall ss cs,
     nullish info = false -> clean info = true ->
     nullish formatInfo = false ->
     prop info "streams" = VArr ss -> prop info "chapters" = VArr cs ->
     Forall (fun x => nullish x = false) ss ->
     Forall (fun x => nullish x = false) cs ->
     exists p, new_ProbeResult info = Ok p) /\
  (nullish info = true \/ nullish formatInfo = true \/
   nullish (prop info "streams") = true ->
   new_ProbeResult info = Throw TypeError) /\
  (nullish (prop info "chapters") = true ->
   exists e, new_ProbeResult info = Throw e) /\
  (forall items x,
     prop info "streams" = VArr items \/ prop info "chapters" = VArr items ->
     In x items -> nullish x = true ->
     exists e, new_ProbeResult info = Throw e) /\
  (forall k,
     In k ["format_name"; "start_time"; "duration"; "bit_rate";
           "probe_score"] ->
     convertible (prop formatInfo k) = false ->
     exists e, new_ProbeResult info = Throw e) /\
  (forall p, new_ProbeResult info = Ok p ->
     coerced (prop formatInfo "start_time")
       (fun n => reduced_int32 (Num.mul n (Num.of_Z 1000)) (probe_start p)) /\
     coerced (prop formatInfo "duration")
       (fun n =>
          reduced_int32 (Num.mul n (Num.of_Z 1000)) (probe_duration p)) /\
     coerced (prop formatInfo "probe_score")
       (fun n => reduced_int32 n (score p)) /\
     coerced (prop formatInfo "bit_rate")
       (fun n => probe_bitrate p = Num.floor n) /\
     every (fun s => exists x, toStream x = Ok s /\ stream_numbers x s)
       (streams p) /\
     every (fun c => exists x, new_Chapter x = Ok c /\ chapter_numbers x c)
       (chapters p)) /\
  (forall x y,
     (reduced_uint32 x y ->
      is_uint32 y /\ Num.is_finite y = true /\
      (Num.is_nan x = true -> y = Num.of_Z 0)) /\
     (reduced_int32 x y ->
      is_int32 y /\ Num.is_finite y = true /\
      (Num.is_nan x = true -> y = Num.of_Z 0)) /\
     (forall k, Num.is_nan x = true -> Num.is_nan (Num.mul x k) = true) /\
     Num.is_nan (Num.floor x) = Num.is_nan x) /\
  (forall x y,
     has_char "/" x = false -> has_char "/" y = false ->
     f64 (VStr x) = Ok (Num.of_Z (-1)) /\
     f64 (VStr (x ++ "/" ++ y)) = Ok (fraction_value x y) /\
     forall rest,
       f64 (VStr (x ++ "/" ++ y ++ "/" ++ rest)) = Ok (fraction_value x y)) /\
  (forall v t, ToString v = Ok t -> f64 v = f64 (VStr t)) /\
  f64 (VStr "1/0") = Ok (S754_infinity false) /\
  f64 (VStr "0/0") = Ok Num.NaN.
Proof.
  intros formatInfo.
  assert (Hno : forall P : Prop,
             (forall p, new_ProbeResult info = Ok p -> P -> False) ->
             P -> exists e, new_ProbeResult info = Throw e).
  { intros P H HP. destruct (new_ProbeResult info) as [p|e] eqn:E;
      [destruct (H p eq_refl HP)|now exists e]. }
  split; [|split; [|split; [|split; [|split; [|split; [|split; [|split;
    [|split; [|split]]]]]]]]].
  - intros ss cs. apply TypesFacts.new_ProbeResult_clean.
  - intros [H|[H|H]].
    + apply TypesFacts.new_ProbeResult_no_format. now left.
    + apply TypesFacts.new_ProbeResult_no_format. now right.
    + now apply TypesFacts.new_ProbeResult_no_streams.
  - apply TypesFacts.new_ProbeResult_no_chapters.
  - intros items x Hitems Hin Hx.
    apply (Hno True); [|exact I]. intros p Hp _.
    destruct (TypesFacts.new_ProbeResult_inv _ _ Hp)
      as (_ & _ & _ & _ & _ & _ & _ & _ & Hs & Hc & _).
    destruct Hitems as [E|E]; rewrite E in *.
    + apply TypesFacts.map_call_array in Hs as (zs & _ & Hzs).
      apply TypesFacts.mapM_Forall2 in Hzs.
      destruct (TypesFacts.Forall2_In_l _ _ _ _ Hzs Hin) as (z & Hz).
      rewrite (TypesFacts.toStream_nullish _ Hx) in Hz. discriminate Hz.
    + apply TypesFacts.map_call_array in Hc as (zs & _ & Hzs).
      apply TypesFacts.mapM_Forall2 in Hzs.
      destruct (TypesFacts.Forall2_In_l _ _ _ _ Hzs Hin) as (z & Hz).
      rewrite (TypesFacts.new_Chapter_nullish _ Hx) in Hz. discriminate Hz.
  - intros k Hk C. apply (Hno True); [|exact I]. intros p Hp _.
    destruct (TypesFacts.new_ProbeResult_inv _ _ Hp)
      as (_ & _ & H1 & H2 & H3 & H4 & H5 & _).
    fold formatInfo in H1, H2, H3, H4, H5.
    cbn [In] in Hk.
    destruct Hk as [<-|[<-|[<-|[<-|[<-|[]]]]]].
    + rewrite (TypesFacts.ToString_throws _ C) in H1. discriminate H1.
    + rewrite (TypesFacts.millis_throws _ C) in H2. discriminate H2.
    + rewrite (TypesFacts.millis_throws _ C) in H3. discriminate H3.
    + rewrite (TypesFacts.int_throws _ C) in H4. discriminate H4.
    + rewrite (TypesFacts.or0_throws _ C) in H5. discriminate H5.
  - intros p Hp.
    destruct (TypesFacts.new_ProbeResult_inv _ _ Hp)
      as (_ & _ & _ & H2 & H3 & H4 & H5 & _ & Hs & Hc & _).
    fold formatInfo in H2, H3, H4, H5.
    split; [now apply TypesFacts.millis_Ok|].
    split; [now apply TypesFacts.millis_Ok|].
    split; [now apply TypesFacts.or0_Ok|].
    split; [now apply TypesFacts.int_Ok|]. split.
    + apply (TypesFacts.map_call_every toStream _ _ _
               (fun x s H => ex_intro _ x
                  (conj H (TypesFacts.toStream_numbers x s H))) Hs).
    + apply (TypesFacts.map_call_every new_Chapter _ _ _
               (fun x c H => ex_intro _ x
                  (conj H (TypesFacts.new_Chapter_numbers x c H))) Hc).
  - intros x y. split; [|split; [|split]].
    + intros H. split; [exact (TypesFacts.reduced_is_uint32 _ _ H)|].
      split; [apply TypesFacts.uint32_finite;
              exact (TypesFacts.reduced_is_uint32 _ _ H)|].
      intros Hx. exact (TypesFacts.reduced_uint32_nan _ _ Hx H).
    + intros H. split; [exact (TypesFacts.reduced_is_int32 _ _ H)|].
      split; [apply TypesFacts.int32_finite;
              exact (TypesFacts.reduced_is_int32 _ _ H)|].
      intros Hx. exact (TypesFacts.reduced_int32_nan _ _ Hx H).
    + intros k. apply TypesFacts.mul_nan.
    + apply TypesFacts.floor_nan.
  - intros x y Hx Hy. split; [now apply TypesFacts.f64_one_piece|].
    split; [now apply TypesFacts.f64_two_pieces|].
    intros rest. now apply TypesFacts.f64_more_pieces.
  - apply TypesFacts.f64_of_text.
  - vm_compute. reflexivity.
  - vm_compute. reflexivity.
Qed.

Lemma probe_result_numbers_witness :
  exists p, new_ProbeResult report_over_zero = Ok p /\
    is_int32 (probe_start p) /\ is_int32 (probe_duration p) /\
    is_int32 (score p) /\
    List.length (streams p) = 1%nat /\
    List.length (chapters p) = 0%nat /\
    every (fun s => is_uint32 (index (base_of s))) (streams p).
Proof.
  assert (Hs : Forall (fun x => nullish x = false)
                 [VObj [("index", VNum (Num.of_Z 0));
                        ("codec_type", VStr "video");
                        ("frame_rate", VStr "1/0")]]).
  { repeat constructor. }
  destruct (proj1 (probe_result_numbers report_over_zero) _ _
              eq_refl eq_refl eq_refl eq_refl eq_refl Hs (Forall_nil _))
    as [p Hp].
  exists p. split; [exact Hp|].
  destruct (proj1 (proj2 (proj2 (proj2 (proj2 (proj2
              (probe_result_numbers report_over_zero)))))) p Hp)
    as ((n1 & _ & R1) & (n2 & _ & R2) & (n3 & _ & R3) & _ & Es & _).
  split; [exact (TypesFacts.reduced_is_int32 _ _ R1)|].
  split; [exact (TypesFacts.reduced_is_int32 _ _ R2)|].
  split; [exact (TypesFacts.reduced_is_int32 _ _ R3)|].
  assert (L : List.length (streams p) = 1%nat /\
              List.length (chapters p) = 0%nat).
  { revert Hp. clear. vm_compute. intros [= <-]. split; reflexivity. }
  split; [exact (proj1 L)|]. split; [exact (proj2 L)|].
  unfold every in *. eapply Forall_impl; [|exact Es].
  intros [s|] H; [|exact I].
  destruct H as (x & _ & (n & _ & R) & _).
  exact (TypesFacts.reduced_is_uint32 _ _ R).
Defined.

(** ** The serializer *)

(** C4, as stated: in the returned text the keys would never be escaped.
    The key [a,b] does not stand in the text returned for it. *)
Lemma filter_description_key_is_escaped :
  stringifyFilterDescription "f" comma_key = Ok "f=a\,b=1" /\
  ~ exists t, stringifyFilterDescription "f" comma_key
              = Ok ("f=" ++ "a,b" ++ "=" ++ t)%string.
Proof.
  split; [vm_compute; reflexivity|].
  intros [t H]. vm_compute in H. discriminate H.
Qed.

(** C4, amended: without options, and when the options render to the empty
    text (none, or all of them absent), the filter name is returned as it
    is; otherwise the name, ["="] and the rendering escaped for a filter
    description. In the rendering a key stands as it is before ["="] and
    its value escaped as a filter value; the escaping for a description then
    runs over the whole of it: it never touches ["="] or [":"], and it
    leaves a key as it is exactly when the key has none of its
    characters. *)
Theorem stringifyFilterDescription_spec (name : string) :
  stringifyFilterDescription name NoOptions = Ok name /\
  (forall array,
     match stringifyArrayColonSeparated array with
     | Ok t =>
         stringifyFilterDescription name (ArrayOptions array)
         = Ok (if String.eqb t "" then name
               else name ++ "=" ++ escapeFilterDescription t)%string
     | Throw e =>
         stringifyFilterDescription name (ArrayOptions array) = Throw e
     end) /\
  (forall object,
     match stringifyObjectColonSeparated object with
     | Ok t =>
         stringifyFilterDescription name (ObjectOptions object)
         = Ok (if String.eqb t "" then name
               else name ++ "=" ++ escapeFilterDescription t)%string
     | Throw e =>
         stringifyFilterDescription name (ObjectOptions object) = Throw e
     end) /\
  (forall object,
     Forall (fun e => isNullish (snd e) = true) object ->
     stringifyFilterDescription name (ObjectOptions object) = Ok name) /\
  (forall array,
     Forall (fun v => isNullish v = true) array ->
     stringifyFilterDescription name (ArrayOptions array) = Ok name) /\
  (forall object texts,
     mapM stringifyValue (map snd (present object)) = Ok texts ->
     stringifyObjectColonSeparated object
     = Ok (Str.join ":"
             (map (fun e => key_value (fst e, escapeFilterValue (snd e)))
                  (combine (map fst (present object)) texts)))) /\
  (forall pairs : list (string * string),
     escapeFilterDescription (Str.join ":" (map key_value pairs))
     = Str.join ":"
         (map (fun e => key_value (escapeFilterDescription (fst e),
                                   escapeFilterDescription (snd e)))
              pairs)) /\
  (forall key,
     escapeFilterDescription key = key <->
     (forall c, In c (list_ascii_of_string key) ->
                ~ In c ["\"; "'"; "["; "]"; ","; ";"]%char)) /\
  stringifyFilterDescription "scale"
    (ObjectOptions [("w", Plain (VNum (Num.of_Z 100))); ("h", Plain VNull)])
  = Ok "scale=w=100".
Proof.
  split; [reflexivity|].
  split.
  { intros array. cbn [stringifyFilterDescription].
    destruct (stringifyArrayColonSeparated array) as [t|e]; cbn [bind];
      [|reflexivity].
    now destruct (String.eqb t ""). }
  split.
  { intros object. cbn [stringifyFilterDescription].
    destruct (stringifyObjectColonSeparated object) as [t|e]; cbn [bind];
      [|reflexivity].
    now destruct (String.eqb t ""). }
  split.
  { intros object H. cbn [stringifyFilterDescription].
    unfold stringifyObjectColonSeparated. fold (present object).
    now rewrite (SerializerFacts.present_none object H). }
  split.
  { intros array H. cbn [stringifyFilterDescription].
    unfold stringifyArrayColonSeparated.
    now rewrite (SerializerFacts.filter_none array H). }
  split; [apply SerializerFacts.object_rendering|].
  split.
  { intros pairs. rewrite SerializerFacts.description_join, map_map.
    f_equal. apply map_ext. intros [k t].
    apply SerializerFacts.description_key_value. }
  split; [intros key; apply EscapeFacts.replace_id|].
  vm_compute. reflexivity.
Qed.

Lemma stringifyFilterDescription_spec_witness :
  stringifyFilterDescription "scale" (ObjectOptions [("h", Plain VNull)])
  = Ok "scale" /\
  stringifyFilterDescription "scale" (ArrayOptions [Plain VUndefined])
  = Ok "scale" /\
  stringifyObjectColonSeparated
    [("text", Plain (VStr "a:b,c")); ("x", Plain VNull);
     ("t", Date (Some 0))]
  = Ok "text=a\:b,c:t=1970-01-01T00\:00\:00.000Z" /\
  stringifyFilterDescription "drawtext"
    (ObjectOptions [("text", Plain (VStr "a:b,c")); ("x", Plain VNull);
                    ("t", Date (Some 0))])
  = Ok "drawtext=text=a\\:b\,c:t=1970-01-01T00\\:00\\:00.000Z".
Proof.
  pose proof (stringifyFilterDescription_spec "scale")
    as (_ & _ & _ & Hobj & Harr & _).
  pose proof (stringifyFilterDescription_spec "drawtext")
    as (_ & _ & Hdesc & _ & _ & Hrender & _).
  split; [apply Hobj; repeat constructor|].
  split; [apply Harr; repeat constructor|].
  split.
  - refine (eq_trans (Hrender _ ["a:b,c"; "1970-01-01T00:00:00.000Z"] _) _);
      vm_compute; reflexivity.
  - specialize (Hdesc [("text", Plain (VStr "a:b,c")); ("x", Plain VNull);
                       ("t", Date (Some 0))]).
    revert Hdesc. vm_compute. intros H. exact H.
Defined.

(** * Further properties *)

Import Readback.

(** ** The timestamp parser *)

Module TimestampMore.

Import TimestampFacts.

Lemma m_no_start c s :
  Ascii.eqb c "-" = false -> Conv.is_digit c = false ->
  m TIMESTAMP_REGEXP found (String c s) [] = None.
Proof.
  intros Hm Hd. rewrite timestamp_split, m_seq, m_grp, m_opt.
  rewrite m_chr_other by (simpl; exact Hm).
  unfold HOURS, MM_SS, digit.
  rewrite m_seq, m_opt, m_grp, m_seq.
  cbn [m]. rewrite Hd. reflexivity.
Qed.

Lemma exec_no_start pre s :
  no_start pre = true ->
  exec TIMESTAMP_REGEXP (pre ++ s) = exec TIMESTAMP_REGEXP s.
Proof.
  induction pre as [|c pre IH]; [reflexivity|].
  cbn [no_start]. intros H.
  apply andb_prop in H as [H Hpre]. apply andb_prop in H as [Hm Hd].
  apply negb_true_iff in Hm, Hd.
  cbn [append exec]. rewrite (m_no_start c (pre ++ s) Hm Hd).
  now apply IH.
Qed.

End TimestampMore.

(** X3: the pattern is not anchored at the start: characters that are
    neither a digit nor a minus sign in front of a text do not change what
    is parsed from it. *)
Theorem parseTimestamp_skips_prefix (pre s : string) :
  no_start pre = true -> parseTimestamp (pre ++ s) = parseTimestamp s.
Proof.
  intros H. unfold parseTimestamp.
  now rewrite (TimestampMore.exec_no_start pre s H).
Qed.

Lemma parseTimestamp_skips_prefix_witness :
  parseTimestamp "time=00:01:02.5 bitrate" = parseTimestamp "00:01:02.5 bitrate"
  /\ parseTimestamp "00:01:02.5 bitrate" = Some (Num.of_Z 62500).
Proof.
  split.
  - exact (parseTimestamp_skips_prefix "time=" "00:01:02.5 bitrate" eq_refl).
  - vm_compute. reflexivity.
Defined.

(** ** Escaping *)

Module EscapeMore.

Import EscapeFacts.

Lemma replace_length l s :
  String.length (replace_cls (one_of l) backslash s)
  = (String.length s + count_in l s)%nat.
Proof.
  induction s as [|c s IH]; [reflexivity|].
  cbn [replace_cls count_in]. unfold one_of at 1.
  destruct (Str.mem c l); cbn [backslash append String.length];
    rewrite IH; lia.
Qed.

End EscapeMore.

(** X4: the four escaping functions go through concatenation: a text can
    be escaped piece by piece. *)
Theorem escape_append (a b : string) :
  escapeFilterValue (a ++ b) = (escapeFilterValue a ++ escapeFilterValue b)%string
  /\ escapeFilterDescription (a ++ b)
     = (escapeFilterDescription a ++ escapeFilterDescription b)%string
  /\ escapeConcatFile (a ++ b)
     = (escapeConcatFile a ++ escapeConcatFile b)%string
  /\ escapeTeeComponent (a ++ b)
     = (escapeTeeComponent a ++ escapeTeeComponent b)%string.
Proof. repeat split; apply EscapeFacts.replace_app. Qed.

(** X5: each of the four escaping functions adds one character for every
    character of its set and nothing else, so for each of the four the
    escaped text is the text itself exactly when the text has no character
    of the set. *)
Theorem escape_length (s : string) :
  (String.length (escapeFilterValue s)
   = (String.length s + count_in ["\"; "'"; ":"]%char s)%nat /\
   String.length (escapeFilterDescription s)
   = (String.length s
      + count_in ["\"; "'"; "["; "]"; ","; ";"]%char s)%nat /\
   String.length (escapeConcatFile s)
   = (String.length s + count_in ["\"; "'"; " "]%char s)%nat /\
   String.length (escapeTeeComponent s)
   = (String.length s
      + count_in ["\"; "'"; " "; "|"; "["; "]"]%char s)%nat) /\
  (escapeFilterValue s = s <-> count_in ["\"; "'"; ":"]%char s = 0%nat) /\
  (escapeFilterDescription s = s
   <-> count_in ["\"; "'"; "["; "]"; ","; ";"]%char s = 0%nat) /\
  (escapeConcatFile s = s <-> count_in ["\"; "'"; " "]%char s = 0%nat) /\
  (escapeTeeComponent s = s
   <-> count_in ["\"; "'"; " "; "|"; "["; "]"]%char s = 0%nat).
Proof.
  assert (Hfix : forall l,
            replace_cls (one_of l) backslash s = s <-> count_in l s = 0%nat).
  { intros l. split.
    - intros H. pose proof (EscapeMore.replace_length l s) as Hl.
      rewrite H in Hl. lia.
    - induction s as [|c s IH]; [reflexivity|].
      cbn [count_in replace_cls]. unfold one_of at 1.
      destruct (Str.mem c l); [discriminate|].
      intros H. cbn [append]. now rewrite IH. }
  split; [repeat split; apply EscapeMore.replace_length|].
  split; [apply Hfix|]. split; [apply Hfix|]. split; apply Hfix.
Qed.

(** ** Reading the serializer's output back *)

Module ReadbackFacts.

Import EscapeFacts SerializerFacts.

Lemma app_nil_r (s : string) : (s ++ "")%string = s.
Proof. induction s; simpl; congruence. Qed.

Lemma cons_first_app a b l :
  cons_first a (cons_first b l) = cons_first (a ++ b) l.
Proof.
  destruct l as [|x l]; cbn [cons_first];
    now rewrite ?RegexpFacts.append_assoc.
Qed.

Lemma split_other sep c r :
  c <> "\"%char ->
  split_unescaped sep (String c r)
  = if Ascii.eqb c sep then "" :: split_unescaped sep r
    else cons_first (String c "") (split_unescaped sep r).
Proof.
  intros H. destruct r as [|d r];
    destruct c as [[] [] [] [] [] [] [] []]; try reflexivity; congruence.
Qed.

Lemma split_not_nil sep t : split_unescaped sep t <> [].
Proof.
  assert (Hc : forall p l, cons_first p l <> []).
  { intros p [|x l]; discriminate. }
  induction t as [|c t IH]; [discriminate|].
  destruct (Ascii.eqb_spec c "\") as [->|Hne].
  - destruct t as [|d t]; [|apply Hc].
    cbn [split_unescaped].
    destruct (Ascii.eqb "\" sep); [discriminate|apply Hc].
  - rewrite (split_other sep c t Hne).
    destruct (Ascii.eqb c sep); [discriminate|apply Hc].
Qed.

Lemma neutral_nil : neutral "".
Proof.
  intros rest. cbn [append].
  destruct (split_unescaped ":" rest) as [|x l] eqn:E;
    [now apply split_not_nil in E|reflexivity].
Qed.

Lemma neutral_char c p :
  c <> "\"%char -> c <> ":"%char -> neutral p -> neutral (String c p).
Proof.
  intros H1 H2 Hp rest. cbn [append]. rewrite (split_other ":" c _ H1).
  destruct (Ascii.eqb_spec c ":") as [->|_]; [congruence|].
  now rewrite Hp, cons_first_app.
Qed.

Lemma neutral_escape c p : neutral p -> neutral (String "\" (String c p)).
Proof.
  intros Hp rest. cbn [append split_unescaped].
  now rewrite Hp, cons_first_app.
Qed.

Lemma neutral_value t : neutral (escapeFilterValue t).
Proof.
  unfold escapeFilterValue.
  induction t as [|c t IH]; [apply neutral_nil|].
  cbn [replace_cls]. unfold one_of at 1.
  destruct (Str.mem c ["\"; "'"; ":"]%char) eqn:E.
  - cbn [backslash append]. now apply neutral_escape.
  - cbn [append]. apply neutral_char; [| |exact IH];
      intros ->; discriminate E.
Qed.

Lemma neutral_piece k t :
  plain_key k = true -> neutral (key_value (k, escapeFilterValue t)).
Proof.
  unfold key_value. cbn [fst snd].
  induction k as [|c k IH]; cbn [plain_key append].
  - intros _. apply neutral_char; try discriminate. apply neutral_value.
  - intros H. apply andb_prop in H as [Hc Hk]. apply negb_true_iff in Hc.
    apply neutral_char; [| |now apply IH]; intros ->; discriminate Hc.
Qed.

Lemma split_join pieces :
  pieces <> [] -> Forall neutral pieces ->
  split_unescaped ":" (Str.join ":" pieces) = pieces.
Proof.
  induction pieces as [|x [|y r] IH]; [congruence| |]; intros _ H.
  - inversion H as [|? ? Hx _]; subst. cbn [Str.join].
    rewrite <- (app_nil_r x) at 1. rewrite Hx. cbn.
    now rewrite app_nil_r.
  - inversion H as [|? ? Hx Hr]; subst.
    change (Str.join ":" (x :: y :: r))
      with (x ++ String ":" (Str.join ":" (y :: r)))%string.
    rewrite Hx. cbn [split_unescaped Ascii.eqb Bool.eqb].
    rewrite IH by (discriminate || assumption).
    cbn [cons_first]. now rewrite app_nil_r.
Qed.

Lemma unescape_value t : unescape (escapeFilterValue t) = t.
Proof. apply unescape_replace. simpl. auto. Qed.

Lemma render_values (l : list unknown) :
  mapM (fun value =>
          let* t := stringifyValue value in Ok (escapeFilterValue t)) l
  = let* texts := mapM stringifyValue l in Ok (map escapeFilterValue texts).
Proof.
  induction l as [|v l IH]; [reflexivity|].
  cbn [mapM]. destruct (stringifyValue v) as [t|e]; cbn [bind];
    [|reflexivity].
  rewrite IH. destruct (mapM stringifyValue l) as [ts|e]; reflexivity.
Qed.

Lemma mapM_length {A B} (f : A -> result B) l ys :
  mapM f l = Ok ys -> List.length ys = List.length l.
Proof.
  revert ys. induction l as [|x l IH]; intros ys; cbn [mapM].
  - now intros [= <-].
  - destruct (f x); cbn [bind]; [|discriminate].
    destruct (mapM f l) as [zs|]; cbn [bind]; [|discriminate].
    intros [= <-]. cbn. now rewrite (IH zs eq_refl).
Qed.

Lemma split_first_piece k v :
  plain_key k = true ->
  split_first "=" (key_value (k, v)) = (k, v).
Proof.
  unfold key_value. cbn [fst snd].
  change ("=" ++ v)%string with (String "=" v).
  induction k as [|c k IH]; cbn [plain_key append split_first].
  - reflexivity.
  - intros H. apply andb_prop in H as [Hc Hk]. apply negb_true_iff in Hc.
    destruct (Ascii.eqb_spec c "=") as [->|_]; [discriminate Hc|].
    now rewrite (IH Hk).
Qed.

Lemma read_pieces (pairs : list (string * string)) :
  Forall (fun e => plain_key (fst e) = true) pairs ->
  map read_pair
      (map (fun e => key_value (fst e, escapeFilterValue (snd e))) pairs)
  = pairs /\
  Forall neutral
    (map (fun e => key_value (fst e, escapeFilterValue (snd e))) pairs).
Proof.
  induction 1 as [|[k t] l Hk _ [IH1 IH2]]; [now split|].
  cbn [map fst snd] in *. split.
  - unfold read_pair at 1. rewrite (split_first_piece k _ Hk).
    now rewrite unescape_value, IH1.
  - constructor; [now apply neutral_piece|exact IH2].
Qed.

Lemma combine_plain (ks : list string) (ts : list string) :
  Forall (fun k => plain_key k = true) ks ->
  Forall (fun e : string * string => plain_key (fst e) = true)
         (combine ks ts).
Proof.
  intros H. revert ts. induction H as [|k ks Hk _ IH]; intros ts;
    [constructor|].
  destruct ts as [|t ts]; [constructor|].
  cbn [combine]. constructor; [exact Hk|apply IH].
Qed.

End ReadbackFacts.

(** X6: what [stringifyArrayColonSeparated] writes reads back: cutting the
    text at the colons that no backslash escapes and dropping the escaping
    backslashes gives the texts of the values that are not absent, in their
    order. It needs one value at least: none and one empty text are both
    written as the empty text. *)
Theorem array_reads_back (array : list unknown) (texts : list string) :
  mapM stringifyValue (filter (fun v => negb (isNullish v)) array)
  = Ok texts ->
  texts <> [] ->
  exists t, stringifyArrayColonSeparated array = Ok t /\ read_list t = texts.
Proof.
  intros Hm Hne. unfold stringifyArrayColonSeparated.
  rewrite ReadbackFacts.render_values, Hm. cbn [bind].
  eexists. split; [reflexivity|]. unfold read_list.
  rewrite ReadbackFacts.split_join.
  - rewrite map_map. rewrite <- (map_id texts) at 2.
    apply map_ext. apply ReadbackFacts.unescape_value.
  - destruct texts; [congruence|discriminate].
  - apply Forall_forall. intros p Hp. apply in_map_iff in Hp as (t & <- & _).
    apply ReadbackFacts.neutral_value.
Qed.

Lemma array_reads_back_witness :
  exists t,
    stringifyArrayColonSeparated
      [Plain (VNum (Num.of_Z 1)); Plain VNull; Plain (VStr "a:b\c");
       Plain (VStr "")]
    = Ok t /\
    t = "1:a\:b\\c:" /\ read_list t = ["1"; "a:b\c"; ""].
Proof.
  destruct (array_reads_back
              [Plain (VNum (Num.of_Z 1)); Plain VNull; Plain (VStr "a:b\c");
               Plain (VStr "")]
              ["1"; "a:b\c"; ""]) as (t & Ht & Hr).
  - vm_compute. reflexivity.
  - discriminate.
  - exists t. split; [exact Ht|]. split; [|exact Hr].
    revert Ht. vm_compute. now intros [= <-].
Defined.

(** X7: what [stringifyObjectColonSeparated] writes reads back when no key
    has a colon, an equals sign or a backslash: the pieces between the
    unescaped colons, cut at their first equals sign, are the keys and the
    texts of the values that are not absent, in their order. *)
Theorem object_reads_back (object : list (string * unknown))
    (texts : list string) :
  mapM stringifyValue (map snd (present object)) = Ok texts ->
  Forall (fun k => plain_key k = true) (map fst (present object)) ->
  texts <> [] ->
  exists t, stringifyObjectColonSeparated object = Ok t /\
            read_pairs t = combine (map fst (present object)) texts.
Proof.
  intros Hm Hk Hne.
  rewrite (SerializerFacts.object_rendering object texts Hm).
  eexists. split; [reflexivity|]. unfold read_pairs.
  destruct (ReadbackFacts.read_pieces
              (combine (map fst (present object)) texts)
              (ReadbackFacts.combine_plain _ texts Hk)) as [H1 H2].
  rewrite ReadbackFacts.split_join; [exact H1| |exact H2].
  pose proof (ReadbackFacts.mapM_length _ _ _ Hm) as Hl.
  rewrite length_map in Hl.
  destruct texts as [|t ts]; [congruence|].
  destruct (present object) as [|e l]; [discriminate Hl|discriminate].
Qed.

Lemma object_reads_back_witness :
  exists t,
    stringifyObjectColonSeparated
      [("text", Plain (VStr "a=b:c")); ("x", Plain VUndefined);
       ("enable", Plain (VBool true))]
    = Ok t /\
    t = "text=a=b\:c:enable=true" /\
    read_pairs t = [("text", "a=b:c"); ("enable", "true")].
Proof.
  destruct (object_reads_back
              [("text", Plain (VStr "a=b:c")); ("x", Plain VUndefined);
               ("enable", Plain (VBool true))]
              ["a=b:c"; "true"]) as (t & Ht & Hr).
  - vm_compute. reflexivity.
  - repeat constructor.
  - discriminate.
  - exists t. split; [exact Ht|]. split; [|exact Hr].
    revert Ht. vm_compute. now intros [= <-].
Defined.

(** ** What makes the serializer throw *)

Module ThrowFacts.

Lemma stringifyValue_thrown value e :
  stringifyValue value = Throw e <-> thrown value = Some e.
Proof.
  destruct value as [v|[t|]|d|[t|e']]; cbn [stringifyValue thrown].
  - pose proof (TypesFacts.ToString_cases v) as C.
    destruct (convertible v).
    + destruct C as [t ->]. split; discriminate.
    + rewrite C. split; intros [= <-]; reflexivity.
  - cbn [DateTime.toISOString].
    destruct (DateTime.civil (t / DateTime.msPerDay)) as [[y mo] d].
    split; discriminate.
  - split; intros [= <-]; reflexivity.
  - split; intros [= <-]; reflexivity.
  - split; discriminate.
  - split; intros [= <-]; reflexivity.
Qed.

Lemma stringifyValue_returns value :
  thrown value = None -> exists t, stringifyValue value = Ok t.
Proof.
  intros H. destruct (stringifyValue value) as [t|e] eqn:E;
    [now exists t|].
  apply stringifyValue_thrown in E. congruence.
Qed.

Lemma mapM_first_thrown l e :
  mapM stringifyValue l = Throw e <-> first_thrown l = Some e.
Proof.
  induction l as [|x l IH]; cbn [mapM first_thrown]; [split; discriminate|].
  destruct (thrown x) as [e'|] eqn:Hx.
  - apply stringifyValue_thrown in Hx. rewrite Hx. cbn [bind].
    split; intros [= <-]; reflexivity.
  - destruct (stringifyValue_returns x Hx) as [t ->]. cbn [bind].
    rewrite <- IH. destruct (mapM stringifyValue l); cbn [bind];
      split; congruence.
Qed.

Lemma thrown_nullish value : isNullish value = true -> thrown value = None.
Proof.
  destruct value as [[]| | |]; try discriminate; reflexivity.
Qed.

Lemma first_thrown_filter l :
  first_thrown (filter (fun value => negb (isNullish value)) l)
  = first_thrown l.
Proof.
  induction l as [|x l IH]; [reflexivity|]. cbn [filter first_thrown].
  destruct (isNullish x) eqn:Hx; cbn [negb first_thrown].
  - now rewrite (thrown_nullish x Hx).
  - now rewrite IH.
Qed.

Lemma map_snd_filter (object : list (string * unknown)) :
  map snd (filter (fun '(_, value) => negb (isNullish value)) object)
  = filter (fun value => negb (isNullish value)) (map snd object).
Proof.
  induction object as [|[k v] l IH]; [reflexivity|].
  cbn [filter map snd]. destruct (negb (isNullish v)); cbn [map snd];
    now rewrite IH.
Qed.

Lemma array_throws array e :
  stringifyArrayColonSeparated array = Throw e
  <-> first_thrown array = Some e.
Proof.
  unfold stringifyArrayColonSeparated.
  rewrite ReadbackFacts.render_values, <- first_thrown_filter,
    <- mapM_first_thrown.
  destruct (mapM stringifyValue _); cbn [bind]; split; congruence.
Qed.

Lemma object_throws object e :
  stringifyObjectColonSeparated object = Throw e
  <-> first_thrown (map snd object) = Some e.
Proof.
  unfold stringifyObjectColonSeparated.
  rewrite SerializerFacts.render_entries, <- first_thrown_filter,
    <- map_snd_filter, <- mapM_first_thrown.
  destruct (mapM stringifyValue _); cbn [bind]; split; congruence.
Qed.

Lemma description_throws name (r : result string) e :
  (let* opts := r in
   if String.eqb opts "" then Ok name
   else Ok (name ++ "=" ++ escapeFilterDescription opts)%string) = Throw e
  <-> r = Throw e.
Proof.
  destruct r as [t|e']; cbn [bind]; [|split; congruence].
  destruct (String.eqb t ""); split; discriminate.
Qed.

End ThrowFacts.

(** X8: [stringifyFilterDescription] throws exactly when the conversion of
    one of the values to a string throws, and it throws what the first such
    value, in the order of the options, makes it throw: an invalid [Date]
    the [RangeError] of [toISOString]; a symbol, and a JSON-shaped value
    that is or holds an object with a [toString] property of its own, a
    [TypeError]; a value with a conversion of its own what that conversion
    throws. Every other value, [undefined] and [null] among them, never
    makes it throw. *)
Theorem stringifyFilterDescription_throws (name : string) (opts : options) :
  (forall value e, stringifyValue value = Throw e <-> thrown value = Some e) /\
  (forall e, stringifyFilterDescription name opts = Throw e
             <-> first_thrown (values opts) = Some e) /\
  ((exists t, stringifyFilterDescription name opts = Ok t)
   <-> first_thrown (values opts) = None) /\
  (forall value, isNullish value = true -> thrown value = None).
Proof.
  assert (H : forall e, stringifyFilterDescription name opts = Throw e
                        <-> first_thrown (values opts) = Some e).
  { intros e. destruct opts as [|array|object];
      cbn [stringifyFilterDescription values first_thrown].
    - split; discriminate.
    - rewrite ThrowFacts.description_throws. apply ThrowFacts.array_throws.
    - rewrite ThrowFacts.description_throws. apply ThrowFacts.object_throws. }
  split; [apply ThrowFacts.stringifyValue_thrown|]. split; [exact H|].
  split; [|apply ThrowFacts.thrown_nullish]. split.
  - intros [t Ht]. destruct (first_thrown (values opts)) as [e|];
      [|reflexivity].
    pose proof (proj2 (H e) eq_refl) as R. congruence.
  - intros E. destruct (stringifyFilterDescription name opts) as [t|e];
      [now exists t|].
    pose proof (proj1 (H e) eq_refl) as R. congruence.
Qed.

Lemma stringifyFilterDescription_throws_witness :
  stringifyFilterDescription "f"
    (ArrayOptions [Plain VNull; Plain (VArr [shadowed]); Date None])
  = Throw TypeError /\
  stringifyFilterDescription "f"
    (ObjectOptions [("a", Date None); ("b", Symbol None)])
  = Throw RangeError /\
  stringifyFilterDescription "f" (ArrayOptions [Other (Throw (Thrown "no"))])
  = Throw (Thrown "no").
Proof.
  split; [|split].
  - apply (proj1 (proj2 (stringifyFilterDescription_throws "f" _))).
    reflexivity.
  - apply (proj1 (proj2 (stringifyFilterDescription_throws "f" _))).
    reflexivity.
  - apply (proj1 (proj2 (stringifyFilterDescription_throws "f" _))).
    reflexivity.
Defined.

(** ** Tags *)

Module TagsFacts.

Lemma lookup_map_set k k' v t :
  lookup k (map_set k' v t)
  = if String.eqb k k' then Some v else lookup k t.
Proof.
  induction t as [|[k0 v0] t IH]; cbn [map_set lookup].
  - now destruct (String.eqb k k').
  - destruct (String.eqb_spec k' k0) as [->|Hne]; cbn [lookup].
    + now destruct (String.eqb k k0).
    + rewrite IH. destruct (String.eqb_spec k k0) as [->|H0];
        [|reflexivity].
      destruct (String.eqb_spec k0 k') as [->|_]; [congruence|reflexivity].
Qed.

Lemma keys_map_set k v t x :
  In x (keys (map_set k v t)) <-> x = k \/ In x (keys t).
Proof.
  unfold keys. induction t as [|[k0 v0] t IH]; cbn [map_set map fst In].
  - intuition.
  - destruct (String.eqb_spec k k0) as [->|Hne]; cbn [map fst In].
    + intuition.
    + rewrite IH. intuition.
Qed.

Lemma nodup_map_set k v t : NoDup (keys t) -> NoDup (keys (map_set k v t)).
Proof.
  unfold keys. induction t as [|[k0 v0] t IH]; cbn [map_set map fst].
  - intros _. repeat constructor. intros [].
  - intros H. inversion H as [|? ? Hin Hnd]; subst.
    destruct (String.eqb_spec k k0) as [->|Hne]; cbn [map fst].
    + now constructor.
    + constructor; [|now apply IH].
      intros Hc. apply (keys_map_set k v t k0) in Hc as [->|Hc];
        [congruence|contradiction].
Qed.

Lemma fold_set_nodup l t :
  NoDup (keys t) ->
  NoDup (keys (fold_left (fun t e => map_set (fst e) (snd e) t) l t)).
Proof.
  revert t. induction l as [|e l IH]; intros t H; cbn [fold_left];
    [exact H|].
  apply IH. now apply nodup_map_set.
Qed.

Lemma fold_set_keys l t x :
  In x (keys (fold_left (fun t e => map_set (fst e) (snd e) t) l t))
  <-> In x (map fst l) \/ In x (keys t).
Proof.
  revert t. induction l as [|e l IH]; intros t; cbn [fold_left map In].
  - intuition.
  - rewrite IH, keys_map_set. intuition.
Qed.

Lemma lookup_app {A} k (a b : list (string * A)) :
  lookup k (a ++ b)
  = match lookup k a with Some v => Some v | None => lookup k b end.
Proof.
  induction a as [|[k0 v0] a IH]; cbn [app lookup]; [reflexivity|].
  now destruct (String.eqb k k0).
Qed.

Lemma fold_set_lookup l t k :
  lookup k (fold_left (fun t e => map_set (fst e) (snd e) t) l t)
  = match lookup k (rev l) with Some v => Some v | None => lookup k t end.
Proof.
  revert t. induction l as [|[k0 v0] l IH]; intros t; cbn [fold_left rev];
    [reflexivity|].
  rewrite IH, lookup_app, lookup_map_set. cbn [fst snd lookup].
  destruct (lookup k (rev l)); [reflexivity|].
  now destruct (String.eqb k k0).
Qed.

Lemma lower_char_idem c : Str.lower_char (Str.lower_char c) = Str.lower_char c.
Proof. destruct c as [[] [] [] [] [] [] [] []]; vm_compute; reflexivity. Qed.

Lemma toLowerCase_idem s : Str.toLowerCase (Str.toLowerCase s) = Str.toLowerCase s.
Proof.
  induction s as [|c s IH]; [reflexivity|].
  cbn [Str.toLowerCase]. now rewrite lower_char_idem, IH.
Qed.

Lemma mapM_toLowerCase props lowered :
  mapM toLowerCase props = Ok lowered ->
  map fst lowered = map (fun e => Str.toLowerCase (fst e)) props /\
  Forall2 (fun e t => ToString (snd e) = Ok t) props (map snd lowered).
Proof.
  revert lowered. induction props as [|[k v] props IH]; intros lowered;
    cbn [mapM].
  - intros [= <-]. split; [reflexivity|constructor].
  - unfold toLowerCase at 1.
    destruct (ToString v) as [t|] eqn:Hv; cbn [bind]; [|discriminate].
    destruct (mapM toLowerCase props) as [l|]; cbn [bind]; [|discriminate].
    intros [= <-]. destruct (IH l eq_refl) as [H1 H2]. cbn [map fst snd].
    split; [now rewrite H1|now constructor].
Qed.

Lemma mapM_snoc {A B} (f : A -> result B) l x ys :
  mapM f (l ++ [x]) = Ok ys ->
  exists zs y, mapM f l = Ok zs /\ f x = Ok y /\ ys = (zs ++ [y])%list.
Proof.
  revert ys. induction l as [|a l IH]; intros ys; cbn [app mapM].
  - destruct (f x) as [y|]; cbn [bind]; [|discriminate].
    intros [= <-]. now exists [], y.
  - destruct (f a) as [b|]; cbn [bind]; [|discriminate].
    destruct (mapM f (l ++ [x])) as [r|]; cbn [bind]; [|discriminate].
    intros [= <-]. destruct (IH r eq_refl) as (zs & y & -> & Hy & ->).
    exists (b :: zs), y. cbn [bind]. now repeat split.
Qed.

Lemma tags_inv o t :
  tags o = Ok t ->
  exists lowered,
    mapM toLowerCase (entries (if truthy o then o else VObj [])) = Ok lowered
    /\ t = new_Map lowered.
Proof.
  unfold tags. destruct (mapM toLowerCase _) as [l|]; cbn [bind];
    [|discriminate].
  intros [= <-]. now exists l.
Qed.

Lemma lookup_In {A} (l : list (string * A)) q w :
  lookup q l = Some w -> In q (map fst l).
Proof.
  induction l as [|[k0 v0] l IH]; cbn [lookup map fst In]; [discriminate|].
  destruct (String.eqb_spec q k0) as [->|_]; [now left|].
  intros Hl. right. now apply IH.
Qed.

End TagsFacts.

(** X11: when the tags of a source are built, they are a map whose keys are
    distinct and in lower case (lowering them again changes nothing); a
    source that is absent, or falsy in another way, gives the empty map;
    and the tags are built exactly when every value of the source's
    entries is accepted by the conversion to a primitive. *)
Theorem tags_keys (o : value) :
  (forall t, tags o = Ok t ->
     NoDup (keys t) /\ Forall (fun k => Str.toLowerCase k = k) (keys t)) /\
  (truthy o = false -> tags o = Ok []) /\
  ((exists t, tags o = Ok t) <->
   Forall (fun e => convertible (snd e) = true)
     (entries (if truthy o then o else VObj []))).
Proof.
  split; [|split].
  - intros t H. destruct (TagsFacts.tags_inv o t H) as (l & Hl & ->).
    unfold new_Map. split.
    + apply TagsFacts.fold_set_nodup. constructor.
    + apply Forall_forall. intros k Hk.
      apply TagsFacts.fold_set_keys in Hk as [Hk|[]].
      destruct (TagsFacts.mapM_toLowerCase _ _ Hl) as [Hkeys _].
      rewrite Hkeys in Hk. apply in_map_iff in Hk as (e & <- & _).
      apply TagsFacts.toLowerCase_idem.
  - intros H. unfold tags. rewrite H. reflexivity.
  - split.
    + intros [t H]. destruct (TagsFacts.tags_inv o t H) as (l & Hl & _).
      apply TypesFacts.mapM_Forall2 in Hl.
      induction Hl as [|[k v] [k' t'] es l Hx _ IH]; constructor;
        [|exact IH].
      cbn [snd]. unfold toLowerCase in Hx.
      destruct (ToString v) as [u|] eqn:Hv; [|discriminate].
      exact (TypesFacts.ToString_Ok v u Hv).
    + intros H. unfold tags.
      destruct (TypesFacts.mapM_total toLowerCase
                  (entries (if truthy o then o else VObj []))) as [l ->];
        [|eexists; reflexivity].
      eapply Forall_impl; [|exact H]. intros e He.
      now apply TypesFacts.toLowerCase_total.
Qed.

(** X12: looking a key up in the tags of an object finds the text of the
    last entry whose key is that key when lowered: later entries overwrite
    earlier ones, whatever their case; so the last entry of an object is
    always found, under its lowered key, with the text of its value. *)
Theorem tags_last_wins (props : list (string * value)) (k : string) :
  (forall t, tags (VObj props) = Ok t ->
     exists lowered,
       mapM toLowerCase props = Ok lowered /\
       lookup k t = lookup k (rev lowered)) /\
  (forall key v t,
     tags (VObj (props ++ [(key, v)])) = Ok t ->
     exists text, ToString v = Ok text /\
                  lookup (Str.toLowerCase key) t = Some text) /\
  (forall t, tags (VObj props) = Ok t ->
     ~ In k (map (fun e => Str.toLowerCase (fst e)) props) ->
     lookup k t = None).
Proof.
  assert (H : forall l q t,
            tags (VObj l) = Ok t ->
            exists lowered, mapM toLowerCase l = Ok lowered /\
                            lookup q t = lookup q (rev lowered)).
  { intros l q t Ht.
    destruct (TagsFacts.tags_inv _ _ Ht) as (lowered & Hl & ->).
    cbn [truthy entries] in Hl. exists lowered. split; [exact Hl|].
    unfold new_Map. rewrite TagsFacts.fold_set_lookup.
    now destruct (lookup q (rev lowered)). }
  split; [intros t; apply H|]. split.
  - intros key v t Ht.
    destruct (H _ (Str.toLowerCase key) _ Ht) as (lowered & Hl & ->).
    apply TagsFacts.mapM_snoc in Hl as (zs & [k' text] & _ & Hlast & ->).
    unfold toLowerCase in Hlast.
    destruct (ToString v) as [u|]; cbn [bind] in Hlast; [|discriminate].
    injection Hlast as <- <-. exists u. split; [reflexivity|].
    rewrite rev_app_distr. cbn [rev app lookup].
    now rewrite String.eqb_refl.
  - intros t Ht Hn. destruct (H _ k _ Ht) as (lowered & Hl & ->).
    destruct (lookup k (rev lowered)) as [v|] eqn:E; [|reflexivity].
    exfalso. apply Hn. apply TagsFacts.lookup_In in E.
    rewrite map_rev in E. apply in_rev in E.
    now rewrite (proj1 (TagsFacts.mapM_toLowerCase _ _ Hl)) in E.
Qed.

(** ** Streams, chapters and the probe result *)

(** X13: the codec tag of a stream is never the empty text nor the text
    [[0][0][0][0]]: a source that is one of these two texts, or absent, or
    falsy in another way, gives a stream without codec tag; any other text
    is kept as it is. *)
Theorem codec_tag_normalized (info : value) (b : BaseStream) :
  new_BaseStream info = Ok b ->
  let source := prop info "codec_tag_string" in
  codecTag_ b <> Some "" /\
  codecTag_ b <> Some "[0][0][0][0]" /\
  (source = VUndefined -> codecTag_ b = None) /\
  (source = VStr "" -> codecTag_ b = None) /\
  (source = VStr "[0][0][0][0]" -> codecTag_ b = None) /\
  (truthy source = false -> codecTag_ b = None) /\
  (forall t, source = VStr t ->
             t <> "" -> t <> "[0][0][0][0]" -> codecTag_ b = Some t) /\
  exists text, ToString source = Ok text /\
    codecTag_ b
    = if negb (truthy source) || String.eqb text "[0][0][0][0]"
         || String.eqb text ""
      then None else Some text.
Proof.
  intros Hb source.
  destruct (TypesFacts.new_BaseStream_inv _ _ Hb)
    as (_ & _ & _ & (tag & Htag & Hb') & _).
  fold source in Htag. unfold codecTag in Htag.
  destruct (ToString source) as [text|] eqn:Ht; cbn [bind] in Htag;
    [|discriminate].
  injection Htag as <-.
  assert (Hgen : codecTag_ b
                 = if negb (truthy source) || String.eqb text "[0][0][0][0]"
                      || String.eqb text ""
                   then None else Some text).
  { rewrite Hb'.
    destruct (negb (truthy source) || String.eqb text "[0][0][0][0]");
      reflexivity. }
  split; [|split; [|split; [|split; [|split; [|split; [|split]]]]]].
  - rewrite Hgen. destruct (_ || _ || _) eqn:E; [discriminate|].
    apply orb_false_elim in E as [_ E]. apply String.eqb_neq in E.
    congruence.
  - rewrite Hgen. destruct (_ || _ || _) eqn:E; [discriminate|].
    apply orb_false_elim in E as [E _]. apply orb_false_elim in E as [_ E].
    apply String.eqb_neq in E. congruence.
  - intros E. rewrite Hgen, E. reflexivity.
  - intros E. rewrite Hgen, E. reflexivity.
  - intros E. rewrite E in Ht. injection Ht as <-. rewrite Hgen, E.
    reflexivity.
  - intros E. rewrite Hgen, E. reflexivity.
  - intros t E H1 H2. rewrite E in Ht. injection Ht as <-.
    rewrite Hgen, E. cbn [truthy].
    apply String.eqb_neq in H1, H2. now rewrite H1, H2.
  - exists text. split; [reflexivity|exact Hgen].
Qed.

Lemma codec_tag_normalized_witness :
  (exists b, new_BaseStream (VObj [("codec_tag_string", VStr "avc1")]) = Ok b
             /\ codecTag_ b = Some "avc1") /\
  (exists b, new_BaseStream
               (VObj [("codec_tag_string", VStr "[0][0][0][0]")]) = Ok b
             /\ codecTag_ b = None) /\
  (exists b, new_BaseStream (VObj [("codec_tag_string", VStr "")]) = Ok b
             /\ codecTag_ b = None) /\
  (exists b, new_BaseStream (VObj []) = Ok b /\ codecTag_ b = None).
Proof.
  split; [|split; [|split]].
  - eexists. split; [vm_compute; reflexivity|].
    refine (proj1 (proj2 (proj2 (proj2 (proj2 (proj2 (proj2
              (codec_tag_normalized
                 (VObj [("codec_tag_string", VStr "avc1")]) _ eq_refl)))))))
              "avc1" eq_refl _ _); discriminate.
  - eexists. split; [vm_compute; reflexivity|].
    exact (proj1 (proj2 (proj2 (proj2 (proj2
             (codec_tag_normalized
                (VObj [("codec_tag_string", VStr "[0][0][0][0]")]) _
                eq_refl))))) eq_refl).
  - eexists. split; [vm_compute; reflexivity|].
    exact (proj1 (proj2 (proj2 (proj2
             (codec_tag_normalized
                (VObj [("codec_tag_string", VStr "")]) _ eq_refl))))
             eq_refl).
  - eexists. split; [vm_compute; reflexivity|].
    exact (proj1 (proj2 (proj2
             (codec_tag_normalized (VObj []) _ eq_refl))) eq_refl).
Defined.

(** X14: start and duration of a stream and of the probe result are the
    source coerced to a number, times 1000, cut to an integer and reduced
    modulo 2^32 into the signed 32-bit range, and the score is the source so
    reduced: a time from 2^31 ms on is not stored as it is, and a source
    that coerces to NaN gives 0. *)
Theorem millisecond_fields :
  (forall v n, ToNumber v = Ok n ->
     let x := Num.mul n (Num.of_Z 1000) in
     exists y, millis v = Ok y /\ reduced_int32 x y /\
       (2 ^ 31 <= Num.truncate x -> Num.truncate y <> Num.truncate x) /\
       (Num.is_nan n = true -> y = Num.of_Z 0)) /\
  (forall info b, new_BaseStream info = Ok b ->
     millis (prop info "start_time") = Ok (start b) /\
     millis (prop info "duration") = Ok (duration b)) /\
  (forall info p, new_ProbeResult info = Ok p ->
     millis (prop (prop info "format") "start_time") = Ok (probe_start p) /\
     millis (prop (prop info "format") "duration") = Ok (probe_duration p) /\
     coerced (prop (prop info "format") "probe_score")
       (fun n => reduced_int32 n (score p))).
Proof.
  split; [|split].
  - intros v n Hn x. unfold millis. rewrite Hn. cbn [bind]. fold x.
    exists (bor0 x). split; [reflexivity|].
    pose proof (TypesFacts.bor_reduced x) as Hr.
    split; [exact Hr|]. split.
    + intros Hx. destruct Hr as (z & _ & Hz & Ht & _).
      unfold bor0. lia.
    + intros H. unfold x. now rewrite (TypesFacts.is_nan_eq _ H).
  - intros info b Hb.
    destruct (TypesFacts.new_BaseStream_inv _ _ Hb)
      as (_ & _ & _ & _ & Hs & Hd & _).
    now split.
  - intros info p Hp.
    destruct (TypesFacts.new_ProbeResult_inv _ _ Hp)
      as (_ & _ & _ & Hs & Hd & _ & Hsc & _).
    split; [exact Hs|]. split; [exact Hd|]. now apply TypesFacts.or0_Ok.
Qed.

(** X15: a fraction field reads the first two pieces of its text and
    nothing after a second slash. *)
Theorem f64_ignores_rest (x y rest : string) :
  has_char "/" x = false -> has_char "/" y = false ->
  f64 (VStr (x ++ "/" ++ y ++ "/" ++ rest)) = f64 (VStr (x ++ "/" ++ y)).
Proof.
  intros Hx Hy. unfold f64. cbn [ToString bind].
  change (x ++ "/" ++ y ++ "/" ++ rest)%string
    with (x ++ String "/" (y ++ String "/" rest))%string.
  change (x ++ "/" ++ y)%string with (x ++ String "/" y)%string.
  rewrite (TypesFacts.split_slash x _ Hx), (TypesFacts.split_slash y _ Hy).
  rewrite (TypesFacts.split_two x y Hx Hy). reflexivity.
Qed.

Lemma f64_ignores_rest_witness :
  f64 (VStr "30/1/7") = f64 (VStr "30/1") /\
  f64 (VStr "30/1") = Ok (Num.of_Z 30).
Proof.
  split; [exact (f64_ignores_rest "30" "1" "7" eq_refl eq_refl)|].
  vm_compute. reflexivity.
Defined.

(** X17: the streams and the chapters of a probe result built from a
    report with arrays stand in the order of the report's entries, without
    a hole: each stream is what [toStream] makes of the entry at its place,
    of the variant of that entry's media type and with its index, and each
    chapter what [new Chapter] makes of its entry. *)
Theorem probe_result_order (info : value) (p : ProbeResult) :
  new_ProbeResult info = Ok p ->
  (forall items, prop info "streams" = VArr items ->
     exists ss, streams p = map Some ss /\
       Forall2 (fun x s =>
                  toStream x = Ok s /\
                  (exists type,
                     ToString (prop x "codec_type") = Ok type /\
                     kind_of s = kind_of_text type) /\
                  ushr0 (prop x "index") = Ok (index (base_of s)))
               items ss) /\
  (forall items, prop info "chapters" = VArr items ->
     exists cs, chapters p = map Some cs /\
       Forall2 (fun x c => new_Chapter x = Ok c /\
                           ushr0 (prop x "id") = Ok (chapter_id c))
               items cs).
Proof.
  intros Hp.
  destruct (TypesFacts.new_ProbeResult_inv _ _ Hp)
    as (_ & _ & _ & _ & _ & _ & _ & _ & Hs & Hc & _).
  split.
  - intros items E. rewrite E in Hs.
    apply TypesFacts.map_call_array in Hs as (ss & Hss & Hm).
    exists ss. split; [exact Hss|].
    apply TypesFacts.mapM_Forall2 in Hm.
    eapply Forall2_impl; [|exact Hm]. cbv beta. intros x s Hx.
    split; [exact Hx|].
    destruct (TypesFacts.toStream_inv _ _ Hx) as (_ & type & Ht & Hk & _).
    split; [now exists type|].
    apply (TypesFacts.new_BaseStream_inv _ _
             (TypesFacts.base_of_toStream _ _ Hx)).
  - intros items E. rewrite E in Hc.
    apply TypesFacts.map_call_array in Hc as (cs & Hcs & Hm).
    exists cs. split; [exact Hcs|].
    apply TypesFacts.mapM_Forall2 in Hm.
    eapply Forall2_impl; [|exact Hm]. cbv beta. intros x c Hx.
    split; [exact Hx|]. apply (TypesFacts.new_Chapter_inv _ _ Hx).
Qed.

(** ** A whole filter description read back *)

Module DescriptionFacts.

Import ReadbackFacts.

Lemma array_rendering array texts :
  mapM stringifyValue (filter (fun v => negb (isNullish v)) array)
  = Ok texts ->
  stringifyArrayColonSeparated array
  = Ok (Str.join ":" (map escapeFilterValue texts)).
Proof.
  intros Hm. unfold stringifyArrayColonSeparated.
  now rewrite render_values, Hm.
Qed.

Lemma read_values texts :
  texts <> [] ->
  read_list (Str.join ":" (map escapeFilterValue texts)) = texts.
Proof.
  intros Hne. unfold read_list. rewrite split_join.
  - rewrite map_map. rewrite <- (map_id texts) at 2.
    apply map_ext. apply unescape_value.
  - destruct texts; [congruence|discriminate].
  - apply Forall_forall. intros p Hp. apply in_map_iff in Hp as (t & <- & _).
    apply neutral_value.
Qed.

Lemma escape_value_empty t : escapeFilterValue t = "" -> t = "".
Proof. intros H. rewrite <- (unescape_value t), H. reflexivity. Qed.

Lemma app_not_empty a c b : (a ++ String c b)%string <> "".
Proof. destruct a; discriminate. Qed.

Lemma join_values_empty texts :
  Str.join ":" (map escapeFilterValue texts) = "" ->
  texts = [] \/ texts = [""].
Proof.
  destruct texts as [|t [|u r]]; [now left| |].
  - cbn [map Str.join]. intros H. right. now rewrite (escape_value_empty t H).
  - change (Str.join ":" (map escapeFilterValue (t :: u :: r)))
      with (escapeFilterValue t
            ++ String ":" (Str.join ":" (map escapeFilterValue (u :: r))))%string.
    intros H. now apply app_not_empty in H.
Qed.

Lemma unescape_description t : unescape (escapeFilterDescription t) = t.
Proof. apply EscapeFacts.unescape_replace. simpl. auto. Qed.

Lemma join_pieces_not_empty (pairs : list (string * string)) :
  pairs <> [] ->
  Str.join ":"
    (map (fun e => key_value (fst e, escapeFilterValue (snd e))) pairs)
  <> "".
Proof.
  destruct pairs as [|[k t] [|e r]]; [congruence| |]; intros _.
  - cbn [map Str.join key_value fst snd].
    change ("=" ++ escapeFilterValue t)%string
      with (String "=" (escapeFilterValue t)).
    apply app_not_empty.
  - change (Str.join ":" (map (fun e => key_value (fst e, escapeFilterValue (snd e)))
                            ((k, t) :: e :: r)))
      with (key_value (k, escapeFilterValue t)
            ++ String ":"
                 (Str.join ":"
                    (map (fun e => key_value (fst e, escapeFilterValue (snd e)))
                         (e :: r))))%string.
    apply app_not_empty.
Qed.

End DescriptionFacts.

(** X9: a filter description written for an array reads back: after the
    name and ["="], dropping the outer escaping, cutting at the unescaped
    colons and dropping the inner escaping gives the texts of the values
    that are not absent. It needs values other than one empty text alone:
    for that one, as for no value, the name alone is written. *)
Theorem array_description_reads_back (name : string) (array : list unknown)
    (texts : list string) :
  mapM stringifyValue (filter (fun v => negb (isNullish v)) array)
  = Ok texts ->
  (texts = [] \/ texts = [""] ->
   stringifyFilterDescription name (ArrayOptions array) = Ok name) /\
  (texts <> [] -> texts <> [""] ->
   exists d, stringifyFilterDescription name (ArrayOptions array)
             = Ok (name ++ "=" ++ d)%string /\
             read_list (unescape d) = texts).
Proof.
  intros Hm. cbn [stringifyFilterDescription].
  rewrite (DescriptionFacts.array_rendering array texts Hm). cbn [bind].
  split.
  - intros [->| ->]; reflexivity.
  - intros H1 H2.
    destruct (String.eqb_spec
                (Str.join ":" (map escapeFilterValue texts)) "") as [E|_].
    + apply DescriptionFacts.join_values_empty in E as [E|E]; congruence.
    + eexists. split; [reflexivity|].
      rewrite DescriptionFacts.unescape_description.
      now apply DescriptionFacts.read_values.
Qed.

Lemma array_description_reads_back_witness :
  stringifyFilterDescription "volume" (ArrayOptions [Plain (VStr "")])
  = Ok "volume" /\
  exists d,
    stringifyFilterDescription "crop"
      (ArrayOptions [Plain (VStr "iw/2"); Plain VNull; Plain (VStr "a,b:c")])
    = Ok ("crop=" ++ d)%string /\
    d = "iw/2:a\,b\\:c" /\
    read_list (unescape d) = ["iw/2"; "a,b:c"].
Proof.
  split.
  - apply (proj1 (array_description_reads_back "volume" [Plain (VStr "")] [""]
                    eq_refl)).
    now right.
  - destruct (proj2 (array_description_reads_back "crop"
                       [Plain (VStr "iw/2"); Plain VNull; Plain (VStr "a,b:c")]
                       ["iw/2"; "a,b:c"] eq_refl))
      as (d & Hd & Hr); try discriminate.
    exists d. split; [exact Hd|]. split; [|exact Hr].
    revert Hd. vm_compute. now intros [= <-].
Defined.

(** X10: a filter description written for an object whose keys have no
    colon, equals sign or backslash reads back in the same way to the keys
    and the texts of the values that are not absent; with no such value the
    name alone is written. *)
Theorem object_description_reads_back (name : string)
    (object : list (string * unknown)) (texts : list string) :
  mapM stringifyValue (map snd (present object)) = Ok texts ->
  Forall (fun k => plain_key k = true) (map fst (present object)) ->
  (texts = [] -> stringifyFilterDescription name (ObjectOptions object)
                 = Ok name) /\
  (texts <> [] ->
   exists d, stringifyFilterDescription name (ObjectOptions object)
             = Ok (name ++ "=" ++ d)%string /\
             read_pairs (unescape d)
             = combine (map fst (present object)) texts).
Proof.
  intros Hm Hk. cbn [stringifyFilterDescription].
  rewrite (SerializerFacts.object_rendering object texts Hm). cbn [bind].
  pose proof (ReadbackFacts.mapM_length _ _ _ Hm) as Hl.
  rewrite length_map in Hl.
  split.
  - intros ->. destruct (present object); [reflexivity|discriminate Hl].
  - intros Hne.
    assert (Hp : combine (map fst (present object)) texts <> []).
    { destruct texts as [|t ts]; [congruence|].
      destruct (present object) as [|e l]; [discriminate Hl|discriminate]. }
    destruct (String.eqb_spec
                (Str.join ":"
                   (map (fun e => key_value (fst e, escapeFilterValue (snd e)))
                        (combine (map fst (present object)) texts))) "")
      as [E|_].
    + now apply DescriptionFacts.join_pieces_not_empty in E.
    + eexists. split; [reflexivity|].
      rewrite DescriptionFacts.unescape_description. unfold read_pairs.
      destruct (ReadbackFacts.read_pieces
                  (combine (map fst (present object)) texts)
                  (ReadbackFacts.combine_plain _ texts Hk)) as [H1 H2].
      rewrite ReadbackFacts.split_join; [exact H1| |exact H2].
      intros E. apply map_eq_nil in E. contradiction.
Qed.

Lemma object_description_reads_back_witness :
  exists d,
    stringifyFilterDescription "scale"
      (ObjectOptions [("w", Plain (VNum (Num.of_Z 100))); ("h", Plain VNull);
                      ("flags", Plain (VStr "a,b"))])
    = Ok ("scale=" ++ d)%string /\
    d = "w=100:flags=a\,b" /\
    read_pairs (unescape d) = [("w", "100"); ("flags", "a,b")].
Proof.
  destruct (proj2 (object_description_reads_back "scale"
                     [("w", Plain (VNum (Num.of_Z 100))); ("h", Plain VNull);
                      ("flags", Plain (VStr "a,b"))]
                     ["100"; "a,b"] eq_refl
                     ltac:(repeat constructor)))
    as (d & Hd & Hr); try discriminate.
  exists d. split; [exact Hd|]. split; [|exact Hr].
  revert Hd. vm_compute. now intros [= <-].
Defined.

(** ** Witnesses of the further properties *)

Lemma parseTimestamp_present_witness :
  exists x, parseTimestamp "ab01:02cd" = Some x.
Proof.
  apply parseTimestamp_present.
  exists "ab", "01:02", "cd". split; [reflexivity|].
  exists "", "", "01", "02", "". repeat split.
  - now left.
  - now left.
  - exists "0"%char, "1"%char. repeat split.
  - exists "0"%char, "2"%char. repeat split.
  - now left.
Defined.

Lemma parseTimestamp_rule_no_hours_witness :
  parseTimestamp "-12:34.25 left" = Some (Num.of_Z (-754250)).
Proof.
  refine (eq_trans
            (parseTimestamp_rule_no_hours true "1" "2" "3" "4" ".25" " left"
               eq_refl eq_refl eq_refl eq_refl
               (or_intror
                  (ex_intro _ "25"
                     (conj (fun E => _) (conj eq_refl eq_refl))))
               eq_refl eq_refl)
            _).
  - discriminate E.
  - vm_compute. reflexivity.
Defined.

Lemma probe_result_order_witness :
  exists p ss cs, new_ProbeResult report_of_three = Ok p /\
    streams p = map Some ss /\ chapters p = map Some cs /\
    map kind_of ss = [KAudio; KVideo; KData] /\
    map (fun s => index (base_of s)) ss
    = [Num.of_Z 0; Num.of_Z 1; Num.of_Z 0] /\
    List.length cs = 1%nat.
Proof.
  destruct (new_ProbeResult report_of_three) as [p|e] eqn:Hp;
    [|vm_compute in Hp; discriminate Hp].
  destruct (proj1 (probe_result_order report_of_three p Hp) _ eq_refl)
    as (ss & Hss & _).
  destruct (proj2 (probe_result_order report_of_three p Hp) _ eq_refl)
    as (cs & Hcs & _).
  exists p, ss, cs. split; [reflexivity|]. split; [exact Hss|].
  split; [exact Hcs|].
  revert Hss Hcs. revert Hp. vm_compute.
  intros [= <-]. cbn [streams chapters].
  destruct ss as [|s1 [|s2 [|s3 [|]]]]; try discriminate.
  destruct cs as [|c1 [|]]; try discriminate.
  intros [= <- <- <-] _. repeat split.
Defined.
